(** * HipPain: the hip-replacement pain-score calculator of [app.py]

    A shallow embedding of the prediction pipeline of [app.py]: the feature
    catalog, the model-backed predictor [predict_with_model], the heuristic
    predictor [predict_in_demo_mode], the artifact check [check_models_exist]
    and the predict-or-fall-back policy of [main].

    Python [float]s are IEEE 754 binary64 numbers; they are modelled with
    the executable specification [SpecFloat] of the Standard Library
    (precision 53, [emax] 1024, round to nearest even).  Python [int]s are
    [Z].  A [dict] with string keys is a [gmap string _].  Exceptions are
    values of [exn], threaded through an error monad. *)

From Stdlib Require Import ZArith Lia Bool List Ascii String.
From Stdlib Require Import Floats.SpecFloat.
From stdpp Require Import base option list gmap strings.

Open Scope Z_scope.

(** ** Exceptions and the error monad *)

(** The exception classes the program can raise.  All of them are
    subclasses of Python's [Exception], so [except Exception] catches each. *)
Inductive exn : Type :=
  | ValueError (msg : string)
  | FileNotFoundError (msg : string)
  | TypeError (msg : string)
  | OverflowError (msg : string)
  | OtherException (msg : string).

(** [str(e)] *)
Definition str_exn (e : exn) : string :=
  match e with
  | ValueError msg | FileNotFoundError msg | TypeError msg
  | OverflowError msg | OtherException msg => msg
  end.

Inductive result (A : Type) : Type :=
  | Ok (a : A)
  | Raise (e : exn).
Arguments Ok {A} a.
Arguments Raise {A} e.

Definition rbind {A B : Type} (c : result A) (k : A -> result B) : result B :=
  match c with
  | Ok a => k a
  | Raise e => Raise e
  end.

Notation "'let!' x ':=' c 'in' k" := (rbind c (fun x => k))
  (at level 10, x pattern, c at level 100, k at level 200).

(** ** Binary64 arithmetic *)

Module B64.

Definition prec : Z := 53.
Definition emax : Z := 1024.

Definition mul : spec_float -> spec_float -> spec_float := SFmul prec emax.
Definition add : spec_float -> spec_float -> spec_float := SFadd prec emax.
Definition sub : spec_float -> spec_float -> spec_float := SFsub prec emax.
Definition div : spec_float -> spec_float -> spec_float := SFdiv prec emax.

(** The binary64 number nearest to an integer (ties to even, infinite on
    overflow). *)
Definition of_Z (z : Z) : spec_float := binary_normalize prec emax z 0 false.

(** The value of a decimal literal [n/d] with [n] and [d] below [2^53]:
    the correctly rounded quotient of two exactly represented integers. *)
Definition literal (n d : Z) : spec_float := div (of_Z n) (of_Z d).

Definition is_nan (f : spec_float) : bool :=
  match f with S754_nan => true | _ => false end.

Definition valid (f : spec_float) : bool := valid_binary prec emax f.

(** Exact comparison of a binary64 number with an integer, as CPython's
    [float_richcompare] does it: no rounding of the integer. *)
Definition compare_Z (f : spec_float) (z : Z) : option comparison :=
  match f with
  | S754_nan => None
  | S754_infinity s => Some (if s then Lt else Gt)
  | S754_zero _ => Some (0 ?= z)
  | S754_finite s m e =>
      let sm := if s then Z.neg m else Z.pos m in
      Some (if e <? 0 then sm ?= z * 2 ^ (- e) else sm * 2 ^ e ?= z)
  end.

End B64.

(** ** Python numbers and values *)

(** A number is an [int] or a [float]; [bool] is a subclass of [int] and is
    covered by [PyInt 0] and [PyInt 1]. *)
Inductive number : Type :=
  | PyInt (z : Z)
  | PyFloat (f : spec_float).

(** The values a patient record holds: numbers and categorical strings. *)
Inductive value : Type :=
  | Num (n : number)
  | Str (s : string).

Coercion Num : number >-> value.

(** [float(z)] for an [int] operand of a float operation: CPython rounds to
    nearest even and raises [OverflowError] when the result is not finite. *)
Definition float_of_int (z : Z) : result spec_float :=
  match B64.of_Z z with
  | S754_infinity _ => Raise (OverflowError "int too large to convert to float")
  | f => Ok f
  end.

Definition float_of_number (n : number) : result spec_float :=
  match n with
  | PyInt z => float_of_int z
  | PyFloat f => Ok f
  end.

(** [c * v] for a float [c]: a number is converted and multiplied, a string
    cannot be repeated a non-integer number of times. *)
Definition float_mul (c : spec_float) (v : value) : result spec_float :=
  match v with
  | Num n => let! f := float_of_number n in Ok (B64.mul c f)
  | Str _ => Raise (TypeError "can't multiply sequence by non-int of type 'float'")
  end.

(** [x - n] for a float [x] and a number [n]. *)
Definition float_sub (x : spec_float) (n : number) : result spec_float :=
  let! f := float_of_number n in Ok (B64.sub x f).

(** Three-way comparison of numbers; [None] when a NaN is involved.  Mixed
    comparisons are exact. *)
Definition num_compare (a b : number) : option comparison :=
  match a, b with
  | PyInt x, PyInt y => Some (x ?= y)
  | PyFloat x, PyFloat y => SFcompare x y
  | PyFloat x, PyInt y => B64.compare_Z x y
  | PyInt x, PyFloat y => CompOpp <$> B64.compare_Z y x
  end.

(** [a < b], [a > b], [a <= b] *)
Definition num_lt (a b : number) : bool :=
  match num_compare a b with Some Lt => true | _ => false end.
Definition num_gt (a b : number) : bool :=
  match num_compare a b with Some Gt => true | _ => false end.
Definition num_le (a b : number) : bool :=
  match num_compare a b with Some (Lt | Eq) => true | _ => false end.

(** The builtins [min(a, b)] and [max(a, b)]: the first argument is kept
    unless the second is strictly smaller (resp. larger). *)
Definition py_min (a b : number) : number := if num_lt b a then b else a.
Definition py_max (a b : number) : number := if num_gt b a then b else a.

(** [v == s] for a string literal [s] *)
Definition eq_str (v : option value) (s : string) : bool :=
  match v with
  | Some (Str t) => String.eqb t s
  | _ => false
  end.

(** [patient_data.get(key, default)] *)
Definition dict_get (patient_data : gmap string value) (key : string)
    (dflt : value) : value :=
  default dflt (patient_data !! key).

(** ** The heuristic predictor *)

Definition lit_2_0 : spec_float := Eval vm_compute in B64.of_Z 2.
Definition lit_1_5 : spec_float := Eval vm_compute in B64.literal 15 10.
Definition lit_0_5 : spec_float := Eval vm_compute in B64.literal 5 10.
Definition lit_0_2 : spec_float := Eval vm_compute in B64.literal 2 10.
Definition lit_0_1 : spec_float := Eval vm_compute in B64.literal 1 10.
Definition lit_0_15 : spec_float := Eval vm_compute in B64.literal 15 100.
Definition lit_0_01 : spec_float := Eval vm_compute in B64.literal 1 100.
Definition lit_0_008 : spec_float := Eval vm_compute in B64.literal 8 1000.
Definition lit_0_005 : spec_float := Eval vm_compute in B64.literal 5 1000.

(** [f] is a valid positive binary64 number less than half a unit in the
    last place away from the fraction [n/d]: the double a decimal literal
    of that value denotes. *)
Definition denotes (f : spec_float) (n d : Z) : bool :=
  match f with
  | S754_finite false m e =>
      B64.valid f && (e <? 0) &&
      (2 * Z.abs (Z.pos m * d - n * 2 ^ (- e)) <? d) &&
      ((Z.pos m * d =? n * 2 ^ (- e)) || negb (Z.pos m =? 2 ^ 52))
  | _ => false
  end.

(** [max(0, min(8, prediction))] *)
Definition clamp_0_8 (prediction : spec_float) : number :=
  py_max (PyInt 0) (py_min (PyInt 8) (PyFloat prediction)).

Definition predict_in_demo_mode (patient_data : gmap string value)
    (timepoint : string) : result number :=
  if String.eqb timepoint "T3" then
    let! bmi_factor := float_mul lit_0_01 (dict_get patient_data "BMI_Current" (PyInt 25)) in
    let! age_factor := float_mul lit_0_01 (dict_get patient_data "AgePreOp" (PyInt 65)) in
    let! preop_factor := float_mul lit_0_2 (dict_get patient_data "Pre-Op Pain" (PyInt 5)) in
    let! walk_factor := float_mul lit_0_1 (dict_get patient_data "WalkPain" (PyInt 5)) in
    let prediction :=
      B64.sub (B64.add (B64.add (B64.add lit_2_0 bmi_factor) age_factor) preop_factor)
              walk_factor in
    Ok (clamp_0_8 prediction)
  else
    let! bmi_factor := float_mul lit_0_008 (dict_get patient_data "BMI_Current" (PyInt 25)) in
    let! age_factor := float_mul lit_0_005 (dict_get patient_data "AgePreOp" (PyInt 65)) in
    let! preop_factor := float_mul lit_0_15 (dict_get patient_data "Pre-Op Pain" (PyInt 5)) in
    let approach_factor :=
      if eq_str (patient_data !! "Approach") "Posterior" then PyFloat lit_0_5 else PyInt 0 in
    let! prediction :=
      float_sub (B64.add (B64.add (B64.add lit_1_5 bmi_factor) age_factor) preop_factor)
                approach_factor in
    Ok (clamp_0_8 prediction).

(** ** Strings *)

(** [str.upper] and [str.lower] on ASCII letters; other bytes are kept.
    On a string of ASCII characters ([is_ascii]) these are Python's
    [str.upper] and [str.lower].  Python also maps letters outside ASCII;
    the upper-case form of a string that holds one is never ["T3"] or
    ["T5"], so the two agree on which timepoints are accepted, and
    [load_models] is reached from [predict_with_model] with ["T3"] and
    ["T5"] only. *)
Definition ascii_upper (c : ascii) : ascii :=
  let n := N_of_ascii c in
  if ((97 <=? n) && (n <=? 122))%N then ascii_of_N (n - 32) else c.

Definition ascii_lower (c : ascii) : ascii :=
  let n := N_of_ascii c in
  if ((65 <=? n) && (n <=? 90))%N then ascii_of_N (n + 32) else c.

(** Every character of the string is an ASCII character. *)
Fixpoint is_ascii (s : string) : bool :=
  match s with
  | EmptyString => true
  | String c s' => (N_of_ascii c <? 128)%N && is_ascii s'
  end.

Fixpoint upper (s : string) : string :=
  match s with
  | EmptyString => EmptyString
  | String c s' => String (ascii_upper c) (upper s')
  end.

Fixpoint lower (s : string) : string :=
  match s with
  | EmptyString => EmptyString
  | String c s' => String (ascii_lower c) (lower s')
  end.

(** [s.split(" ")[0]]: the part of [s] before its first space. *)
Fixpoint first_word (s : string) : string :=
  match s with
  | EmptyString => EmptyString
  | String c s' => if Ascii.eqb c " " then EmptyString else String c (first_word s')
  end.

(** [x in l] for a list of strings *)
Definition str_in (x : string) (l : list string) : bool :=
  existsb (String.eqb x) l.

(** [sep.join(l)] *)
Fixpoint join (sep : string) (l : list string) : string :=
  match l with
  | [] => ""
  | [x] => x
  | x :: l' => x +:+ sep +:+ join sep l'
  end.

(** A list of strings as an f-string prints it, ['a', 'b'], for strings
    that hold no quote and no backslash (the feature names). *)
Definition repr_list (l : list string) : string :=
  "[" +:+ join ", " (map (fun s => "'" +:+ s +:+ "'") l) +:+ "]".

(** ** Feature catalog *)

Definition T3_IMPORTANT_FEATURES : list string :=
  [ "LOS"; "BMI_Current"; "WOMACP_5"; "WeightCurrent"; "ICOAPC_3";
    "ICOAPC_1"; "AgePreOp"; "WOMACP_3"; "WalkPain"; "MobilityAidWalker";
    "Pre-Op Pain"; "HeightCurrent"; "ResultsRelief" ].

Definition T5_IMPORTANT_FEATURES : list string :=
  [ "AgePreOp"; "BMI_Current"; "WeightCurrent"; "HeightCurrent"; "LOS";
    "WOMACP_5"; "ResultsRelief"; "ICOAPC_3"; "Pre-Op Pain"; "WalkPain";
    "Approach"; "HeadSize" ].

Definition MODELS_DIR : string := "streamlit_models".

Definition starts_with_slash (s : string) : bool :=
  match s with
  | String c _ => Ascii.eqb c "/"
  | EmptyString => false
  end.

Fixpoint ends_with_slash (s : string) : bool :=
  match s with
  | EmptyString => false
  | String c EmptyString => Ascii.eqb c "/"
  | String _ s' => ends_with_slash s'
  end.

(** [os.path.join] of two components (POSIX): a second component that
    starts with a slash replaces the first; otherwise the two are joined by
    one slash, which is left out after an empty first component or one that
    ends with a slash. *)
Definition os_path_join (dir name : string) : string :=
  if starts_with_slash name then name
  else if String.eqb dir "" || ends_with_slash dir then dir +:+ name
  else dir +:+ "/" +:+ name.

(** [key in patient_data] *)
Definition dict_contains (patient_data : gmap string value) (key : string) : bool :=
  match patient_data !! key with
  | Some _ => true
  | None => false
  end.

(** ** Trained artifacts *)

(** What [joblib.load] returns is opaque: the program only calls
    [preprocessor.transform] on the one-row data frame, whose columns are
    used by name, and [model.predict(...)[0]] on the result.  Either call
    may raise. *)
Record artifact : Type := {
  transform : gmap string value -> result (list spec_float);
  predict : list spec_float -> result spec_float
}.

(** [np.clip(x, lo, hi)] on a float64 scalar with integer bounds, as NumPy
    documents and computes it: a NaN is returned as it is, a value below
    [lo] becomes [lo], a value above [hi] becomes [hi]. *)
Definition np_clip (x : spec_float) (lo hi : Z) : spec_float :=
  if B64.is_nan x then x
  else
    let m := if num_gt (PyFloat x) (PyInt lo) then x else B64.of_Z lo in
    if num_lt (PyFloat m) (PyInt hi) then m else B64.of_Z hi.

Definition invalid_timepoint : exn := ValueError "Timepoint must be 'T3' or 'T5'".

Definition missing_features_error (missing_features : list string) : exn :=
  ValueError ("Missing required features: " +:+ repr_list missing_features).

Definition artifacts_missing : exn :=
  FileNotFoundError
    ("Pre-trained models not found in '" +:+ MODELS_DIR +:+ "' directory. " +:+
     "Please run 'train_models_compatible.py' first to create the models.").

Definition required_features_for (timepoint : string) : list string :=
  if String.eqb timepoint "T3" then T3_IMPORTANT_FEATURES else T5_IMPORTANT_FEATURES.

(** The four files [check_models_exist] looks for. *)
Definition model_files : list string :=
  [ os_path_join MODELS_DIR "t3_model.joblib";
    os_path_join MODELS_DIR "t3_preprocessor.joblib";
    os_path_join MODELS_DIR "t5_model.joblib";
    os_path_join MODELS_DIR "t5_preprocessor.joblib" ].

(** The file system and the library calls the program depends on:
    [os.path.exists], [joblib.load], and [str] of a data-frame cell as
    [astype(str)] computes it. *)
Record environment : Type := {
  os_path_exists : string -> bool;
  joblib_load : string -> result artifact;
  str_of_value : value -> string
}.

(** ** The page *)

(** What the page shows, in order. *)
Inductive st_event : Type :=
  | st_warning (msg : string)
  | st_info (msg : string)
  | st_error (msg : string)
  | st_result (prediction : number) (interpretation color : string).

Definition demo_notice : st_event :=
  st_info "Using demo mode: predictions are approximate and not based on trained models".

Definition fallback_warning (e : exn) : st_event :=
  st_warning ("Error using trained model: " +:+ str_exn e +:+ ". Falling back to demo mode.").

(** The two options of the sidebar radio button. *)
Inductive radio : Type := T3_3_years | T5_5_years.

Definition radio_label (r : radio) : string :=
  match r with
  | T3_3_years => "T3 (3 years)"
  | T5_5_years => "T5 (5 years)"
  end.

(** The loop over the input widgets: [widget f] is the value the widget of
    feature [f] returns. *)
Definition collect (widget : string -> value) (required_features : list string)
    : gmap string value :=
  foldl (fun patient_data feature => <[feature := widget feature]> patient_data)
        ∅ required_features.

(** The score bands of the result panel. *)
Definition interpret (prediction : number) : string * string :=
  if num_le prediction (PyInt 2) then ("minimal", "green")
  else if num_le prediction (PyInt 4) then ("mild", "blue")
  else if num_le prediction (PyInt 6) then ("moderate", "orange")
  else ("severe", "red").

Section Environment.

Variable env : environment.

Definition load_models (timepoint : string) : result (artifact * artifact) :=
  let model_path := os_path_join MODELS_DIR (lower timepoint +:+ "_model.joblib") in
  let preprocessor_path :=
    os_path_join MODELS_DIR (lower timepoint +:+ "_preprocessor.joblib") in
  if negb (os_path_exists env model_path && os_path_exists env preprocessor_path) then
    Raise artifacts_missing
  else
    let! model := joblib_load env model_path in
    let! preprocessor := joblib_load env preprocessor_path in
    Ok (model, preprocessor).

Definition predict_with_model (patient_data : gmap string value)
    (timepoint : string) : result number :=
  let timepoint := upper timepoint in
  if negb (str_in timepoint ["T3"; "T5"]) then Raise invalid_timepoint
  else
    let! (model, preprocessor) := load_models timepoint in
    let required_features := required_features_for timepoint in
    let missing_features :=
      List.filter (fun f => negb (dict_contains patient_data f)) required_features in
    if negb (Nat.eqb (length missing_features) 0) then
      Raise (missing_features_error missing_features)
    else
      let patient_df :=
        match patient_data !! "HeadSize" with
        | Some v => <["HeadSize" := Str (str_of_value env v)]> patient_data
        | None => patient_data
        end in
      let! patient_processed := transform preprocessor patient_df in
      let! prediction := predict model patient_processed in
      Ok (PyFloat (np_clip prediction 0 8)).

Definition check_models_exist : bool := forallb (os_path_exists env) model_files.

(** The start of [main]: is the page in demo mode, and which warning does
    it show. *)
Definition startup : bool * list st_event :=
  if negb (os_path_exists env MODELS_DIR) then
    (true,
     [st_warning ("Models directory '" +:+ MODELS_DIR +:+ "' not found. Using demo mode.")])
  else
    let use_demo_mode := negb check_models_exist in
    (use_demo_mode,
     if use_demo_mode then [st_warning "Pre-trained models not found. Using demo mode."]
     else []).

Definition use_demo_mode : bool := fst startup.

(** The choice of a predictor inside the [try] of the button handler: the
    events shown so far and the prediction, or the exception that reaches
    the outer handler. *)
Definition choose_prediction (use_demo_mode : bool)
    (patient_data : gmap string value) (timepoint_code : string)
    : list st_event * result number :=
  if use_demo_mode then
    match predict_in_demo_mode patient_data timepoint_code with
    | Ok prediction => ([demo_notice], Ok prediction)
    | Raise e => ([], Raise e)
    end
  else
    match predict_with_model patient_data timepoint_code with
    | Ok prediction => ([], Ok prediction)
    | Raise e =>
        match predict_in_demo_mode patient_data timepoint_code with
        | Ok prediction => ([fallback_warning e; demo_notice], Ok prediction)
        | Raise e' => ([fallback_warning e], Raise e')
        end
    end.

(** The button handler: the gauge and the label, or the error box.  The
    drawing of the gauge itself is left out. *)
Definition on_predict (use_demo_mode : bool) (patient_data : gmap string value)
    (timepoint_code : string) : list st_event :=
  let (shown, outcome) := choose_prediction use_demo_mode patient_data timepoint_code in
  match outcome with
  | Ok prediction =>
      let (interpretation, color) := interpret prediction in
      shown ++ [st_result prediction interpretation color]
  | Raise e => shown ++ [st_error ("Error making prediction: " +:+ str_exn e)]
  end.

Definition main (selected : radio) (widget : string -> value) (button : bool)
    : list st_event :=
  let (use_demo_mode, warnings) := startup in
  let timepoint := radio_label selected in
  let timepoint_code := first_word timepoint in
  let required_features :=
    if String.eqb timepoint_code "T3" then T3_IMPORTANT_FEATURES
    else T5_IMPORTANT_FEATURES in
  let patient_data := collect widget required_features in
  if button then warnings ++ on_predict use_demo_mode patient_data timepoint_code
  else warnings.

End Environment.

(** ** Observations on the page *)

(** The score the page shows, if any. *)
Fixpoint shown_score (events : list st_event) : option number :=
  match events with
  | [] => None
  | st_result prediction _ _ :: _ => Some prediction
  | _ :: rest => shown_score rest
  end.

Definition is_demo_notice (ev : st_event) : bool :=
  match ev, demo_notice with
  | st_info msg, st_info msg' => String.eqb msg msg'
  | _, _ => false
  end.

(** Is the result flagged as a demo-mode estimate? *)
Definition flagged_demo (events : list st_event) : bool := existsb is_demo_notice events.

Definition score_of (r : result number) : option number :=
  match r with
  | Ok prediction => Some prediction
  | Raise _ => None
  end.

(** A score lies in the closed interval from 0 to 8. *)
Definition in_0_8 (score : number) : bool :=
  num_le (PyInt 0) score && num_le score (PyInt 8).

(** ** Sample inputs *)

Definition plain_str (v : value) : string :=
  match v with
  | Str s => s
  | Num _ => ""
  end.

(** Nothing on disk. *)
Definition empty_disk : environment := {|
  os_path_exists := fun _ => false;
  joblib_load := fun _ => Raise (OtherException "No such file or directory");
  str_of_value := plain_str
|}.

(** A trained pair whose model answers NaN. *)
Definition nan_artifact : artifact := {|
  transform := fun _ => Ok [];
  predict := fun _ => Ok S754_nan
|}.

Definition nan_disk : environment := {|
  os_path_exists := fun _ => true;
  joblib_load := fun _ => Ok nan_artifact;
  str_of_value := plain_str
|}.

(** A trained pair whose model answers 3.0. *)
Definition constant_artifact : artifact := {|
  transform := fun _ => Ok [B64.of_Z 3];
  predict := fun _ => Ok (B64.of_Z 3)
|}.

(** The directory holds the T3 pair only. *)
Definition t3_only_disk : environment := {|
  os_path_exists := fun p =>
    str_in p [ MODELS_DIR; os_path_join MODELS_DIR "t3_model.joblib";
               os_path_join MODELS_DIR "t3_preprocessor.joblib" ];
  joblib_load := fun _ => Ok constant_artifact;
  str_of_value := plain_str
|}.

(** All four files are there, and loading them fails. *)
Definition corrupt_disk : environment := {|
  os_path_exists := fun _ => true;
  joblib_load := fun _ => Raise (OtherException "invalid load key");
  str_of_value := plain_str
|}.

Definition full_disk : environment := {|
  os_path_exists := fun _ => true;
  joblib_load := fun _ => Ok constant_artifact;
  str_of_value := plain_str
|}.

(** Every widget left at zero. *)
Definition zero_form (feature : string) : value := Num (PyInt 0).

(** The record of the worked examples. *)
Definition example_record : gmap string value :=
  <["BMI_Current" := Num (PyInt 25)]> (<["AgePreOp" := Num (PyInt 65)]>
  (<["Pre-Op Pain" := Num (PyInt 5)]> (<["WalkPain" := Num (PyInt 5)]> ∅))).

Definition missing_in (patient_data : gmap string value) (timepoint : string)
    : list string :=
  List.filter (fun f => negb (dict_contains patient_data f))
              (required_features_for (upper timepoint)).

(** The record with the documented defaults written in for absent keys. *)
Definition fill_default (key : string) (dflt : value)
    (patient_data : gmap string value) : gmap string value :=
  match patient_data !! key with
  | Some _ => patient_data
  | None => <[key := dflt]> patient_data
  end.

Definition with_defaults (patient_data : gmap string value) : gmap string value :=
  fill_default "BMI_Current" (PyInt 25)
    (fill_default "AgePreOp" (PyInt 65)
       (fill_default "Pre-Op Pain" (PyInt 5)
          (fill_default "WalkPain" (PyInt 5) patient_data))).

(** A value a float can be multiplied with: a float, or an int that
    converts to a finite float. *)
Definition numeric (v : value) : bool :=
  match v with
  | Num n => match float_of_number n with Ok _ => true | Raise _ => false end
  | Str _ => false
  end.

Definition returns {A : Type} (r : result A) : bool :=
  match r with Ok _ => true | Raise _ => false end.

(** ** Rounding, seen on integers

    The definitions below restate what [SpecFloat] computes in terms of
    integer division, so that the order of the results can be studied.  The
    value of a number is counted in units of 2^-2148, which makes the value
    of every binary64 number and of every exact product of two of them an
    integer. *)

(** The record [shr] reaches after shifting the exact integer [M] right by
    [k] bits: quotient, round bit and sticky bit. *)
Definition shr_of (M k : Z) : shr_record :=
  let rem := M mod 2 ^ k in
  {| shr_m := M / 2 ^ k;
     shr_r := 2 ^ k <=? 2 * rem;
     shr_s := negb (rem =? 0) && negb (2 * rem =? 2 ^ k) |}.

(** [M / 2^k] rounded to the nearest integer, ties to even. *)
Definition rne_int (M k : Z) : Z :=
  let q := M / 2 ^ k in
  let rem := M mod 2 ^ k in
  if (2 ^ k <? 2 * rem) || ((2 * rem =? 2 ^ k) && Z.odd q) then q + 1 else q.

(** The exponent of the last place of a binary64 number of magnitude [e]. *)
Definition fexp64 (e : Z) : Z := Z.max (e - 53) (-1074).

(** [2^52] and [2^53] *)
Definition two52 : Z := 4503599627370496.

Definition two53 : Z := 9007199254740992.

(** Mantissa and exponent after the carry of a rounding up to [2^53]. *)
Definition normalize (q E : Z) : Z * Z :=
  if q =? two53 then (two52, E + 1) else (q, E).

(** The number with sign [s], mantissa [fst r] and exponent [snd r]:
    zero, finite, or infinite on overflow. *)
Definition mk_float (s : bool) (r : Z * Z) : spec_float :=
  match fst r with
  | 0 => S754_zero s
  | Z.pos p => if snd r <=? 971 then S754_finite s p (snd r) else S754_infinity s
  | Z.neg _ => S754_nan
  end.

(** Values are counted in units of [2^-bias]. *)
Definition bias : Z := 2148.

(** Mantissa and exponent of the binary64 number nearest to the positive
    value [V]. *)
Definition round_big (V : Z) : Z * Z :=
  let E := fexp64 (Z.log2 V + 1 - bias) in
  normalize (rne_int V (E + bias)) E.

(** The value given to the infinities: [2^1024], above every finite number. *)
Definition INF : Z := 2 ^ (1024 + bias).

Definition signed (s : bool) (m : Z) : Z := if s then - m else m.

(** The value of a number; a NaN is given 0 and is excluded where it
    matters. *)
Definition zval (f : spec_float) : Z :=
  match f with
  | S754_zero _ | S754_nan => 0
  | S754_infinity s => signed s INF
  | S754_finite s m e => signed s (Z.pos m * 2 ^ (e + bias))
  end.

(** [B64.valid], with the parameters written out. *)
Definition valid64 (f : spec_float) : bool := valid_binary 53 1024 f.

(** The binary64 number nearest to the value [V]. *)
Definition round_signed (V : Z) : spec_float :=
  if V =? 0 then S754_zero false
  else if 0 <? V then mk_float false (round_big V)
  else mk_float true (round_big (- V)).

(** The value of a mantissa and exponent. *)
Definition big_value (r : Z * Z) : Z := fst r * 2 ^ (snd r + bias).

(** Zero or finite. *)
Definition finite64 (f : spec_float) : bool :=
  match f with
  | S754_zero _ | S754_finite _ _ _ => true
  | _ => false
  end.

(** The value of a number, in the same units. *)
Definition nval (n : number) : Z :=
  match n with
  | PyInt z => z * 2 ^ bias
  | PyFloat f => zval f
  end.

(** A float held by a Python object is a binary64 number. *)
Definition valid_number (n : number) : bool :=
  match n with
  | PyInt _ => true
  | PyFloat f => B64.valid f
  end.

Definition valid_value (v : value) : bool :=
  match v with
  | Num n => valid_number n
  | Str _ => true
  end.

(** A number whose comparisons and value agree: an integer strictly between
    the infinities, or a valid float that is not NaN. *)
Definition ordered_number (n : number) : Prop :=
  match n with
  | PyInt z => - INF < z * 2 ^ bias < INF
  | PyFloat f => valid64 f = true /\ f <> S754_nan
  end.

(** The value a record holds under a key, if any, is a valid one. *)
Definition valid_at (patient_data : gmap string value) (key : string) : bool :=
  match patient_data !! key with
  | Some v => valid_value v
  | None => true
  end.

(** ** The input form *)

(** An integer from [lo] to [hi], as a slider with step 1 returns it. *)
Definition int_between (lo hi : Z) (v : value) : bool :=
  match v with
  | Num (PyInt z) => (lo <=? z) && (z <=? hi)
  | _ => false
  end.

(** One of the options of a select box of strings. *)
Definition one_of (options : list string) (v : value) : bool :=
  match v with
  | Str s => str_in s options
  | _ => false
  end.

(** The values the widget that [main] creates for a feature can return:
    the options of a select box, the integers of a slider, and a finite
    float for [st.number_input] with a float initial value. *)
Definition widget_returns (feature : string) (v : value) : bool :=
  if String.eqb feature "MobilityAidWalker" then int_between 0 1 v
  else if String.eqb feature "Approach" then
    one_of ["Posterior"; "Anterior"; "Lateral"; "Other"] v
  else if str_in feature ["WOMACP_5"; "WOMACP_3"; "ICOAPC_3"; "ICOAPC_1"] then
    int_between 0 4 v
  else if String.eqb feature "ResultsRelief" then int_between 1 5 v
  else if String.eqb feature "WalkPain" || String.eqb feature "Pre-Op Pain" then
    int_between 0 10 v
  else if String.eqb feature "HeadSize" then
    one_of ["28"; "32"; "36"; "40"; "Other"] v
  else
    match v with
    | Num (PyFloat f) => B64.valid f && finite64 f
    | _ => false
    end.

(** The data frame [predict_with_model] hands to the preprocessor: the
    record with its [HeadSize], if any, turned into a string. *)
Definition head_size_as_str (env : environment) (patient_data : gmap string value)
    : gmap string value :=
  match patient_data !! "HeadSize" with
  | Some v => <["HeadSize" := Str (str_of_value env v)]> patient_data
  | None => patient_data
  end.

(** The keys [predict_in_demo_mode] reads for a timepoint. *)
Definition demo_features (timepoint : string) : list string :=
  if String.eqb timepoint "T3" then ["BMI_Current"; "AgePreOp"; "Pre-Op Pain"; "WalkPain"]
  else ["BMI_Current"; "AgePreOp"; "Pre-Op Pain"; "Approach"].

(** Does the page show the error box? *)
Definition shows_error (events : list st_event) : bool :=
  existsb (fun ev => match ev with st_error _ => true | _ => false end) events.

(** The rank of an interpretation label, from mildest to worst. *)
Definition severity (interpretation : string) : nat :=
  if String.eqb interpretation "minimal" then 0
  else if String.eqb interpretation "mild" then 1
  else if String.eqb interpretation "moderate" then 2
  else 3.

(** [a] is at most [b], where a NaN and the positive infinity both count
    as the top: the final clamp sends each of them to 8. *)
Definition le_top (a b : spec_float) : Prop :=
  match b with
  | S754_nan | S754_infinity false => True
  | _ => a <> S754_nan /\ zval a <= zval b
  end.

(** The exceptions of float arithmetic. *)
Definition arithmetic_error (e : exn) : bool :=
  match e with
  | TypeError _ | OverflowError _ => true
  | _ => false
  end.

(** The values the widgets hold when the page opens: the first option of
    a select box, the lower end of a slider, the initial value of a number
    input. *)
Definition initial_form (feature : string) : value :=
  if String.eqb feature "MobilityAidWalker" then Num (PyInt 0)
  else if String.eqb feature "Approach" then Str "Posterior"
  else if str_in feature ["WOMACP_5"; "WOMACP_3"; "ICOAPC_3"; "ICOAPC_1"] then Num (PyInt 0)
  else if String.eqb feature "ResultsRelief" then Num (PyInt 1)
  else if String.eqb feature "WalkPain" || String.eqb feature "Pre-Op Pain" then
    Num (PyInt 0)
  else if String.eqb feature "HeadSize" then Str "28"
  else Num (PyFloat (S754_zero false)).

(** * Properties *)

(** ** Comparing a number with integers *)

Lemma compare_Z_gt (f : spec_float) (a b : Z) :
  B64.compare_Z f a = Some Gt -> b <= a -> B64.compare_Z f b = Some Gt.
Proof.
  destruct f as [s | s | | s m e]; unfold B64.compare_Z; try discriminate.
  - intros H Hb. f_equal. injection H as H. change ((0 ?= a) = Gt) in H.
    change ((0 ?= b) = Gt). rewrite Z.compare_gt_iff in H |- *. lia.
  - destruct s; congruence.
  - intros H Hb. f_equal. injection H as H.
    destruct (e <? 0) eqn:He; rewrite Z.compare_gt_iff in H |- *.
    + apply Z.ltb_lt in He.
      apply Z.le_lt_trans with (2 := H).
      apply Z.mul_le_mono_nonneg_r; [apply Z.pow_nonneg |]; lia.
    + lia.
Qed.

Lemma compare_Z_eq (f : spec_float) (a b : Z) :
  B64.compare_Z f a = Some Eq -> B64.compare_Z f b = Some (a ?= b).
Proof.
  destruct f as [s | s | | s m e]; unfold B64.compare_Z; try discriminate.
  - intros H. f_equal. injection H as H. change ((0 ?= a) = Eq) in H.
    change ((0 ?= b) = (a ?= b)). rewrite Z.compare_eq_iff in H. now subst.
  - destruct s; congruence.
  - intros H. f_equal. injection H as H.
    destruct (e <? 0) eqn:He; rewrite Z.compare_eq_iff in H; rewrite H.
    + apply Z.ltb_lt in He. symmetry. apply Zmult_compare_compat_r.
      apply Z.lt_gt, Z.pow_pos_nonneg; lia.
    + reflexivity.
Qed.

Lemma num_compare_int_gt (s : number) (a b : Z) :
  num_compare s (PyInt a) = Some Gt -> b <= a -> num_compare s (PyInt b) = Some Gt.
Proof.
  destruct s as [z | f]; unfold num_compare.
  - intros H Hb. f_equal. injection H as H. rewrite Z.compare_gt_iff in H |- *. lia.
  - apply compare_Z_gt.
Qed.

Lemma num_compare_int_eq (s : number) (a b : Z) :
  num_compare s (PyInt a) = Some Eq -> num_compare s (PyInt b) = Some (a ?= b).
Proof.
  destruct s as [z | f]; unfold num_compare.
  - intros H. f_equal. injection H as H. rewrite Z.compare_eq_iff in H. now subst.
  - apply compare_Z_eq.
Qed.

Lemma num_gt_not_le (s : number) (a b : Z) :
  num_gt s (PyInt a) = true -> b <= a -> num_le s (PyInt b) = false.
Proof.
  unfold num_gt, num_le. intros H Hb.
  destruct (num_compare s (PyInt a)) as [[]|] eqn:E; try discriminate.
  now rewrite (num_compare_int_gt _ _ _ E Hb).
Qed.

(** ** The literals *)

(** Each constant of the formulas is the double its decimal literal denotes. *)
Lemma literals_denote :
  denotes lit_2_0 2 1 = true /\ denotes lit_1_5 15 10 = true /\
  denotes lit_0_5 5 10 = true /\ denotes lit_0_2 2 10 = true /\
  denotes lit_0_1 1 10 = true /\ denotes lit_0_15 15 100 = true /\
  denotes lit_0_01 1 100 = true /\ denotes lit_0_008 8 1000 = true /\
  denotes lit_0_005 5 1000 = true /\
  denotes (B64.literal 34 10) 34 10 = true /\
  denotes (B64.literal 2275 1000) 2275 1000 = true.
Proof. vm_compute. repeat split. Qed.

(** ** The clamps *)

Lemma clamp_0_8_cases (p : spec_float) :
  clamp_0_8 p = PyInt 0 \/ clamp_0_8 p = PyInt 8 \/
  (clamp_0_8 p = PyFloat p /\
   B64.compare_Z p 0 = Some Gt /\ B64.compare_Z p 8 = Some Lt).
Proof.
  unfold clamp_0_8, py_max, py_min, num_gt, num_lt. simpl.
  destruct (B64.compare_Z p 8) as [[]|] eqn:E8; simpl; auto.
  destruct (B64.compare_Z p 0) as [[]|] eqn:E0; simpl; auto.
Qed.

Lemma clamp_0_8_in_range (p : spec_float) : in_0_8 (clamp_0_8 p) = true.
Proof.
  destruct (clamp_0_8_cases p) as [-> | [-> | (-> & H0 & H8)]]; try reflexivity.
  unfold in_0_8, num_le. simpl. now rewrite H0, H8.
Qed.

Lemma np_clip_nan (x : spec_float) : B64.is_nan (np_clip x 0 8) = B64.is_nan x.
Proof.
  unfold np_clip. destruct (B64.is_nan x) eqn:E; [exact E |].
  unfold num_gt, num_lt. simpl.
  destruct (B64.compare_Z x 0) as [[]|]; simpl; try reflexivity;
    destruct (B64.compare_Z x 8) as [[]|]; simpl; try reflexivity; exact E.
Qed.

Lemma np_clip_in_range (x : spec_float) :
  B64.is_nan x = false -> in_0_8 (PyFloat (np_clip x 0 8)) = true.
Proof.
  intros Hx. unfold np_clip. rewrite Hx. unfold num_gt, num_lt, in_0_8, num_le. simpl.
  destruct (B64.compare_Z x 0) as [[]|] eqn:E0; simpl; try reflexivity.
  destruct (B64.compare_Z x 8) as [[]|] eqn:E8; simpl; try reflexivity;
    rewrite ?E0, ?E8; simpl; try reflexivity.
Qed.

(** ** Timepoint strings *)

Lemma ascii_upper_idem (c : ascii) : ascii_upper (ascii_upper c) = ascii_upper c.
Proof. destruct c as [[] [] [] [] [] [] [] []]; reflexivity. Qed.

Lemma upper_idem (s : string) : upper (upper s) = upper s.
Proof. induction s as [| c s IH]; simpl; [reflexivity |]. now rewrite ascii_upper_idem, IH. Qed.

Lemma ascii_upper_T (c : ascii) :
  ascii_upper c = "T"%char <-> c = "T"%char \/ c = "t"%char.
Proof.
  split.
  - destruct c as [[] [] [] [] [] [] [] []]; vm_compute; intros H;
      try discriminate H; auto.
  - intros [-> | ->]; reflexivity.
Qed.

Lemma ascii_upper_digit (c d : ascii) :
  d = "3"%char \/ d = "5"%char -> ascii_upper c = d <-> c = d.
Proof.
  intros Hd. split.
  - destruct Hd as [-> | ->];
      destruct c as [[] [] [] [] [] [] [] []]; vm_compute; intros H;
      try discriminate H; reflexivity.
  - intros ->. destruct Hd as [-> | ->]; reflexivity.
Qed.

(** The strings [predict_with_model] takes for T3: ["T3"] and ["t3"]. *)
Lemma upper_T3 (s : string) : upper s = "T3" <-> s = "T3" \/ s = "t3".
Proof.
  split.
  - destruct s as [| c [| d [| x s]]]; simpl; try discriminate.
    intros H. injection H as Hc Hd.
    apply ascii_upper_T in Hc. apply (ascii_upper_digit d "3") in Hd; [| now left].
    subst d. destruct Hc as [-> | ->]; auto.
  - intros [-> | ->]; reflexivity.
Qed.

Lemma upper_T5 (s : string) : upper s = "T5" <-> s = "T5" \/ s = "t5".
Proof.
  split.
  - destruct s as [| c [| d [| x s]]]; simpl; try discriminate.
    intros H. injection H as Hc Hd.
    apply ascii_upper_T in Hc. apply (ascii_upper_digit d "5") in Hd; [| now right].
    subst d. destruct Hc as [-> | ->]; auto.
  - intros [-> | ->]; reflexivity.
Qed.

Lemma str_in_T3_T5 (s : string) :
  str_in s ["T3"; "T5"] = true <-> s = "T3" \/ s = "T5".
Proof.
  unfold str_in. simpl. rewrite orb_false_r, orb_true_iff, !String.eqb_eq. tauto.
Qed.

(** ** The shape of [predict_with_model] *)

Lemma predict_with_model_invalid (env : environment)
    (patient_data : gmap string value) (timepoint : string) :
  str_in (upper timepoint) ["T3"; "T5"] = false ->
  predict_with_model env patient_data timepoint = Raise invalid_timepoint.
Proof. intros H. unfold predict_with_model. now rewrite H. Qed.

Lemma predict_with_model_missing (env : environment)
    (patient_data : gmap string value) (timepoint : string)
    (model preprocessor : artifact) :
  str_in (upper timepoint) ["T3"; "T5"] = true ->
  load_models env (upper timepoint) = Ok (model, preprocessor) ->
  missing_in patient_data timepoint <> [] ->
  predict_with_model env patient_data timepoint =
  Raise (missing_features_error (missing_in patient_data timepoint)).
Proof.
  intros Htp Hload Hmiss. unfold predict_with_model. rewrite Htp, Hload. simpl.
  fold (missing_in patient_data timepoint).
  destruct (missing_in patient_data timepoint); [congruence | reflexivity].
Qed.

Lemma predict_with_model_ok (env : environment)
    (patient_data : gmap string value) (timepoint : string) (score : number) :
  predict_with_model env patient_data timepoint = Ok score ->
  exists model preprocessor processed raw,
    load_models env (upper timepoint) = Ok (model, preprocessor) /\
    predict model processed = Ok raw /\
    score = PyFloat (np_clip raw 0 8).
Proof.
  unfold predict_with_model.
  destruct (str_in (upper timepoint) ["T3"; "T5"]); simpl; [| discriminate].
  destruct (load_models env (upper timepoint)) as [[model preprocessor] | e];
    simpl; [| discriminate].
  destruct (length _ =? 0)%nat; simpl; [| discriminate].
  destruct (transform preprocessor _) as [processed | e]; simpl; [| discriminate].
  destruct (predict model processed) as [raw | e] eqn:Hraw; simpl; [| discriminate].
  intros H. injection H as <-. now exists model, preprocessor, processed, raw.
Qed.

Lemma predict_in_demo_mode_clamped (patient_data : gmap string value)
    (timepoint : string) (score : number) :
  predict_in_demo_mode patient_data timepoint = Ok score ->
  exists prediction, score = clamp_0_8 prediction.
Proof.
  unfold predict_in_demo_mode, float_sub.
  destruct (String.eqb timepoint "T3").
  - repeat (destruct (float_mul _ _); simpl; [| discriminate]).
    intros H. injection H as <-. eauto.
  - repeat (destruct (float_mul _ _); simpl; [| discriminate]).
    destruct (float_of_number _); simpl; [| discriminate].
    intros H. injection H as <-. eauto.
Qed.

(** ** Binary64 rounding *)

(** *** Digits and shifts *)
Lemma digits2_pos_bounds (m : positive) :
  2 ^ (Z.pos (digits2_pos m) - 1) <= Z.pos m < 2 ^ Z.pos (digits2_pos m).
Proof.
  induction m as [p IH | p IH |]; simpl digits2_pos.
  - rewrite Pos2Z.inj_succ, Z.pow_succ_r by lia.
    replace (Z.succ (Z.pos (digits2_pos p)) - 1) with (Z.succ (Z.pos (digits2_pos p) - 1)) by lia.
    rewrite Z.pow_succ_r by lia. lia.
  - rewrite Pos2Z.inj_succ, Z.pow_succ_r by lia.
    replace (Z.succ (Z.pos (digits2_pos p)) - 1) with (Z.succ (Z.pos (digits2_pos p) - 1)) by lia.
    rewrite Z.pow_succ_r by lia. lia.
  - simpl. lia.
Qed.

Lemma iter_pos_iter {A : Type} (f : A -> A) (p : positive) (x : A) :
  SpecFloat.iter_pos f p x = Pos.iter f x p.
Proof.
  revert x. induction p as [p IH | p IH |]; intros x; simpl.
  - rewrite !IH. rewrite <- !Pos.iter_swap. reflexivity.
  - now rewrite !IH.
  - reflexivity.
Qed.


Lemma shr_1_nonneg (q : Z) (r s : bool) :
  0 <= q ->
  shr_1 {| shr_m := q; shr_r := r; shr_s := s |} =
  {| shr_m := q / 2; shr_r := Z.odd q; shr_s := r || s |}.
Proof.
  intros Hq. rewrite <- Z.div2_div.
  destruct q as [| [p | p |] | p]; try reflexivity. lia.
Qed.

Lemma shr_of_0 (M : Z) : shr_of M 0 = {| shr_m := M; shr_r := false; shr_s := false |}.
Proof.
  unfold shr_of. change (2 ^ 0) with 1. rewrite Z.mod_1_r, Z.div_1_r. reflexivity.
Qed.

Lemma shr_of_succ (M k : Z) :
  0 <= M -> 0 <= k -> shr_1 (shr_of M k) = shr_of M (k + 1).
Proof.
  intros HM Hk. unfold shr_of.
  assert (0 < 2 ^ k) as HP by (apply Z.pow_pos_nonneg; lia).
  rewrite shr_1_nonneg by (apply Z.div_pos; lia).
  rewrite Z.pow_add_r by lia. change (2 ^ 1) with 2.
  set (P := 2 ^ k) in *.
  pose proof (Z.div_mod M P ltac:(lia)) as HMdm.
  pose proof (Z.mod_pos_bound M P HP) as Hrem.
  set (q := M / P) in *. set (rem := M mod P) in *.
  pose proof (Z.div2_odd q) as Hq. rewrite Z.div2_div in Hq.
  assert (M / (P * 2) = q / 2) as Hdiv.
  { unfold q. rewrite Z.div_div by lia. reflexivity. }
  assert (M mod (P * 2) = Z.b2z (Z.odd q) * P + rem) as Hmod.
  { symmetry. apply Z.mod_unique with (q := q / 2).
    - left. destruct (Z.odd q); simpl; lia.
    - rewrite HMdm. rewrite Hq at 1. ring. }
  rewrite Hdiv, Hmod.
  f_equal.
  - destruct (Z.odd q); simpl Z.b2z.
    + symmetry. apply Z.leb_le. lia.
    + symmetry. apply Z.leb_gt. lia.
  - destruct (Z.odd q); simpl Z.b2z.
    + destruct (Z.leb_spec P (2 * rem)), (Z.eqb_spec rem 0), (Z.eqb_spec (2 * rem) P),
        (Z.eqb_spec (1 * P + rem) 0), (Z.eqb_spec (2 * (1 * P + rem)) (P * 2)); simpl; try reflexivity; lia.
    + destruct (Z.leb_spec P (2 * rem)), (Z.eqb_spec rem 0), (Z.eqb_spec (2 * rem) P),
        (Z.eqb_spec (0 * P + rem) 0), (Z.eqb_spec (2 * (0 * P + rem)) (P * 2)); simpl; try reflexivity; lia.
Qed.

Lemma iter_shr_of (M k : Z) (p : positive) :
  0 <= M -> 0 <= k -> SpecFloat.iter_pos shr_1 p (shr_of M k) = shr_of M (k + Z.pos p).
Proof.
  intros HM Hk. rewrite iter_pos_iter.
  induction p as [| p IH] using Pos.peano_ind.
  - simpl. now apply shr_of_succ.
  - rewrite Pos.iter_succ, IH, shr_of_succ by lia. f_equal. lia.
Qed.

Lemma shr_exact (M e n : Z) :
  0 <= M -> 0 <= n ->
  shr {| shr_m := M; shr_r := false; shr_s := false |} e n = (shr_of M n, e + n).
Proof.
  intros HM Hn. unfold shr. destruct n as [| p | p].
  - rewrite shr_of_0. f_equal. lia.
  - rewrite <- shr_of_0, iter_shr_of by lia. reflexivity.
  - lia.
Qed.

(** *** Rounding to nearest even, on integers *)


Lemma round_shr_of (M k : Z) :
  round_nearest_even (shr_m (shr_of M k)) (loc_of_shr_record (shr_of M k)) = rne_int M k.
Proof.
  unfold shr_of, rne_int, round_nearest_even, loc_of_shr_record.
  cbv zeta. cbn [shr_m].
  set (P := 2 ^ k). set (rem := M mod P). set (q := M / P).
  pose proof (Z.negb_odd q) as Hodd.
  destruct (Z.leb_spec P (2 * rem)), (Z.eqb_spec rem 0), (Z.eqb_spec (2 * rem) P),
    (Z.ltb_spec P (2 * rem)), (Z.odd q), (Z.even q); simpl in *;
    try reflexivity; try discriminate; lia.
Qed.

Lemma rne_int_bounds (M k : Z) :
  0 <= k -> M / 2 ^ k <= rne_int M k <= M / 2 ^ k + 1.
Proof. intros Hk. unfold rne_int. destruct (_ || _); lia. Qed.

Lemma rne_int_scale (M k j : Z) :
  0 <= k -> 0 <= j -> rne_int (M * 2 ^ j) (k + j) = rne_int M k.
Proof.
  intros Hk Hj. unfold rne_int.
  assert (0 < 2 ^ k) by (apply Z.pow_pos_nonneg; lia).
  assert (0 < 2 ^ j) by (apply Z.pow_pos_nonneg; lia).
  rewrite Z.pow_add_r by lia.
  rewrite Z.div_mul_cancel_r by lia.
  rewrite Z.mul_mod_distr_r by lia.
  set (P := 2 ^ k) in *. set (J := 2 ^ j) in *. set (rem := M mod P).
  replace (P * J <? 2 * (rem * J)) with (P <? 2 * rem).
  2:{ destruct (Z.ltb_spec P (2 * rem)), (Z.ltb_spec (P * J) (2 * (rem * J))); try reflexivity; nia. }
  replace (2 * (rem * J) =? P * J) with (2 * rem =? P).
  2:{ destruct (Z.eqb_spec (2 * rem) P), (Z.eqb_spec (2 * (rem * J)) (P * J)); try reflexivity; nia. }
  reflexivity.
Qed.

Lemma rne_int_mono (M N k : Z) :
  0 <= k -> M <= N -> rne_int M k <= rne_int N k.
Proof.
  intros Hk HMN.
  assert (0 < 2 ^ k) as HP by (apply Z.pow_pos_nonneg; lia).
  assert (M / 2 ^ k <= N / 2 ^ k) as Hq by (apply Z.div_le_mono; lia).
  destruct (Z.eq_dec (M / 2 ^ k) (N / 2 ^ k)) as [E | NE].
  - unfold rne_int. rewrite E.
    pose proof (Z.div_mod M (2 ^ k) ltac:(lia)) as HM.
    pose proof (Z.div_mod N (2 ^ k) ltac:(lia)) as HN.
    rewrite E in HM.
    set (P := 2 ^ k) in *. set (q := N / P) in *.
    set (r1 := M mod P) in *. set (r2 := N mod P) in *.
    assert (r1 <= r2) by lia.
    destruct (Z.ltb_spec P (2 * r1)), (Z.ltb_spec P (2 * r2)),
      (Z.eqb_spec (2 * r1) P), (Z.eqb_spec (2 * r2) P), (Z.odd q); simpl; lia.
  - pose proof (rne_int_bounds M k Hk). pose proof (rne_int_bounds N k Hk). lia.
Qed.

(** *** Binary64 *)


Lemma fexp_64 (e : Z) : fexp 53 1024 e = fexp64 e.
Proof. reflexivity. Qed.


Lemma two52_eq : two52 = 2 ^ 52. Proof. reflexivity. Qed.
Lemma two53_eq : two53 = 2 ^ 53. Proof. reflexivity. Qed.



Lemma Zdigits2_le_53 (q : Z) : 0 < q -> q < two53 -> Zdigits2 q <= 53.
Proof.
  intros H0 H. destruct q as [| p | p]; try lia. simpl.
  pose proof (digits2_pos_bounds p) as [Hlo _].
  destruct (Z.le_gt_cases (Z.pos (digits2_pos p)) 53) as [L | G]; [exact L |].
  assert (2 ^ 53 <= 2 ^ (Z.pos (digits2_pos p) - 1)) by (apply Z.pow_le_mono_r; lia).
  rewrite two53_eq in H. lia.
Qed.

Lemma binary_round_aux_exact (s : bool) (m : positive) (e : Z) :
  let E := fexp64 (Z.pos (digits2_pos m) + e) in
  e <= E ->
  binary_round_aux 53 1024 s (Z.pos m) e loc_Exact
  = mk_float s (normalize (rne_int (Z.pos m) (E - e)) E).
Proof.
  intros E HE. unfold binary_round_aux, shr_fexp.
  rewrite fexp_64. cbn [Zdigits2 shr_record_of_loc]. fold E.
  rewrite shr_exact by lia. cbv beta iota.
  replace (e + (E - e)) with E by lia.
  rewrite round_shr_of, fexp_64.
  set (q' := rne_int (Z.pos m) (E - e)).
  assert (-1074 <= E) as HEmin by (unfold E, fexp64; lia).
  assert (0 <= q' <= two53) as Hq'.
  { pose proof (rne_int_bounds (Z.pos m) (E - e) ltac:(lia)) as Hb. fold q' in Hb.
    assert (0 < 2 ^ (E - e)) by (apply Z.pow_pos_nonneg; lia).
    assert (0 <= Z.pos m / 2 ^ (E - e)) by (apply Z.div_pos; lia).
    assert (Z.pos m / 2 ^ (E - e) < two53); [| lia].
    apply Z.div_lt_upper_bound; [lia |].
    pose proof (digits2_pos_bounds m) as [_ Hhi].
    apply Z.lt_le_trans with (1 := Hhi).
    rewrite two53_eq, <- Z.pow_add_r by lia.
    apply Z.pow_le_mono_r; [lia |]. unfold E, fexp64. lia. }
  fold q'. unfold normalize. destruct (Z.eqb_spec q' two53) as [Heq | Hne].
  - rewrite Heq. change (Zdigits2 two53) with 54.
    replace (fexp64 (54 + E) - E) with 1 by (unfold fexp64; lia).
    unfold mk_float. cbn -[Z.leb Z.add]. reflexivity.
  - destruct (Z.eq_dec q' 0) as [H0 | H0].
    + rewrite H0. cbn [Zdigits2].
      assert (fexp64 (0 + E) - E <= 0) as Hn by (unfold fexp64; lia).
      unfold shr. destruct (fexp64 (0 + E) - E); try lia; reflexivity.
    + pose proof (Zdigits2_le_53 q' ltac:(lia) ltac:(lia)) as Hd.
      assert (fexp64 (Zdigits2 q' + E) - E <= 0) as Hn by (unfold fexp64; lia).
      unfold shr. destruct (fexp64 (Zdigits2 q' + E) - E); try lia; reflexivity.
Qed.

(** *** Values as integers: units of 2^-2148 *)



Lemma digits_log2 (m : positive) : Z.pos (digits2_pos m) = Z.log2 (Z.pos m) + 1.
Proof.
  pose proof (digits2_pos_bounds m) as [Hlo Hhi].
  rewrite (Z.log2_unique (Z.pos m) (Z.pos (digits2_pos m) - 1)); [lia | lia |].
  split; [exact Hlo |].
  now replace (Z.succ (Z.pos (digits2_pos m) - 1)) with (Z.pos (digits2_pos m)) by lia.
Qed.

Lemma binary_round_aux_big (s : bool) (m : positive) (e : Z) :
  e <= fexp64 (Z.pos (digits2_pos m) + e) -> - bias <= e ->
  binary_round_aux 53 1024 s (Z.pos m) e loc_Exact
  = mk_float s (round_big (Z.pos m * 2 ^ (e + bias))).
Proof.
  intros He HB. rewrite binary_round_aux_exact by exact He.
  unfold round_big. rewrite Z.log2_mul_pow2 by lia.
  rewrite digits_log2 in *.
  replace (e + bias + Z.log2 (Z.pos m) + 1 - bias) with (Z.log2 (Z.pos m) + 1 + e) by lia.
  set (E := fexp64 (Z.log2 (Z.pos m) + 1 + e)) in *.
  replace (E + bias) with (E - e + (e + bias)) by lia.
  rewrite rne_int_scale by lia. reflexivity.
Qed.

Lemma iter_xO (m d : positive) : Z.pos (Pos.iter xO m d) = Z.pos m * 2 ^ Z.pos d.
Proof.
  induction d as [| d IH] using Pos.peano_ind.
  - simpl. lia.
  - rewrite Pos.iter_succ, Pos2Z.inj_xO, IH, Pos2Z.inj_succ.
    rewrite Z.pow_succ_r by apply Pos2Z.is_nonneg. ring.
Qed.

Lemma shl_align_spec (m : positive) (e e' : Z) :
  snd (shl_align m e e') = Z.min e e' /\
  Z.pos (fst (shl_align m e e')) = Z.pos m * 2 ^ (e - Z.min e e').
Proof.
  unfold shl_align. destruct (e' - e) as [| d | d] eqn:Hd; cbn [fst snd].
  - replace (Z.min e e') with e by lia. rewrite Z.sub_diag. split; lia.
  - replace (Z.min e e') with e by lia. rewrite Z.sub_diag. split; lia.
  - replace (Z.min e e') with e' by lia. split; [reflexivity |].
    rewrite iter_xO. f_equal. f_equal. lia.
Qed.

Lemma binary_round_big (s : bool) (m : positive) (e : Z) :
  - bias <= e ->
  binary_round 53 1024 s m e = mk_float s (round_big (Z.pos m * 2 ^ (e + bias))).
Proof.
  intros HB. unfold binary_round. rewrite fexp_64.
  pose proof (shl_align_spec m e (fexp64 (Z.pos (digits2_pos m) + e))) as [He Hm].
  destruct (shl_align m e (fexp64 (Z.pos (digits2_pos m) + e))) as [mz ez].
  cbn [fst snd] in He, Hm.
  set (E := fexp64 (Z.pos (digits2_pos m) + e)) in *.
  assert (-1074 <= E) by (unfold E, fexp64; lia).
  assert (Z.pos (digits2_pos mz) + ez = Z.pos (digits2_pos m) + e) as Hmag.
  { rewrite !digits_log2, Hm, Z.log2_mul_pow2 by lia. lia. }
  rewrite binary_round_aux_big.
  - f_equal. f_equal. unfold bias in *.
    rewrite Hm, <- Z.mul_assoc, <- Z.pow_add_r by lia.
    f_equal. f_equal. lia.
  - rewrite Hmag. fold E. lia.
  - unfold bias in *. lia.
Qed.

(** The result of [round_big]. *)

Lemma normalize_value (q E : Z) :
  - bias <= E ->
  fst (normalize q E) * 2 ^ (snd (normalize q E) + bias) = q * 2 ^ (E + bias).
Proof.
  intros HE. unfold normalize. destruct (Z.eqb_spec q two53) as [-> |]; cbn [fst snd].
  - replace (E + 1 + bias) with (Z.succ (E + bias)) by lia. rewrite Z.pow_succ_r by lia.
    unfold two52, two53. lia.
  - reflexivity.
Qed.

Section RoundBig.
Variable V : Z.
Hypothesis HV : 0 < V.

Let e := fexp64 (Z.log2 V + 1 - bias).
Let q' := rne_int V (e + bias).

Lemma rb_e_min : -1074 <= e.
Proof. unfold e, fexp64. lia. Qed.

Lemma rb_q_upper : 0 <= q' <= two53.
Proof.
  pose proof rb_e_min.
  assert (0 <= e + bias) by (unfold bias; lia).
  pose proof (rne_int_bounds V (e + bias) ltac:(lia)) as Hb. fold q' in Hb.
  assert (0 < 2 ^ (e + bias)) by (apply Z.pow_pos_nonneg; lia).
  assert (0 <= V / 2 ^ (e + bias)) by (apply Z.div_pos; lia).
  assert (V / 2 ^ (e + bias) < two53); [| lia].
  apply Z.div_lt_upper_bound; [lia |].
  pose proof (Z.log2_spec V HV) as [_ Hhi].
  apply Z.lt_le_trans with (1 := Hhi).
  rewrite two53_eq, <- Z.pow_add_r by lia.
  apply Z.pow_le_mono_r; [lia |]. unfold e, fexp64. lia.
Qed.

Lemma rb_q_lower : -1074 < e -> two52 <= q'.
Proof.
  intros He.
  assert (e = Z.log2 V + 1 - bias - 53) as Heq by (unfold e, fexp64 in *; lia).
  assert (0 <= e + bias) by (unfold bias; lia).
  pose proof (rne_int_bounds V (e + bias) ltac:(lia)) as Hb. fold q' in Hb.
  assert (two52 <= V / 2 ^ (e + bias)); [| lia].
  apply Z.div_le_lower_bound; [apply Z.pow_pos_nonneg; lia |].
  pose proof (Z.log2_spec V HV) as [Hlo _].
  pose proof (Z.log2_nonneg V).
  apply Z.le_trans with (2 := Hlo).
  rewrite two52_eq, <- Z.pow_add_r by lia.
  apply Z.pow_le_mono_r; lia.
Qed.

(** What [round_big] returns: a canonical mantissa and exponent, or 0. *)
Lemma round_big_inv :
  let r := round_big V in
  0 <= fst r < two53 /\ -1074 <= snd r /\
  (fst r = 0 \/ snd r = -1074 \/ two52 <= fst r) /\
  fst r * 2 ^ (snd r + bias) = q' * 2 ^ (e + bias) /\
  e <= snd r <= e + 1.
Proof.
  pose proof rb_e_min. pose proof rb_q_upper as Hu.
  intros r. subst r. unfold round_big. fold e. fold q'.
  rewrite normalize_value by (unfold bias; lia).
  unfold normalize. destruct (Z.eqb_spec q' two53) as [Heq | Hne]; cbn [fst snd].
  - unfold two52, two53. lia.
  - repeat split; try lia.
    destruct (Z.eq_dec e (-1074)); [lia |].
    right. right. apply rb_q_lower. lia.
Qed.
End RoundBig.

Lemma round_big_mono (V1 V2 : Z) :
  0 < V1 -> V1 <= V2 ->
  snd (round_big V1) <= snd (round_big V2) /\
  fst (round_big V1) * 2 ^ (snd (round_big V1) + bias)
  <= fst (round_big V2) * 2 ^ (snd (round_big V2) + bias).
Proof.
  intros H1 H12. assert (0 < V2) as H2 by lia.
  pose proof (round_big_inv V1 H1) as (Ha1 & Hb1 & Hc1 & Hv1 & He1).
  pose proof (round_big_inv V2 H2) as (Ha2 & Hb2 & Hc2 & Hv2 & He2).
  cbv zeta in *. rewrite Hv1, Hv2.
  pose proof (rb_q_upper V1 H1) as Hu1. pose proof (rb_q_upper V2 H2) as Hu2.
  pose proof (rb_e_min V1). pose proof (rb_e_min V2).
  pose proof (Z.log2_le_mono V1 V2 H12) as Hlog.
  set (e1 := fexp64 (Z.log2 V1 + 1 - bias)) in *.
  set (e2 := fexp64 (Z.log2 V2 + 1 - bias)) in *.
  assert (e1 <= e2) as He12 by (unfold e1, e2, fexp64; lia).
  destruct (Z.eq_dec e1 e2) as [Heq | Hne].
  - assert (rne_int V1 (e1 + bias) <= rne_int V2 (e2 + bias)) as Hq.
    { rewrite Heq. apply rne_int_mono; [unfold bias; lia | exact H12]. }
    assert (0 < 2 ^ (e2 + bias)) by (apply Z.pow_pos_nonneg; unfold bias; lia).
    split.
    + unfold round_big, normalize. fold e1 e2.
      destruct (Z.eqb_spec (rne_int V1 (e1 + bias)) two53),
        (Z.eqb_spec (rne_int V2 (e2 + bias)) two53); cbn [snd]; lia.
    + rewrite Heq in Hq |- *. apply Z.mul_le_mono_nonneg_r; lia.
  - assert (e1 + 1 <= e2) as Hlt by lia.
    pose proof (rb_q_lower V2 H2 ltac:(fold e2; lia)) as Hlo2. fold e2 in Hlo2.
    assert (0 < 2 ^ (e1 + bias)) as HP1 by (apply Z.pow_pos_nonneg; unfold bias; lia).
    assert (2 * 2 ^ (e1 + bias) <= 2 ^ (e2 + bias)) as HP.
    { rewrite <- Z.pow_succ_r by (unfold bias; lia). apply Z.pow_le_mono_r; lia. }
    split.
    + unfold round_big at 2, normalize. fold e2.
      destruct (Z.eqb_spec (rne_int V2 (e2 + bias)) two53); cbn [snd]; lia.
    + apply Z.le_trans with (two53 * 2 ^ (e1 + bias)).
      * apply Z.mul_le_mono_nonneg_r; lia.
      * apply Z.le_trans with (two52 * 2 ^ (e2 + bias)).
        -- unfold two52, two53. lia.
        -- apply Z.mul_le_mono_nonneg_r; lia.
Qed.

(** *** The value of a binary64 number *)





Lemma INF_pos : 0 < INF.
Proof. unfold INF. apply Z.pow_pos_nonneg; unfold bias; lia. Qed.

Lemma digits_53 (m : positive) :
  Z.pos (digits2_pos m) = 53 <-> two52 <= Z.pos m < two53.
Proof.
  pose proof (digits2_pos_bounds m) as [Hlo Hhi]. split.
  - intros H. rewrite H in Hlo, Hhi. unfold two52, two53. simpl in Hlo. lia.
  - intros [H1 H2]. rewrite two52_eq in H1. rewrite two53_eq in H2.
    destruct (Z.lt_trichotomy (Z.pos (digits2_pos m)) 53) as [L | [E | G]]; [| exact E |].
    + assert (2 ^ Z.pos (digits2_pos m) <= 2 ^ 52) by (apply Z.pow_le_mono_r; lia). lia.
    + assert (2 ^ 53 <= 2 ^ (Z.pos (digits2_pos m) - 1)) by (apply Z.pow_le_mono_r; lia). lia.
Qed.

(** What validity says about a finite number. *)
Lemma bounded_inv (m : positive) (e : Z) :
  bounded 53 1024 m e = true <->
  -1074 <= e <= 971 /\ Z.pos (digits2_pos m) <= 53 /\
  (e = -1074 \/ Z.pos (digits2_pos m) = 53).
Proof.
  unfold bounded, canonical_mantissa. rewrite fexp_64, andb_true_iff, Z.eqb_eq, Z.leb_le.
  unfold fexp64. change (1024 - 53) with 971. lia.
Qed.

Lemma bounded_value (m : positive) (e : Z) :
  bounded 53 1024 m e = true -> 0 < Z.pos m * 2 ^ (e + bias) < INF.
Proof.
  intros H. apply bounded_inv in H as (He & Hd & _).
  assert (0 < 2 ^ (e + bias)) by (apply Z.pow_pos_nonneg; unfold bias; lia).
  split; [lia |].
  pose proof (digits2_pos_bounds m) as [_ Hhi].
  assert (2 ^ Z.pos (digits2_pos m) <= 2 ^ 53) by (apply Z.pow_le_mono_r; lia).
  apply Z.lt_le_trans with (2 ^ 53 * 2 ^ (e + bias)).
  - apply Z.mul_lt_mono_pos_r; lia.
  - unfold INF. rewrite <- Z.pow_add_r by (unfold bias; lia).
    apply Z.pow_le_mono_r; unfold bias; lia.
Qed.

(** On valid numbers the exponent decides before the mantissa does. *)
Lemma canonical_exponent_lt (m1 m2 : positive) (e1 e2 : Z) :
  bounded 53 1024 m1 e1 = true -> bounded 53 1024 m2 e2 = true ->
  e1 < e2 -> Z.pos m1 * 2 ^ (e1 + bias) < Z.pos m2 * 2 ^ (e2 + bias).
Proof.
  intros H1 H2 Hlt.
  apply bounded_inv in H1 as (He1 & Hd1 & _).
  apply bounded_inv in H2 as (He2 & Hd2 & [Hs | Hn]); [lia |].
  apply digits_53 in Hn as [Hlo _].
  pose proof (digits2_pos_bounds m1) as [_ Hhi].
  assert (2 ^ Z.pos (digits2_pos m1) <= 2 ^ 53) by (apply Z.pow_le_mono_r; lia).
  assert (0 < 2 ^ (e1 + bias)) by (apply Z.pow_pos_nonneg; unfold bias; lia).
  assert (2 * 2 ^ (e1 + bias) <= 2 ^ (e2 + bias)).
  { rewrite <- Z.pow_succ_r by (unfold bias; lia). apply Z.pow_le_mono_r; unfold bias; lia. }
  apply Z.lt_le_trans with (2 ^ 53 * 2 ^ (e1 + bias)).
  - apply Z.mul_lt_mono_pos_r; lia.
  - apply Z.le_trans with (two52 * 2 ^ (e2 + bias)).
    + unfold two52. lia.
    + apply Z.mul_le_mono_nonneg_r; lia.
Qed.

Lemma compare_finite_pos (m1 m2 : positive) (e1 e2 : Z) :
  bounded 53 1024 m1 e1 = true -> bounded 53 1024 m2 e2 = true ->
  match e1 ?= e2 with
  | Lt => Lt
  | Gt => Gt
  | Eq => Pos.compare_cont Eq m1 m2
  end = (Z.pos m1 * 2 ^ (e1 + bias) ?= Z.pos m2 * 2 ^ (e2 + bias)).
Proof.
  intros H1 H2. destruct (Z.compare_spec e1 e2) as [-> | L | G].
  - change (Pos.compare_cont Eq m1 m2) with (Z.pos m1 ?= Z.pos m2).
    apply Zmult_compare_compat_r. apply Z.lt_gt, Z.pow_pos_nonneg; [lia |].
    apply bounded_inv in H2. unfold bias. lia.
  - symmetry. apply Z.compare_lt_iff. now apply canonical_exponent_lt.
  - symmetry. apply Z.compare_gt_iff. now apply canonical_exponent_lt.
Qed.

(** Comparison of valid numbers is comparison of their values. *)
Lemma SFcompare_zval (x y : spec_float) :
  valid64 x = true -> valid64 y = true ->
  x <> S754_nan -> y <> S754_nan ->
  SFcompare x y = Some (zval x ?= zval y).
Proof.
  pose proof INF_pos as HI.
  destruct x as [sx | sx | | sx mx ex], y as [sy | sy | | sy my ey];
    unfold valid64, valid_binary; intros Hx Hy Nx Ny; try congruence;
    try (pose proof (bounded_value _ _ Hx) as Bx);
    try (pose proof (bounded_value _ _ Hy) as By);
    cbn [SFcompare zval]; f_equal; symmetry;
    try destruct sx; try destruct sy; cbn [signed];
    try reflexivity;
    try (apply Z.compare_lt_iff; lia); try (apply Z.compare_gt_iff; lia);
    try (apply Z.compare_eq_iff; lia).
  - rewrite Z.compare_opp, <- (compare_finite_pos _ _ _ _ Hy Hx).
    rewrite (Z.compare_antisym ey ex).
    destruct (ey ?= ex); cbn [CompOpp]; try reflexivity.
    rewrite Pos.compare_cont_antisym. reflexivity.
  - symmetry. now apply compare_finite_pos.
Qed.

(** *** Rounding a signed value *)



Lemma mk_cases (s : bool) (V : Z) :
  0 < V ->
  let r := round_big V in
  (fst r = 0 /\ mk_float s r = S754_zero s) \/
  (exists p, fst r = Z.pos p /\ snd r <= 971 /\ mk_float s r = S754_finite s p (snd r) /\
             bounded 53 1024 p (snd r) = true /\ big_value r < INF) \/
  (971 < snd r /\ mk_float s r = S754_infinity s /\ INF <= big_value r).
Proof.
  intros HV r. pose proof (round_big_inv V HV) as (Ha & Hb & Hc & _ & _).
  fold r in Ha, Hb, Hc. unfold mk_float, big_value.
  destruct (fst r) as [| p | p] eqn:Hq; [left; auto | right | lia].
  assert (Z.pos (digits2_pos p) <= 53) as Hd by (apply (Zdigits2_le_53 (Z.pos p)); lia).
  destruct (Z.leb_spec (snd r) 971) as [L | G]; [left | right].
  - exists p. repeat split; trivial.
    + apply bounded_inv. repeat split; try lia.
      destruct Hc as [Hc | [Hc | Hc]]; [lia | now left |].
      right. apply digits_53. lia.
    + apply Z.lt_le_trans with (two53 * 2 ^ (snd r + bias)).
      * apply Z.mul_lt_mono_pos_r; [apply Z.pow_pos_nonneg; unfold bias; lia | lia].
      * rewrite two53_eq. unfold INF. rewrite <- Z.pow_add_r by (unfold bias; lia).
        apply Z.pow_le_mono_r; unfold bias; lia.
  - repeat split; trivial.
    destruct Hc as [Hc | [Hc | Hc]]; try lia.
    apply Z.le_trans with (two52 * 2 ^ (snd r + bias)).
    + rewrite two52_eq. unfold INF. rewrite <- Z.pow_add_r by (unfold bias; lia).
      apply Z.pow_le_mono_r; unfold bias; lia.
    + apply Z.mul_le_mono_nonneg_r; [apply Z.pow_nonneg |]; lia.
Qed.

Lemma zval_mk (s : bool) (V : Z) :
  0 < V -> zval (mk_float s (round_big V)) = signed s (Z.min (big_value (round_big V)) INF).
Proof.
  intros HV. pose proof INF_pos.
  destruct (mk_cases s V HV) as [(Hq & ->) | [(p & Hq & HE & -> & _ & Hlt) | (HE & -> & Hge)]];
    cbn [zval].
  - unfold big_value. rewrite Hq. cbn [Z.mul]. rewrite Z.min_l by lia. now destruct s.
  - unfold big_value in *. rewrite Hq in *. rewrite Z.min_l by lia. reflexivity.
  - rewrite Z.min_r by lia. reflexivity.
Qed.

Lemma valid_mk (s : bool) (V : Z) :
  0 < V -> valid64 (mk_float s (round_big V)) = true /\ mk_float s (round_big V) <> S754_nan.
Proof.
  intros HV.
  destruct (mk_cases s V HV) as [(Hq & ->) | [(p & Hq & HE & -> & Hb & _) | (HE & -> & _)]];
    split; try reflexivity; try discriminate. exact Hb.
Qed.

Lemma valid_round_signed (V : Z) :
  valid64 (round_signed V) = true /\ round_signed V <> S754_nan.
Proof.
  unfold round_signed. destruct (Z.eqb_spec V 0); [split; [reflexivity | discriminate] |].
  destruct (Z.ltb_spec 0 V); apply valid_mk; lia.
Qed.

Lemma big_value_nonneg (V : Z) : 0 < V -> 0 <= big_value (round_big V).
Proof.
  intros HV. pose proof (round_big_inv V HV) as (Ha & Hb & _).
  unfold big_value. apply Z.mul_nonneg_nonneg; [lia | apply Z.pow_nonneg; lia].
Qed.

Lemma zval_round_signed (V : Z) :
  zval (round_signed V) =
  if V =? 0 then 0
  else if 0 <? V then Z.min (big_value (round_big V)) INF
  else - Z.min (big_value (round_big (- V))) INF.
Proof.
  unfold round_signed. destruct (Z.eqb_spec V 0); [reflexivity |].
  destruct (Z.ltb_spec 0 V); rewrite zval_mk by lia; reflexivity.
Qed.

Lemma zval_round_signed_mono (V1 V2 : Z) :
  V1 <= V2 -> zval (round_signed V1) <= zval (round_signed V2).
Proof.
  intros H. pose proof INF_pos. rewrite !zval_round_signed.
  destruct (Z.eqb_spec V1 0), (Z.eqb_spec V2 0), (Z.ltb_spec 0 V1), (Z.ltb_spec 0 V2);
    try lia;
    try (pose proof (big_value_nonneg V1 ltac:(lia)));
    try (pose proof (big_value_nonneg V2 ltac:(lia)));
    try (pose proof (big_value_nonneg (- V1) ltac:(lia)));
    try (pose proof (big_value_nonneg (- V2) ltac:(lia)));
    try lia.
  - pose proof (round_big_mono V1 V2 ltac:(lia) H) as [_ Hm]. unfold big_value. lia.
  - pose proof (round_big_mono (- V2) (- V1) ltac:(lia) ltac:(lia)) as [_ Hm].
    unfold big_value. lia.
Qed.

Lemma zval_round_signed_range (V : Z) : - INF <= zval (round_signed V) <= INF.
Proof.
  pose proof INF_pos. rewrite zval_round_signed.
  destruct (Z.eqb_spec V 0), (Z.ltb_spec 0 V); try lia;
    try (pose proof (big_value_nonneg V ltac:(lia)));
    try (pose proof (big_value_nonneg (- V) ltac:(lia))); lia.
Qed.

(** A valid number rounds to itself. *)
Lemma binary_round_valid (s : bool) (m : positive) (e : Z) :
  bounded 53 1024 m e = true -> binary_round 53 1024 s m e = S754_finite s m e.
Proof.
  intros Hb. pose proof Hb as Hv. apply bounded_inv in Hb as (He & Hd & Hc).
  assert (fexp64 (Z.pos (digits2_pos m) + e) = e) as Hf by (unfold fexp64; lia).
  unfold binary_round, shl_align. rewrite fexp_64, Hf, Z.sub_diag.
  rewrite binary_round_aux_exact by lia. rewrite Hf, Z.sub_diag.
  assert (rne_int (Z.pos m) 0 = Z.pos m) as ->.
  { unfold rne_int. change (2 ^ 0) with 1. rewrite Z.div_1_r, Z.mod_1_r. reflexivity. }
  assert (Z.pos m < two53) as Hlt.
  { pose proof (digits2_pos_bounds m) as [_ Hhi].
    assert (2 ^ Z.pos (digits2_pos m) <= 2 ^ 53) by (apply Z.pow_le_mono_r; lia).
    rewrite two53_eq. lia. }
  unfold normalize. destruct (Z.eqb_spec (Z.pos m) two53); [lia |].
  unfold mk_float. cbn [fst snd]. destruct (Z.leb_spec e 971); [reflexivity | lia].
Qed.

Lemma round_signed_finite (s : bool) (m : positive) (e : Z) :
  bounded 53 1024 m e = true ->
  round_signed (signed s (Z.pos m * 2 ^ (e + bias))) = S754_finite s m e.
Proof.
  intros Hb. pose proof (bounded_value m e Hb) as Hv.
  pose proof Hb as Hi. apply bounded_inv in Hi as (He & _).
  rewrite <- (binary_round_valid s m e Hb), binary_round_big by (unfold bias; lia).
  unfold round_signed. destruct s; cbn [signed].
  - destruct (Z.eqb_spec (- (Z.pos m * 2 ^ (e + bias))) 0); [lia |].
    destruct (Z.ltb_spec 0 (- (Z.pos m * 2 ^ (e + bias)))); [lia |].
    now rewrite Z.opp_involutive.
  - destruct (Z.eqb_spec (Z.pos m * 2 ^ (e + bias)) 0); [lia |].
    destruct (Z.ltb_spec 0 (Z.pos m * 2 ^ (e + bias))); [reflexivity | lia].
Qed.

Lemma binary_normalize_big (M e : Z) :
  - bias <= e ->
  binary_normalize 53 1024 M e false = round_signed (M * 2 ^ (e + bias)).
Proof.
  intros He. assert (0 < 2 ^ (e + bias)) by (apply Z.pow_pos_nonneg; lia).
  unfold binary_normalize, round_signed. destruct M as [| m | m].
  - reflexivity.
  - rewrite binary_round_big by exact He.
    destruct (Z.eqb_spec (Z.pos m * 2 ^ (e + bias)) 0); [lia |].
    destruct (Z.ltb_spec 0 (Z.pos m * 2 ^ (e + bias))); [reflexivity | lia].
  - rewrite binary_round_big by exact He.
    destruct (Z.eqb_spec (Z.neg m * 2 ^ (e + bias)) 0); [lia |].
    destruct (Z.ltb_spec 0 (Z.neg m * 2 ^ (e + bias))); [lia |].
    do 2 f_equal. lia.
Qed.

(** *** The operations on valid numbers *)


Lemma cond_Zopp_signed (s : bool) (m : Z) : cond_Zopp s m = signed s m.
Proof. reflexivity. Qed.

Lemma signed_mul (s : bool) (m k : Z) : signed s m * k = signed s (m * k).
Proof. destruct s; cbn [signed]; lia. Qed.

Lemma align_value (m : positive) (e ez : Z) :
  ez <= e -> - bias <= ez ->
  Z.pos (fst (shl_align m e ez)) * 2 ^ (ez + bias) = Z.pos m * 2 ^ (e + bias).
Proof.
  intros H1 H2. destruct (shl_align_spec m e ez) as [_ ->].
  rewrite Z.min_r by lia. rewrite <- Z.mul_assoc, <- Z.pow_add_r by lia.
  do 2 f_equal. lia.
Qed.

Lemma zval_finite_range (f : spec_float) :
  valid64 f = true -> finite64 f = true -> - INF < zval f < INF.
Proof.
  pose proof INF_pos. destruct f as [s | s | | s m e]; try discriminate; cbn [zval].
  - lia.
  - intros Hb _. apply bounded_value in Hb. destruct s; cbn [signed]; lia.
Qed.

Lemma valid_exponent (s : bool) (m : positive) (e : Z) :
  valid64 (S754_finite s m e) = true -> -1074 <= e.
Proof. intros Hb. apply bounded_inv in Hb. lia. Qed.

Lemma SFsub_finite (x y : spec_float) :
  valid64 x = true -> valid64 y = true -> finite64 x = true -> finite64 y = true ->
  zval (SFsub 53 1024 x y) = zval (round_signed (zval x - zval y)) /\
  valid64 (SFsub 53 1024 x y) = true /\ SFsub 53 1024 x y <> S754_nan.
Proof.
  destruct x as [sx | sx | | sx mx ex], y as [sy | sy | | sy my ey]; try discriminate;
    intros Vx Vy _ _.
  - destruct sx, sy; (split; [reflexivity | split; [reflexivity | discriminate]]).
  - cbn [SFsub zval]. rewrite Z.sub_0_l.
    replace (- signed sy (Z.pos my * 2 ^ (ey + bias)))
      with (signed (negb sy) (Z.pos my * 2 ^ (ey + bias))) by (destruct sy; cbn; lia).
    rewrite round_signed_finite by exact Vy. split; [reflexivity |].
    split; [exact Vy | discriminate].
  - cbn [SFsub zval]. rewrite Z.sub_0_r.
    rewrite round_signed_finite by exact Vx. split; [reflexivity |].
    split; [exact Vx | discriminate].
  - pose proof (valid_exponent _ _ _ Vx). pose proof (valid_exponent _ _ _ Vy).
    cbn [SFsub zval]. rewrite binary_normalize_big by (unfold bias; lia).
    rewrite !cond_Zopp_signed, Z.mul_sub_distr_r, !signed_mul.
    rewrite !align_value by (unfold bias; lia).
    split; [reflexivity | apply valid_round_signed].
Qed.

Lemma SFadd_finite (x y : spec_float) :
  valid64 x = true -> valid64 y = true -> finite64 x = true -> finite64 y = true ->
  zval (SFadd 53 1024 x y) = zval (round_signed (zval x + zval y)) /\
  valid64 (SFadd 53 1024 x y) = true /\ SFadd 53 1024 x y <> S754_nan.
Proof.
  destruct x as [sx | sx | | sx mx ex], y as [sy | sy | | sy my ey]; try discriminate;
    intros Vx Vy _ _.
  - destruct sx, sy; (split; [reflexivity | split; [reflexivity | discriminate]]).
  - cbn [SFadd zval]. rewrite Z.add_0_l.
    rewrite round_signed_finite by exact Vy. split; [reflexivity |].
    split; [exact Vy | discriminate].
  - cbn [SFadd zval]. rewrite Z.add_0_r.
    rewrite round_signed_finite by exact Vx. split; [reflexivity |].
    split; [exact Vx | discriminate].
  - pose proof (valid_exponent _ _ _ Vx). pose proof (valid_exponent _ _ _ Vy).
    cbn [SFadd zval]. rewrite binary_normalize_big by (unfold bias; lia).
    rewrite !cond_Zopp_signed, Z.mul_add_distr_r, !signed_mul.
    rewrite !align_value by (unfold bias; lia).
    split; [reflexivity | apply valid_round_signed].
Qed.

Lemma digits_mul (mx my : positive) :
  Z.pos (digits2_pos mx) + Z.pos (digits2_pos my) - 1 <= Z.pos (digits2_pos (mx * my)).
Proof.
  pose proof (digits2_pos_bounds mx) as [Hx _].
  pose proof (digits2_pos_bounds my) as [Hy _].
  pose proof (digits2_pos_bounds (mx * my)) as [_ Hxy].
  rewrite Pos2Z.inj_mul in Hxy.
  assert (2 ^ (Z.pos (digits2_pos mx) - 1 + (Z.pos (digits2_pos my) - 1))
          <= Z.pos mx * Z.pos my) as Hp.
  { rewrite Z.pow_add_r by lia. apply Z.mul_le_mono_nonneg; try lia;
      apply Z.pow_nonneg; lia. }
  destruct (Z.le_gt_cases (Z.pos (digits2_pos mx) + Z.pos (digits2_pos my) - 1)
              (Z.pos (digits2_pos (mx * my)))) as [L | G]; [exact L |].
  assert (2 ^ Z.pos (digits2_pos (mx * my))
          <= 2 ^ (Z.pos (digits2_pos mx) - 1 + (Z.pos (digits2_pos my) - 1)))
    by (apply Z.pow_le_mono_r; lia).
  lia.
Qed.

Lemma SFmul_finite (sx sy : bool) (mx my : positive) (ex ey : Z) :
  bounded 53 1024 mx ex = true -> bounded 53 1024 my ey = true ->
  SFmul 53 1024 (S754_finite sx mx ex) (S754_finite sy my ey)
  = mk_float (xorb sx sy) (round_big (Z.pos mx * Z.pos my * 2 ^ (ex + ey + bias))).
Proof.
  intros Hx Hy. apply bounded_inv in Hx as (Hex & Hdx & Hcx).
  apply bounded_inv in Hy as (Hey & Hdy & Hcy).
  pose proof (digits_mul mx my) as Hd.
  cbn [SFmul]. rewrite binary_round_aux_big.
  - now rewrite Pos2Z.inj_mul.
  - unfold fexp64. lia.
  - unfold bias. lia.
Qed.

(** Multiplication by a positive constant. *)
Lemma SFmul_pos (mc : positive) (ec : Z) (w : spec_float) :
  bounded 53 1024 mc ec = true -> valid64 w = true -> finite64 w = true ->
  exists P,
    P * 2 ^ bias = zval w * (Z.pos mc * 2 ^ (ec + bias)) /\
    zval (SFmul 53 1024 (S754_finite false mc ec) w) = zval (round_signed P) /\
    valid64 (SFmul 53 1024 (S754_finite false mc ec) w) = true /\
    SFmul 53 1024 (S754_finite false mc ec) w <> S754_nan.
Proof.
  intros Hc Hw Hf. destruct w as [sw | sw | | sw mw ew]; try discriminate.
  - exists 0. repeat split; discriminate.
  - pose proof Hc as Hic. apply bounded_inv in Hic as (Hec & _).
    pose proof Hw as Hiw. apply bounded_inv in Hiw as (Hew & _).
    assert (0 < Z.pos mc * Z.pos mw * 2 ^ (ec + ew + bias)) as Hpos.
    { apply Z.mul_pos_pos; [lia | apply Z.pow_pos_nonneg; unfold bias; lia]. }
    exists (signed sw (Z.pos mc * Z.pos mw * 2 ^ (ec + ew + bias))).
    rewrite SFmul_finite by assumption. cbn [xorb zval].
    split; [| split; [| apply valid_mk; exact Hpos]].
    + rewrite !signed_mul. f_equal.
      replace (Z.pos mc * Z.pos mw * 2 ^ (ec + ew + bias) * 2 ^ bias)
        with (Z.pos mw * Z.pos mc * (2 ^ (ec + ew + bias) * 2 ^ bias)) by ring.
      replace (Z.pos mw * 2 ^ (ew + bias) * (Z.pos mc * 2 ^ (ec + bias)))
        with (Z.pos mw * Z.pos mc * (2 ^ (ew + bias) * 2 ^ (ec + bias))) by ring.
      f_equal. rewrite <- !Z.pow_add_r by (unfold bias; lia). f_equal. lia.
    + unfold round_signed. destruct sw; cbn [signed].
      * destruct (Z.eqb_spec (- (Z.pos mc * Z.pos mw * 2 ^ (ec + ew + bias))) 0); [lia |].
        destruct (Z.ltb_spec 0 (- (Z.pos mc * Z.pos mw * 2 ^ (ec + ew + bias)))); [lia |].
        now rewrite Z.opp_involutive.
      * destruct (Z.eqb_spec (Z.pos mc * Z.pos mw * 2 ^ (ec + ew + bias)) 0); [lia |].
        destruct (Z.ltb_spec 0 (Z.pos mc * Z.pos mw * 2 ^ (ec + ew + bias))); [reflexivity | lia].
Qed.

(** ** Order of the values *)

Lemma zval_range (f : spec_float) :
  valid64 f = true -> - INF <= zval f <= INF.
Proof.
  pose proof INF_pos. destruct f as [s | s | | s m e]; cbn [zval]; intros Hv; try lia.
  - destruct s; cbn [signed]; lia.
  - apply bounded_value in Hv. destruct s; cbn [signed]; lia.
Qed.

Lemma zval_bottom (f : spec_float) :
  valid64 f = true -> f <> S754_nan -> zval f <= - INF -> f = S754_infinity true.
Proof.
  pose proof INF_pos. destruct f as [s | s | | s m e]; cbn [zval]; intros Hv Hn; try lia.
  - destruct s; cbn [signed]; [reflexivity | lia].
  - apply bounded_value in Hv. destruct s; cbn [signed]; lia.
Qed.

Lemma round_signed_zval (f : spec_float) :
  valid64 f = true -> finite64 f = true -> zval (round_signed (zval f)) = zval f.
Proof.
  destruct f as [s | s | | s m e]; try discriminate; intros Hv _; cbn [zval].
  - reflexivity.
  - now rewrite round_signed_finite.
Qed.

Lemma compare_Z_zval (f : spec_float) (z : Z) :
  valid64 f = true -> finite64 f = true ->
  B64.compare_Z f z = Some (zval f ?= z * 2 ^ bias).
Proof.
  destruct f as [s | s | | s m e]; try discriminate; intros Hv _;
    unfold B64.compare_Z; cbn [zval]; f_equal.
  - change (0 ?= z * 2 ^ bias) with (0 * 2 ^ bias ?= z * 2 ^ bias).
    apply Zmult_compare_compat_r. apply Z.lt_gt, Z.pow_pos_nonneg; unfold bias; lia.
  - pose proof (valid_exponent _ _ _ Hv) as He.
    replace (if s then Z.neg m else Z.pos m) with (signed s (Z.pos m))
      by (destruct s; reflexivity).
    rewrite <- signed_mul. set (sm := signed s (Z.pos m)).
    assert (0 < 2 ^ (e + bias)) by (apply Z.pow_pos_nonneg; unfold bias; lia).
    assert (0 < 2 ^ bias) by (apply Z.pow_pos_nonneg; unfold bias; lia).
    destruct (Z.ltb_spec e 0).
    + rewrite (Zmult_compare_compat_r sm (z * 2 ^ (- e)) (2 ^ (e + bias))) by lia.
      rewrite <- Z.mul_assoc, <- Z.pow_add_r by (unfold bias; lia).
      do 3 f_equal. lia.
    + rewrite (Zmult_compare_compat_r (sm * 2 ^ e) z (2 ^ bias)) by lia.
      rewrite <- Z.mul_assoc, <- Z.pow_add_r by (unfold bias; lia). reflexivity.
Qed.

Lemma compare_Z_nval (f : spec_float) (z : Z) :
  valid64 f = true -> f <> S754_nan -> - INF < z * 2 ^ bias < INF ->
  B64.compare_Z f z = Some (zval f ?= z * 2 ^ bias).
Proof.
  intros Hv Hn Hz. destruct (finite64 f) eqn:Hf; [now apply compare_Z_zval |].
  destruct f as [s | s | | s m e]; try discriminate; [| congruence].
  unfold B64.compare_Z; cbn [zval]. f_equal. symmetry.
  destruct s; cbn [signed]; [apply Z.compare_lt_iff | apply Z.compare_gt_iff]; lia.
Qed.

(** Comparing two ordered numbers is comparing their values. *)
Lemma num_compare_nval (a b : number) :
  ordered_number a -> ordered_number b -> num_compare a b = Some (nval a ?= nval b).
Proof.
  assert (0 < 2 ^ bias) by (apply Z.pow_pos_nonneg; unfold bias; lia).
  destruct a as [x | x], b as [y | y]; cbn [ordered_number num_compare nval].
  - intros _ _. f_equal. apply Zmult_compare_compat_r. lia.
  - intros Hx [Hy Ny]. rewrite compare_Z_nval by assumption. cbn.
    now rewrite <- Z.compare_antisym.
  - intros [Hx Nx] Hy. now apply compare_Z_nval.
  - intros [Hx Nx] [Hy Ny]. now apply SFcompare_zval.
Qed.

Lemma num_le_nval (a b : number) :
  ordered_number a -> ordered_number b -> nval a <= nval b -> num_le a b = true.
Proof.
  intros Ha Hb Hle. unfold num_le. rewrite num_compare_nval by assumption.
  destruct (Z.compare_spec (nval a) (nval b)); try reflexivity. lia.
Qed.

(** ** The clamp is monotone *)

Lemma eight_below_INF : - INF < 0 * 2 ^ bias < INF /\ - INF < 8 * 2 ^ bias < INF.
Proof.
  pose proof INF_pos.
  assert (8 * 2 ^ bias < INF); [| lia].
  unfold INF. change 8 with (2 ^ 3). rewrite <- Z.pow_add_r by (unfold bias; lia).
  apply Z.pow_lt_mono_r; unfold bias; lia.
Qed.

Lemma clamp_0_8_nval (r : spec_float) :
  valid64 r = true -> r <> S754_nan ->
  ordered_number (clamp_0_8 r) /\
  nval (clamp_0_8 r) = Z.max 0 (Z.min (8 * 2 ^ bias) (zval r)).
Proof.
  intros Hv Hn. destruct eight_below_INF as [H0 H8].
  unfold clamp_0_8, py_max, py_min, num_gt, num_lt. cbn [num_compare].
  rewrite (compare_Z_nval r 8) by assumption.
  destruct (Z.compare_spec (zval r) (8 * 2 ^ bias)) as [E | L | G].
  - cbn [num_compare]. change (8 ?= 0) with Gt. cbn [ordered_number nval]. split; lia.
  - cbn [num_compare]. rewrite (compare_Z_nval r 0) by assumption.
    destruct (Z.compare_spec (zval r) (0 * 2 ^ bias)); cbn [ordered_number nval];
      (split; [auto; lia | lia]).
  - cbn [num_compare]. change (8 ?= 0) with Gt. cbn [ordered_number nval]. split; lia.
Qed.

Lemma clamp_0_8_mono (r1 r2 : spec_float) :
  valid64 r1 = true -> r1 <> S754_nan -> valid64 r2 = true -> r2 <> S754_nan ->
  zval r2 <= zval r1 -> num_le (clamp_0_8 r2) (clamp_0_8 r1) = true.
Proof.
  intros V1 N1 V2 N2 Hle.
  destruct (clamp_0_8_nval r1 V1 N1) as [O1 E1].
  destruct (clamp_0_8_nval r2 V2 N2) as [O2 E2].
  apply num_le_nval; trivial. lia.
Qed.

(** ** Conversion and multiplication are monotone *)

Lemma of_Z_round (z : Z) : B64.of_Z z = round_signed (z * 2 ^ bias).
Proof. unfold B64.of_Z. apply (binary_normalize_big z 0). unfold bias. lia. Qed.

Lemma float_of_int_round (z : Z) (f : spec_float) :
  float_of_int z = Ok f -> f = round_signed (z * 2 ^ bias).
Proof.
  unfold float_of_int. rewrite of_Z_round.
  destruct (round_signed (z * 2 ^ bias)); intros H; now inversion H.
Qed.

Lemma float_of_number_valid (n : number) (f : spec_float) :
  valid_number n = true -> float_of_number n = Ok f -> valid64 f = true.
Proof.
  destruct n as [z | g]; cbn [valid_number float_of_number].
  - intros _ H. apply float_of_int_round in H as ->. apply valid_round_signed.
  - intros Hv H. now inversion H; subst.
Qed.

Lemma SFcompare_not_nan (x y : spec_float) (c : comparison) :
  SFcompare x y = Some c -> x <> S754_nan /\ y <> S754_nan.
Proof. destruct x, y; cbn; intros H; split; congruence. Qed.

(** Converting the operand of a float operation keeps the order. *)
Lemma float_of_number_mono (w1 w2 : number) (f1 f2 : spec_float) :
  valid_number w1 = true -> valid_number w2 = true ->
  num_le w1 w2 = true ->
  float_of_number w1 = Ok f1 -> float_of_number w2 = Ok f2 ->
  zval f1 <= zval f2 /\ f1 <> S754_nan /\ f2 <> S754_nan.
Proof.
  unfold num_le.
  destruct w1 as [z1 | g1], w2 as [z2 | g2];
    cbn [valid_number float_of_number num_compare]; intros V1 V2 Hle H1 H2.
  - apply float_of_int_round in H1 as ->. apply float_of_int_round in H2 as ->.
    split; [| split; apply valid_round_signed].
    apply zval_round_signed_mono. apply Z.mul_le_mono_nonneg_r; [apply Z.pow_nonneg; lia |].
    destruct (Z.compare_spec z1 z2); try discriminate; lia.
  - apply float_of_int_round in H1 as ->. inversion H2; subst g2. clear H2.
    change (B64.valid f2) with (valid64 f2) in V2.
    destruct (B64.compare_Z f2 z1) as [c |] eqn:Hc; [| discriminate].
    assert (f2 <> S754_nan) as N2 by (intros ->; discriminate).
    split; [| split; [apply valid_round_signed | exact N2]].
    destruct (finite64 f2) eqn:Hf.
    + rewrite compare_Z_zval in Hc by assumption. injection Hc as <-.
      rewrite <- (round_signed_zval f2) by assumption.
      apply zval_round_signed_mono.
      destruct (Z.compare_spec (zval f2) (z1 * 2 ^ bias)); cbn in Hle; try discriminate; lia.
    + destruct f2 as [s | s | | s m e]; try discriminate.
      destruct s; [cbn in Hc; injection Hc as <-; discriminate |].
      apply zval_round_signed_range.
  - apply float_of_int_round in H2 as ->. inversion H1; subst g1. clear H1.
    change (B64.valid f1) with (valid64 f1) in V1.
    destruct (B64.compare_Z f1 z2) as [c |] eqn:Hc; [| discriminate].
    assert (f1 <> S754_nan) as N1 by (intros ->; discriminate).
    split; [| split; [exact N1 | apply valid_round_signed]].
    destruct (finite64 f1) eqn:Hf.
    + rewrite compare_Z_zval in Hc by assumption. injection Hc as <-.
      rewrite <- (round_signed_zval f1) by assumption.
      apply zval_round_signed_mono.
      destruct (Z.compare_spec (zval f1) (z2 * 2 ^ bias)); try discriminate; lia.
    + destruct f1 as [s | s | | s m e]; try discriminate.
      destruct s; [| cbn in Hc; injection Hc as <-; discriminate].
      apply zval_round_signed_range.
  - inversion H1; subst g1. inversion H2; subst g2. clear H1 H2.
    change (B64.valid f1) with (valid64 f1) in V1.
    change (B64.valid f2) with (valid64 f2) in V2.
    destruct (SFcompare f1 f2) as [c |] eqn:Hc; [| discriminate].
    destruct (SFcompare_not_nan _ _ _ Hc) as [N1 N2].
    split; [| split; assumption].
    rewrite SFcompare_zval in Hc by assumption. injection Hc as <-.
    destruct (Z.compare_spec (zval f1) (zval f2)); try discriminate; lia.
Qed.

(** What a product with a positive constant is. *)
Lemma SFmul_pos_cases (mc : positive) (ec : Z) (w : spec_float) :
  bounded 53 1024 mc ec = true -> valid64 w = true -> w <> S754_nan ->
  let g := SFmul 53 1024 (S754_finite false mc ec) w in
  valid64 g = true /\ g <> S754_nan /\
  ((exists s, w = S754_infinity s /\ g = S754_infinity s) \/
   (finite64 w = true /\
    exists P, P * 2 ^ bias = zval w * (Z.pos mc * 2 ^ (ec + bias)) /\
              zval g = zval (round_signed P))).
Proof.
  intros Hc Hw Hn g. destruct (finite64 w) eqn:Hf.
  - destruct (SFmul_pos mc ec w Hc Hw Hf) as (P & HP & Hz & Hv & Hnn).
    split; [exact Hv |]. split; [exact Hnn |]. right. split; [reflexivity |]. eauto.
  - destruct w as [s | s | | s m e]; try discriminate; [| congruence].
    subst g. cbn [SFmul xorb]. split; [reflexivity |]. split; [discriminate |].
    left. eauto.
Qed.

Lemma SFmul_pos_mono (mc : positive) (ec : Z) (f1 f2 : spec_float) :
  bounded 53 1024 mc ec = true ->
  valid64 f1 = true -> f1 <> S754_nan -> valid64 f2 = true -> f2 <> S754_nan ->
  zval f1 <= zval f2 ->
  zval (SFmul 53 1024 (S754_finite false mc ec) f1)
  <= zval (SFmul 53 1024 (S754_finite false mc ec) f2).
Proof.
  intros Hc V1 N1 V2 N2 Hle. pose proof INF_pos.
  destruct (SFmul_pos_cases mc ec f1 Hc V1 N1) as (Vg1 & Ng1 & C1).
  destruct (SFmul_pos_cases mc ec f2 Hc V2 N2) as (Vg2 & Ng2 & C2).
  pose proof (zval_range _ Vg1). pose proof (zval_range _ Vg2).
  destruct C1 as [(s1 & -> & ->) | (F1 & P1 & HP1 & ->)];
    destruct C2 as [(s2 & -> & ->) | (F2 & P2 & HP2 & ->)].
  - exact Hle.
  - pose proof (zval_finite_range f2 V2 F2). pose proof (zval_round_signed_range P2).
    cbn [zval] in *. destruct s1; cbn [signed] in *; lia.
  - pose proof (zval_finite_range f1 V1 F1). pose proof (zval_round_signed_range P1).
    cbn [zval] in *. destruct s2; cbn [signed] in *; lia.
  - apply zval_round_signed_mono.
    assert (0 < 2 ^ bias) by (apply Z.pow_pos_nonneg; unfold bias; lia).
    assert (0 < Z.pos mc * 2 ^ (ec + bias)) by (apply (bounded_value mc ec Hc)).
    assert (P1 * 2 ^ bias <= P2 * 2 ^ bias).
    { rewrite HP1, HP2. apply Z.mul_le_mono_nonneg_r; lia. }
    apply Z.mul_le_mono_pos_r with (2 ^ bias); assumption.
Qed.

(** ** Validity is kept by the operations *)

Lemma valid_SFmul (x y : spec_float) :
  valid64 x = true -> valid64 y = true -> valid64 (SFmul 53 1024 x y) = true.
Proof.
  destruct x as [sx | sx | | sx mx ex], y as [sy | sy | | sy my ey]; intros Vx Vy;
    try reflexivity.
  rewrite SFmul_finite by assumption. apply valid_mk.
  apply Z.mul_pos_pos; [lia | apply Z.pow_pos_nonneg; [lia |]].
  apply valid_exponent in Vx, Vy. unfold bias. lia.
Qed.

Lemma valid_SFadd (x y : spec_float) :
  valid64 x = true -> valid64 y = true -> valid64 (SFadd 53 1024 x y) = true.
Proof.
  intros Vx Vy. destruct (finite64 x) eqn:Fx, (finite64 y) eqn:Fy.
  - now apply SFadd_finite.
  - destruct x as [sx | sx | | sx mx ex], y as [sy | sy | | sy my ey]; try discriminate;
      reflexivity.
  - destruct x as [sx | sx | | sx mx ex], y as [sy | sy | | sy my ey]; try discriminate;
      reflexivity.
  - destruct x as [sx | sx | | sx mx ex], y as [sy | sy | | sy my ey]; try discriminate;
      try reflexivity; destruct sx, sy; reflexivity.
Qed.

Lemma valid_float_mul (c : spec_float) (v : value) (f : spec_float) :
  valid64 c = true -> valid_value v = true -> float_mul c v = Ok f -> valid64 f = true.
Proof.
  intros Vc Vv. destruct v as [n | s]; cbn [float_mul valid_value] in *; [| discriminate].
  destruct (float_of_number n) as [g | e] eqn:Hg; cbn; [| discriminate].
  intros H. inversion H; subst f. apply valid_SFmul; [exact Vc |].
  now apply float_of_number_valid with n.
Qed.

(** ** Subtraction, then the clamp *)

Lemma SFsub_from_finite (x y : spec_float) :
  valid64 x = true -> finite64 x = true -> valid64 y = true -> y <> S754_nan ->
  let r := SFsub 53 1024 x y in
  valid64 r = true /\ r <> S754_nan /\
  ((exists s, y = S754_infinity s /\ r = S754_infinity (negb s)) \/
   (finite64 y = true /\ zval r = zval (round_signed (zval x - zval y)))).
Proof.
  intros Vx Fx Vy Ny r. destruct (finite64 y) eqn:Fy.
  - destruct (SFsub_finite x y Vx Vy Fx Fy) as (Hz & Hv & Hn).
    split; [exact Hv |]. split; [exact Hn |]. right. split; [reflexivity | exact Hz].
  - destruct y as [s | s | | s m e]; try discriminate; [| congruence].
    assert (r = S754_infinity (negb s)) as ->
      by (subst r; destruct x; try discriminate; reflexivity).
    split; [reflexivity |]. split; [discriminate |]. left. eauto.
Qed.

(** The clamped difference [max(0, min(8, x - y))] does not increase when
    [y] grows; a NaN difference clamps to 8. *)
Lemma clamp_sub_mono (x y1 y2 : spec_float) :
  valid64 x = true ->
  valid64 y1 = true -> y1 <> S754_nan -> valid64 y2 = true -> y2 <> S754_nan ->
  zval y1 <= zval y2 ->
  num_le (clamp_0_8 (SFsub 53 1024 x y2)) (clamp_0_8 (SFsub 53 1024 x y1)) = true.
Proof.
  intros Vx V1 N1 V2 N2 Hle. pose proof INF_pos as HI.
  destruct (finite64 x) eqn:Fx.
  - destruct (SFsub_from_finite x y1 Vx Fx V1 N1) as (Vr1 & Nr1 & C1).
    destruct (SFsub_from_finite x y2 Vx Fx V2 N2) as (Vr2 & Nr2 & C2).
    apply clamp_0_8_mono; trivial.
    destruct C1 as [(s1 & -> & ->) | (F1 & ->)];
      destruct C2 as [(s2 & -> & ->) | (F2 & ->)].
    + cbn [zval] in *. destruct s1, s2; cbn [signed negb] in *; lia.
    + pose proof (zval_finite_range y2 V2 F2).
      pose proof (zval_round_signed_range (zval x - zval y2)).
      cbn [zval] in *. destruct s1; cbn [signed negb] in *; lia.
    + pose proof (zval_finite_range y1 V1 F1).
      pose proof (zval_round_signed_range (zval x - zval y1)).
      cbn [zval] in *. destruct s2; cbn [signed negb] in *; lia.
    + apply zval_round_signed_mono. lia.
  - destruct x as [sx | sx | | sx mx ex]; try discriminate.
    + destruct sx.
      * destruct y2 as [s2 | [|] | | s2 m2 e2]; try congruence;
          destruct y1 as [s1 | [|] | | s1 m1 e1]; try congruence; try reflexivity;
          apply zval_bottom in Hle; trivial; discriminate.
      * destruct y2 as [s2 | [|] | | s2 m2 e2]; try congruence;
          destruct y1 as [s1 | [|] | | s1 m1 e1]; try congruence; reflexivity.
    + reflexivity.
Qed.

(** ** When the heuristic predictor returns *)

Lemma lookup_fill_default (key key' : string) (dflt : value)
    (patient_data : gmap string value) :
  fill_default key dflt patient_data !! key' =
  if String.eqb key key' then Some (default dflt (patient_data !! key'))
  else patient_data !! key'.
Proof.
  unfold fill_default. destruct (String.eqb_spec key key') as [<- | Hne].
  - destruct (patient_data !! key) eqn:E; [now rewrite E |]. apply lookup_insert_eq.
  - destruct (patient_data !! key); [reflexivity |]. now apply lookup_insert_ne.
Qed.

Lemma dict_get_delete (k key : string) (dflt : value) (patient_data : gmap string value) :
  dict_get (delete k patient_data) key dflt =
  if String.eqb k key then dflt else dict_get patient_data key dflt.
Proof.
  unfold dict_get. destruct (String.eqb_spec k key) as [<- | Hne].
  - now rewrite lookup_delete_eq.
  - now rewrite lookup_delete_ne.
Qed.

Lemma returns_true {A : Type} (r : result A) : returns r = true <-> exists a, r = Ok a.
Proof.
  destruct r; simpl; split; eauto; try discriminate. intros [a [=]].
Qed.

(** When does the heuristic predictor return?  Exactly when the values it
    reads, or their defaults, are numeric. *)
Lemma predict_in_demo_mode_returns (patient_data : gmap string value) (timepoint : string) :
  returns (predict_in_demo_mode patient_data timepoint) =
  numeric (dict_get patient_data "BMI_Current" (PyInt 25)) &&
  numeric (dict_get patient_data "AgePreOp" (PyInt 65)) &&
  numeric (dict_get patient_data "Pre-Op Pain" (PyInt 5)) &&
  (if String.eqb timepoint "T3" then numeric (dict_get patient_data "WalkPain" (PyInt 5))
   else true).
Proof.
  unfold predict_in_demo_mode, float_sub.
  destruct (String.eqb timepoint "T3"); [| destruct (eq_str _ _)];
    destruct (dict_get patient_data "BMI_Current" _) as [n1 | s1];
    destruct (dict_get patient_data "AgePreOp" _) as [n2 | s2];
    destruct (dict_get patient_data "Pre-Op Pain" _) as [n3 | s3];
    try destruct (dict_get patient_data "WalkPain" _) as [n4 | s4];
    simpl;
    repeat match goal with
           | |- context [float_of_number ?n] => destruct (float_of_number n); simpl
           end;
    reflexivity.
Qed.

Lemma numeric_default_get (k key : string) (z : Z) (patient_data : gmap string value) :
  numeric (PyInt z) = true ->
  numeric (dict_get patient_data key (PyInt z)) = true ->
  numeric (dict_get (delete k patient_data) key (PyInt z)) = true.
Proof. intros Hz H. rewrite dict_get_delete. now destruct (String.eqb k key). Qed.

(** The predictor returns when the values present under its four numeric
    keys are numeric. *)
Lemma predict_in_demo_mode_numeric (patient_data : gmap string value)
    (timepoint : string) :
  (forall k v, In k ["BMI_Current"; "AgePreOp"; "Pre-Op Pain"; "WalkPain"] ->
               patient_data !! k = Some v -> numeric v = true) ->
  exists score, predict_in_demo_mode patient_data timepoint = Ok score.
Proof.
  intros H. apply returns_true. rewrite predict_in_demo_mode_returns.
  assert (forall k z, In k ["BMI_Current"; "AgePreOp"; "Pre-Op Pain"; "WalkPain"] ->
                      numeric (PyInt z) = true ->
                      numeric (dict_get patient_data k (PyInt z)) = true) as Hget.
  { intros k z Hk Hz. unfold dict_get. destruct (patient_data !! k) eqn:E; simpl; eauto. }
  rewrite !Hget by (simpl; auto).
  now destruct (String.eqb timepoint "T3").
Qed.

Lemma collect_lookup (widget : string -> value) (features : list string)
    (k : string) (v : value) :
  collect widget features !! k = Some v -> v = widget k.
Proof.
  unfold collect.
  assert (forall (l : list string) (acc : gmap string value),
            (forall v', acc !! k = Some v' -> v' = widget k) ->
            foldl (fun pd f => <[f := widget f]> pd) acc l !! k = Some v ->
            v = widget k) as Hgen.
  { induction l as [| f l IH]; intros acc Hacc; cbn [foldl].
    - apply Hacc.
    - apply IH. intros v'. destruct (String.eqb_spec f k) as [-> | Hne].
      + rewrite lookup_insert_eq. congruence.
      + rewrite lookup_insert_ne by exact Hne. apply Hacc. }
  apply Hgen. intros v'. rewrite lookup_empty. discriminate.
Qed.

(** * The claims *)

(** ** C1: the range of the scores *)

(** C1, at the failing input: with a trained model that answers NaN on a
    full T3 record, [predict_with_model] returns that NaN, which is not in
    [0, 8]: [np.clip] hands a NaN back.  The clamp of the heuristic
    predictor, [max(0, min(8, x))], sends the same NaN to 8, inside the
    range. *)
Theorem nan_model_score_escapes_range :
  predict_with_model nan_disk (collect zero_form T3_IMPORTANT_FEATURES) "T3"
    = Ok (PyFloat S754_nan)
  /\ in_0_8 (PyFloat S754_nan) = false
  /\ clamp_0_8 S754_nan = PyInt 8
  /\ in_0_8 (clamp_0_8 S754_nan) = true.
Proof. repeat split; vm_compute; reflexivity. Qed.

(** Where the range does hold: a score returned by [predict_in_demo_mode]
    is the clamp [max(0, min(8, x))] of its closed-form result and lies in
    [0, 8]; a score returned by [predict_with_model] is [np.clip] of the raw
    output of the loaded model, and lies in [0, 8] for every raw output
    other than NaN. *)
Theorem scores_in_0_8 (env : environment) (patient_data : gmap string value)
    (timepoint : string) (score : number) :
  (predict_in_demo_mode patient_data timepoint = Ok score ->
   (exists prediction, score = clamp_0_8 prediction) /\ in_0_8 score = true) /\
  (predict_with_model env patient_data timepoint = Ok score ->
   exists model preprocessor processed raw,
     load_models env (upper timepoint) = Ok (model, preprocessor) /\
     predict model processed = Ok raw /\
     score = PyFloat (np_clip raw 0 8) /\
     (B64.is_nan raw = false -> in_0_8 score = true)).
Proof.
  split.
  - intros H. apply predict_in_demo_mode_clamped in H as [p ->].
    split; [now exists p | apply clamp_0_8_in_range].
  - intros H. apply predict_with_model_ok in H as (m & pp & v & raw & Hl & Hp & ->).
    exists m, pp, v, raw. repeat split; trivial. apply np_clip_in_range.
Qed.

Lemma scores_in_0_8_witness :
  in_0_8 (PyFloat (B64.literal 34 10)) = true /\
  in_0_8 (PyFloat (B64.of_Z 3)) = true.
Proof.
  split.
  - apply (proj1 (scores_in_0_8 full_disk example_record "T3"
                    (PyFloat (B64.literal 34 10)))).
    vm_compute. reflexivity.
  - destruct (proj2 (scores_in_0_8 full_disk (collect zero_form T3_IMPORTANT_FEATURES)
                       "T3" (PyFloat (B64.of_Z 3))))
      as (model & preprocessor & processed & raw & Hload & Hraw & _ & Hrange).
    + vm_compute. reflexivity.
    + apply Hrange. injection Hload as <- _. injection Hraw as <-. reflexivity.
Defined.

(** ** C2: unrecognized timepoints *)

(** C2, refuted as stated: [predict_in_demo_mode] returns a score for the
    unrecognized timepoint ["T9"]: it uses the T5 formula on the defaults,
    1.5 + 0.2 + 0.325 + 0.75 - 0 = 2.775. *)
Lemma demo_accepts_unknown_timepoint :
  predict_in_demo_mode ∅ "T9" = Ok (PyFloat (B64.literal 2775 1000)).
Proof. vm_compute. reflexivity. Qed.

(** C2, amended: [predict_with_model] fails with the invalid-timepoint
    [ValueError] for every timepoint whose upper-case form is neither ["T3"]
    nor ["T5"], that is for every string other than ["T3"], ["t3"], ["T5"]
    and ["t5"]; [predict_in_demo_mode] does not validate its timepoint and
    computes every timepoint other than ["T3"] with the T5 formula. *)
Theorem unrecognized_timepoint (env : environment)
    (patient_data : gmap string value) (timepoint : string) :
  (upper timepoint <> "T3" -> upper timepoint <> "T5" ->
   predict_with_model env patient_data timepoint = Raise invalid_timepoint) /\
  (~ In timepoint ["T3"; "t3"; "T5"; "t5"] ->
   predict_with_model env patient_data timepoint = Raise invalid_timepoint) /\
  (timepoint <> "T3" ->
   predict_in_demo_mode patient_data timepoint = predict_in_demo_mode patient_data "T5").
Proof.
  assert (upper timepoint <> "T3" -> upper timepoint <> "T5" ->
          predict_with_model env patient_data timepoint = Raise invalid_timepoint) as Hup.
  { intros H3 H5. apply predict_with_model_invalid.
    destruct (str_in (upper timepoint) ["T3"; "T5"]) eqn:E; [| reflexivity].
    apply str_in_T3_T5 in E. tauto. }
  split; [exact Hup |]. split.
  - intros Hnot. apply Hup.
    + rewrite upper_T3. intros [-> | ->]; apply Hnot; simpl; auto.
    + rewrite upper_T5. intros [-> | ->]; apply Hnot; simpl; auto.
  - intros H. unfold predict_in_demo_mode.
    destruct (String.eqb_spec timepoint "T3"); [contradiction | reflexivity].
Qed.

Lemma unrecognized_timepoint_witness :
  predict_with_model full_disk example_record "T9" = Raise invalid_timepoint /\
  predict_with_model full_disk example_record "3T" = Raise invalid_timepoint /\
  predict_in_demo_mode example_record "T9" = predict_in_demo_mode example_record "T5".
Proof.
  split; [| split].
  - apply (proj1 (unrecognized_timepoint full_disk example_record "T9"));
      vm_compute; discriminate.
  - apply (proj1 (proj2 (unrecognized_timepoint full_disk example_record "3T"))).
    simpl. intros [H | [H | [H | [H | []]]]]; discriminate H.
  - apply (proj2 (proj2 (unrecognized_timepoint full_disk example_record "T9"))).
    vm_compute. discriminate.
Defined.

(** ** C3: what triggers demo mode *)

Lemma forallb_false {A : Type} (p : A -> bool) (l : list A) :
  forallb p l = false <-> exists x, In x l /\ p x = false.
Proof.
  induction l as [| a l IH]; simpl.
  - split; [discriminate | intros (x & [] & _)].
  - rewrite andb_false_iff, IH. split.
    + intros [H | (x & Hx & Hp)]; [exists a | exists x]; auto.
    + intros (x & [<- | Hx] & Hp); [left | right]; eauto.
Qed.

Lemma use_demo_mode_spec (env : environment) :
  use_demo_mode env = true <->
  os_path_exists env MODELS_DIR = false \/
  exists f, In f model_files /\ os_path_exists env f = false.
Proof.
  unfold use_demo_mode, startup, check_models_exist.
  destruct (os_path_exists env MODELS_DIR); cbn [negb fst].
  - rewrite negb_true_iff, forallb_false. split; [auto | ].
    intros [H | H]; [discriminate | exact H].
  - split; auto.
Qed.

(** C3, refuted as stated: with the T3 pair on disk and the T5 pair
    missing, the page is in demo mode for the T3 selection although both
    files of the selected timepoint exist. *)
Lemma demo_mode_with_selected_pair_present :
  ~ (use_demo_mode t3_only_disk = true <->
     os_path_exists t3_only_disk
       (os_path_join MODELS_DIR (lower (first_word (radio_label T3_3_years))
                                 +:+ "_model.joblib")) = false \/
     os_path_exists t3_only_disk
       (os_path_join MODELS_DIR (lower (first_word (radio_label T3_3_years))
                                 +:+ "_preprocessor.joblib")) = false).
Proof. vm_compute. intros [H _]. destruct (H eq_refl); discriminate. Qed.

(** C3, amended: the page is in demo mode if and only if the models
    directory or one of the four artifact files (model and preprocessor of
    T3 and of T5) is absent; the heuristic predictor produces the outcome
    when the page is in demo mode and also when [predict_with_model]
    raises; otherwise the outcome is the trained model's, with no notice. *)
Theorem demo_mode_trigger (env : environment) (patient_data : gmap string value)
    (timepoint_code : string) :
  (use_demo_mode env = true <->
   os_path_exists env MODELS_DIR = false \/
   exists f, In f model_files /\ os_path_exists env f = false) /\
  (use_demo_mode env = true \/
   (exists e, predict_with_model env patient_data timepoint_code = Raise e) ->
   snd (choose_prediction env (use_demo_mode env) patient_data timepoint_code)
   = predict_in_demo_mode patient_data timepoint_code) /\
  (forall prediction,
   use_demo_mode env = false ->
   predict_with_model env patient_data timepoint_code = Ok prediction ->
   choose_prediction env (use_demo_mode env) patient_data timepoint_code
   = ([], Ok prediction)).
Proof.
  split; [apply use_demo_mode_spec |]. split.
  - intros H. unfold choose_prediction.
    destruct (use_demo_mode env).
    + destruct (predict_in_demo_mode patient_data timepoint_code); reflexivity.
    + destruct H as [H | [e He]]; [discriminate |]. rewrite He.
      destruct (predict_in_demo_mode patient_data timepoint_code); reflexivity.
  - intros p Hu Hp. unfold choose_prediction. now rewrite Hu, Hp.
Qed.

Lemma demo_mode_trigger_witness :
  snd (choose_prediction corrupt_disk (use_demo_mode corrupt_disk)
         (collect zero_form T5_IMPORTANT_FEATURES) "T5")
  = predict_in_demo_mode (collect zero_form T5_IMPORTANT_FEATURES) "T5" /\
  choose_prediction full_disk (use_demo_mode full_disk)
    (collect zero_form T3_IMPORTANT_FEATURES) "T3"
  = ([], Ok (PyFloat (B64.of_Z 3))).
Proof.
  split.
  - apply (proj1 (proj2 (demo_mode_trigger corrupt_disk
                           (collect zero_form T5_IMPORTANT_FEATURES) "T5"))).
    right. eexists. vm_compute. reflexivity.
  - apply (proj2 (proj2 (demo_mode_trigger full_disk
                           (collect zero_form T3_IMPORTANT_FEATURES) "T3")));
      vm_compute; reflexivity.
Defined.

(** ** C4: absent artifacts *)

Lemma shown_score_warnings (events rest : list st_event) :
  (forall ev, In ev events -> exists msg, ev = st_warning msg) ->
  shown_score (events ++ rest) = shown_score rest.
Proof.
  induction events as [| ev events IH]; simpl; intros H; [reflexivity |].
  destruct (H ev (or_introl eq_refl)) as [msg ->]. apply IH. auto.
Qed.

Lemma startup_warnings (env : environment) (ev : st_event) :
  In ev (snd (startup env)) -> exists msg, ev = st_warning msg.
Proof.
  unfold startup. destruct (os_path_exists env MODELS_DIR); simpl.
  - destruct (check_models_exist env); simpl; [tauto |]. intros [<- | []]. eauto.
  - intros [<- | []]. eauto.
Qed.

Lemma flagged_demo_app (events rest : list st_event) :
  flagged_demo rest = true -> flagged_demo (events ++ rest) = true.
Proof. unfold flagged_demo. rewrite existsb_app. intros ->. apply orb_true_r. Qed.

(** C4: when the models directory or any artifact file is absent, the score
    the page shows is exactly what [predict_in_demo_mode] returns on the
    collected record and the selected timepoint (nothing is shown when it
    raises), and a shown score carries the demo notice; with numeric
    widget values a score is shown. *)
Theorem absent_artifacts_give_demo (env : environment) (selected : radio)
    (widget : string -> value) :
  (os_path_exists env MODELS_DIR = false \/
   exists f, In f model_files /\ os_path_exists env f = false) ->
  let timepoint_code := first_word (radio_label selected) in
  let patient_data := collect widget (required_features_for timepoint_code) in
  let events := main env selected widget true in
  shown_score events = score_of (predict_in_demo_mode patient_data timepoint_code) /\
  (forall prediction,
   predict_in_demo_mode patient_data timepoint_code = Ok prediction ->
   flagged_demo events = true) /\
  ((forall k, In k ["BMI_Current"; "AgePreOp"; "Pre-Op Pain"; "WalkPain"] ->
              numeric (widget k) = true) ->
   exists prediction,
     predict_in_demo_mode patient_data timepoint_code = Ok prediction /\
     shown_score events = Some prediction /\ flagged_demo events = true).
Proof.
  intros Habs tc pd events.
  assert (shown_score events = score_of (predict_in_demo_mode pd tc) /\
          (forall prediction, predict_in_demo_mode pd tc = Ok prediction ->
                              flagged_demo events = true)) as [Hs Hf].
  { apply use_demo_mode_spec in Habs.
    subst events. unfold main. unfold use_demo_mode in Habs.
    pose proof (startup_warnings env) as Hw.
    destruct (startup env) as [u warnings]. simpl in Habs, Hw. subst u.
    fold tc. change (if String.eqb tc "T3" then T3_IMPORTANT_FEATURES
                     else T5_IMPORTANT_FEATURES) with (required_features_for tc).
    fold pd. unfold on_predict, choose_prediction.
    destruct (predict_in_demo_mode pd tc) as [p | e]; simpl.
    - destruct (interpret p) as [label color]. split.
      + rewrite shown_score_warnings by exact Hw. reflexivity.
      + intros _ _. apply flagged_demo_app. reflexivity.
    - split; [| discriminate].
      rewrite shown_score_warnings by exact Hw. reflexivity. }
  split; [exact Hs |]. split; [exact Hf |].
  intros Hnum.
  destruct (predict_in_demo_mode_numeric pd tc) as [p Hp].
  { intros k v Hk Hv. apply collect_lookup in Hv as ->. now apply Hnum. }
  exists p. rewrite Hs, Hp. eauto.
Qed.

Lemma absent_artifacts_give_demo_witness :
  shown_score (main t3_only_disk T3_3_years zero_form true)
  = score_of (predict_in_demo_mode (collect zero_form T3_IMPORTANT_FEATURES) "T3") /\
  exists prediction,
    predict_in_demo_mode (collect zero_form T3_IMPORTANT_FEATURES) "T3" = Ok prediction /\
    shown_score (main t3_only_disk T3_3_years zero_form true) = Some prediction /\
    flagged_demo (main t3_only_disk T3_3_years zero_form true) = true.
Proof.
  destruct (absent_artifacts_give_demo t3_only_disk T3_3_years zero_form)
    as (Hshown & _ & Hnumeric).
  - right. exists (os_path_join MODELS_DIR "t5_model.joblib").
    split; [vm_compute; tauto | reflexivity].
  - split; [exact Hshown |]. apply Hnumeric. intros k _. reflexivity.
Defined.

(** ** C5: missing features *)

Lemma missing_in_spec (patient_data : gmap string value) (timepoint k : string) :
  In k (missing_in patient_data timepoint) <->
  In k (required_features_for (upper timepoint)) /\ patient_data !! k = None.
Proof.
  unfold missing_in. rewrite filter_In. unfold dict_contains.
  destruct (patient_data !! k); simpl; intuition discriminate.
Qed.

(** C5, refuted as stated: with no artifacts on disk, the empty record makes
    [predict_with_model] fail with [FileNotFoundError], raised by
    [load_models] before the features are checked. *)
Lemma artifacts_checked_before_features :
  predict_with_model empty_disk ∅ "T3" = Raise artifacts_missing.
Proof. reflexivity. Qed.

(** C5, amended: when the timepoint is valid and its artifact pair loads,
    a record that lacks one or more required features makes
    [predict_with_model] fail with the missing-features [ValueError], whose
    list holds exactly the required keys absent from the record, each once
    and in the order of the catalog. *)
Theorem missing_features_reported (env : environment)
    (patient_data : gmap string value) (timepoint : string)
    (model preprocessor : artifact) :
  upper timepoint = "T3" \/ upper timepoint = "T5" ->
  load_models env (upper timepoint) = Ok (model, preprocessor) ->
  (exists k, In k (required_features_for (upper timepoint)) /\ patient_data !! k = None) ->
  exists missing_features,
    predict_with_model env patient_data timepoint
    = Raise (missing_features_error missing_features) /\
    missing_features
    = List.filter (fun f => negb (dict_contains patient_data f))
                  (required_features_for (upper timepoint)) /\
    List.NoDup missing_features /\
    forall k, In k missing_features <->
              In k (required_features_for (upper timepoint)) /\ patient_data !! k = None.
Proof.
  intros Htp Hload (k & Hk & Hnone).
  exists (missing_in patient_data timepoint). split; [| split; [reflexivity | split]].
  - apply predict_with_model_missing with (1 := proj2 (str_in_T3_T5 _) Htp) (2 := Hload).
    intros E. assert (In k (missing_in patient_data timepoint)) as Hin
      by (apply missing_in_spec; auto).
    rewrite E in Hin. destruct Hin.
  - unfold missing_in. apply List.NoDup_filter.
    unfold required_features_for.
    destruct (String.eqb (upper timepoint) "T3");
      repeat (constructor; [simpl; intuition discriminate |]); constructor.
  - apply missing_in_spec.
Qed.

Lemma missing_features_reported_witness :
  exists missing_features,
    predict_with_model full_disk example_record "t3"
    = Raise (missing_features_error missing_features) /\
    missing_features
    = List.filter (fun f => negb (dict_contains example_record f))
                  (required_features_for (upper "t3")) /\
    List.NoDup missing_features /\
    forall k, In k missing_features <->
              In k (required_features_for (upper "t3")) /\ example_record !! k = None.
Proof.
  apply (missing_features_reported full_disk example_record "t3"
           constant_artifact constant_artifact).
  - left. reflexivity.
  - reflexivity.
  - exists "LOS". split; [left; reflexivity | reflexivity].
Defined.

(** ** C7: the worked examples *)

(** C7: on the record BMI_Current 25, AgePreOp 65, Pre-Op Pain 5, WalkPain 5
    the T3 terms are 0.25, 0.65, 1.0 and 0.5 and the output is the float
    3.4; with Approach 'Posterior' the T5 terms are 0.2, 0.325, 0.75 and 0.5
    and the output is the float 2.275.  The same holds when the four
    numbers come from the defaults. *)
Theorem worked_examples :
  (float_mul lit_0_01 (PyInt 25) = Ok (B64.literal 25 100) /\
   float_mul lit_0_01 (PyInt 65) = Ok (B64.literal 65 100) /\
   float_mul lit_0_2 (PyInt 5) = Ok (B64.of_Z 1) /\
   float_mul lit_0_1 (PyInt 5) = Ok (B64.literal 5 10) /\
   B64.sub (B64.add (B64.add (B64.add (B64.of_Z 2) (B64.literal 25 100))
                             (B64.literal 65 100)) (B64.of_Z 1)) (B64.literal 5 10)
   = B64.literal 34 10 /\
   predict_in_demo_mode example_record "T3" = Ok (PyFloat (B64.literal 34 10))) /\
  (float_mul lit_0_008 (PyInt 25) = Ok (B64.literal 2 10) /\
   float_mul lit_0_005 (PyInt 65) = Ok (B64.literal 325 1000) /\
   float_mul lit_0_15 (PyInt 5) = Ok (B64.literal 75 100) /\
   B64.sub (B64.add (B64.add (B64.add (B64.literal 15 10) (B64.literal 2 10))
                             (B64.literal 325 1000)) (B64.literal 75 100))
           (B64.literal 5 10)
   = B64.literal 2275 1000 /\
   predict_in_demo_mode (<["Approach" := Str "Posterior"]> example_record) "T5"
   = Ok (PyFloat (B64.literal 2275 1000)) /\
   predict_in_demo_mode (<["Approach" := Str "Posterior"]> ∅) "T5"
   = Ok (PyFloat (B64.literal 2275 1000))).
Proof. vm_compute. repeat split. Qed.

(** ** C8: the score bands *)

Lemma num_eq_le (s : number) (a b : Z) :
  num_compare s (PyInt a) = Some Eq -> num_le s (PyInt b) = (a <=? b).
Proof.
  intros H. unfold num_le. rewrite (num_compare_int_eq _ _ b H).
  destruct (Z.compare_spec a b); symmetry;
    [apply Z.leb_le | apply Z.leb_le | apply Z.leb_gt]; lia.
Qed.

(** C8: a score equal to 2 is labelled "minimal", a score equal to 4 "mild",
    a score equal to 6 "moderate", and every score above 6 "severe"; more
    generally the label follows the bands <= 2, <= 4, <= 6, > 6. *)
Theorem interpretation_bands (score : number) :
  (num_compare score (PyInt 2) = Some Eq -> fst (interpret score) = "minimal") /\
  (num_compare score (PyInt 4) = Some Eq -> fst (interpret score) = "mild") /\
  (num_compare score (PyInt 6) = Some Eq -> fst (interpret score) = "moderate") /\
  (num_gt score (PyInt 6) = true -> fst (interpret score) = "severe") /\
  (num_le score (PyInt 2) = true -> fst (interpret score) = "minimal") /\
  (num_gt score (PyInt 2) = true -> num_le score (PyInt 4) = true ->
   fst (interpret score) = "mild") /\
  (num_gt score (PyInt 4) = true -> num_le score (PyInt 6) = true ->
   fst (interpret score) = "moderate").
Proof.
  unfold interpret. repeat split.
  - intros H. now rewrite (num_eq_le _ 2 2 H).
  - intros H. now rewrite (num_eq_le _ 4 2 H), (num_eq_le _ 4 4 H).
  - intros H. now rewrite (num_eq_le _ 6 2 H), (num_eq_le _ 6 4 H), (num_eq_le _ 6 6 H).
  - intros H. rewrite (num_gt_not_le _ 6 2 H), (num_gt_not_le _ 6 4 H),
      (num_gt_not_le _ 6 6 H) by lia. reflexivity.
  - intros ->. reflexivity.
  - intros H2 H4. rewrite (num_gt_not_le _ 2 2 H2), H4 by lia. reflexivity.
  - intros H4 H6. rewrite (num_gt_not_le _ 4 2 H4), (num_gt_not_le _ 4 4 H4), H6 by lia.
    reflexivity.
Qed.

Lemma interpretation_bands_witness :
  fst (interpret (PyFloat (B64.of_Z 2))) = "minimal" /\
  fst (interpret (PyFloat (B64.of_Z 4))) = "mild" /\
  fst (interpret (PyInt 6)) = "moderate" /\
  fst (interpret (PyFloat (B64.literal 61 10))) = "severe" /\
  fst (interpret (PyInt 0)) = "minimal" /\
  fst (interpret (PyFloat (B64.literal 34 10))) = "mild" /\
  fst (interpret (PyFloat (B64.literal 55 10))) = "moderate".
Proof.
  split; [| split; [| split; [| split; [| split; [| split]]]]].
  - apply (proj1 (interpretation_bands (PyFloat (B64.of_Z 2)))). reflexivity.
  - apply (proj1 (proj2 (interpretation_bands (PyFloat (B64.of_Z 4))))). reflexivity.
  - apply (proj1 (proj2 (proj2 (interpretation_bands (PyInt 6))))). reflexivity.
  - apply (proj1 (proj2 (proj2 (proj2
             (interpretation_bands (PyFloat (B64.literal 61 10))))))). reflexivity.
  - apply (proj1 (proj2 (proj2 (proj2 (proj2 (interpretation_bands (PyInt 0))))))).
    reflexivity.
  - apply (proj1 (proj2 (proj2 (proj2 (proj2 (proj2
             (interpretation_bands (PyFloat (B64.literal 34 10))))))))); reflexivity.
  - apply (proj2 (proj2 (proj2 (proj2 (proj2 (proj2
             (interpretation_bands (PyFloat (B64.literal 55 10))))))))); reflexivity.
Defined.

(** ** C9: lower-case timepoints *)

Lemma predict_with_model_upper (env : environment)
    (patient_data : gmap string value) (timepoint : string) :
  predict_with_model env patient_data timepoint
  = predict_with_model env patient_data (upper timepoint).
Proof. unfold predict_with_model. now rewrite upper_idem. Qed.

(** C9: [predict_with_model] works on the upper-case form of its timepoint,
    so ["t3"] and ["t5"] pass the validation and give the feature list, the
    artifact files and the result of ["T3"] and ["T5"]: called with the
    lower-case code, the predictor checks and loads the two files named by
    that code, reports what is missing of the feature list of the
    timepoint, and otherwise returns the clipped output of the model; on a
    disk that holds the artifacts it returns a score. *)
Theorem lowercase_timepoint_accepted (env : environment)
    (patient_data : gmap string value) :
  (forall timepoint,
     predict_with_model env patient_data timepoint
     = predict_with_model env patient_data (upper timepoint)) /\
  upper "t3" = "T3" /\ upper "t5" = "T5" /\
  str_in (upper "t3") ["T3"; "T5"] = true /\
  str_in (upper "t5") ["T3"; "T5"] = true /\
  required_features_for (upper "t3") = T3_IMPORTANT_FEATURES /\
  required_features_for (upper "t5") = T5_IMPORTANT_FEATURES /\
  load_models env (upper "t3") = load_models env "T3" /\
  load_models env (upper "t5") = load_models env "T5" /\
  predict_with_model env patient_data "t3" = predict_with_model env patient_data "T3" /\
  predict_with_model env patient_data "t5" = predict_with_model env patient_data "T5" /\
  (forall code features,
     In (code, features) [("t3", T3_IMPORTANT_FEATURES); ("t5", T5_IMPORTANT_FEATURES)] ->
     let model_path := os_path_join MODELS_DIR (code +:+ "_model.joblib") in
     let preprocessor_path := os_path_join MODELS_DIR (code +:+ "_preprocessor.joblib") in
     predict_with_model env patient_data code
     = if negb (os_path_exists env model_path && os_path_exists env preprocessor_path)
       then Raise artifacts_missing
       else
         let! model := joblib_load env model_path in
         let! preprocessor := joblib_load env preprocessor_path in
         let missing_features :=
           List.filter (fun f => negb (dict_contains patient_data f)) features in
         if negb (Nat.eqb (length missing_features) 0)
         then Raise (missing_features_error missing_features)
         else
           let! patient_processed :=
             transform preprocessor (head_size_as_str env patient_data) in
           let! prediction := predict model patient_processed in
           Ok (PyFloat (np_clip prediction 0 8))) /\
  predict_with_model full_disk (collect zero_form T3_IMPORTANT_FEATURES) "t3"
  = Ok (PyFloat (B64.of_Z 3)) /\
  predict_with_model full_disk (collect zero_form T5_IMPORTANT_FEATURES) "t5"
  = Ok (PyFloat (B64.of_Z 3)).
Proof.
  split; [intros tp; apply predict_with_model_upper |].
  do 10 (split; [reflexivity |]).
  split; [| split; vm_compute; reflexivity].
  intros code features Hin model_path preprocessor_path.
  assert (Hcase : (code = "t3" /\ features = T3_IMPORTANT_FEATURES) \/
                  (code = "t5" /\ features = T5_IMPORTANT_FEATURES)).
  { simpl in Hin. destruct Hin as [H | [H | []]]; inversion H; auto. }
  subst model_path preprocessor_path.
  unfold predict_with_model, load_models.
  destruct Hcase as [[-> ->] | [-> ->]].
  - change (upper "t3") with "T3". change (lower "T3") with "t3".
    change (negb (str_in "T3" ["T3"; "T5"])) with false. cbv iota.
    change (required_features_for "T3") with T3_IMPORTANT_FEATURES.
    destruct (negb _); [reflexivity |].
    destruct (joblib_load env _) as [model |]; [| reflexivity]. cbn [rbind].
    destruct (joblib_load env _) as [preprocessor |]; reflexivity.
  - change (upper "t5") with "T5". change (lower "T5") with "t5".
    change (negb (str_in "T5" ["T3"; "T5"])) with false. cbv iota.
    change (required_features_for "T5") with T5_IMPORTANT_FEATURES.
    destruct (negb _); [reflexivity |].
    destruct (joblib_load env _) as [model |]; [| reflexivity]. cbn [rbind].
    destruct (joblib_load env _) as [preprocessor |]; reflexivity.
Qed.

(** ** C10: walking pain *)

Lemma valid_dict_get (patient_data : gmap string value) (key : string) (z : Z) :
  valid_at patient_data key = true ->
  valid_value (dict_get patient_data key (PyInt z)) = true.
Proof.
  unfold valid_at, dict_get. destruct (patient_data !! key); [trivial | reflexivity].
Qed.

(** The T3 formula with the walking-pain value singled out. *)
Lemma predict_T3_walk (patient_data : gmap string value) (w score : number) :
  predict_in_demo_mode (<["WalkPain" := Num w]> patient_data) "T3" = Ok score ->
  exists bmi age preop f,
    float_mul lit_0_01 (dict_get patient_data "BMI_Current" (PyInt 25)) = Ok bmi /\
    float_mul lit_0_01 (dict_get patient_data "AgePreOp" (PyInt 65)) = Ok age /\
    float_mul lit_0_2 (dict_get patient_data "Pre-Op Pain" (PyInt 5)) = Ok preop /\
    float_of_number w = Ok f /\
    score = clamp_0_8 (B64.sub (B64.add (B64.add (B64.add lit_2_0 bmi) age) preop)
                               (B64.mul lit_0_1 f)).
Proof.
  unfold predict_in_demo_mode, dict_get. cbn [String.eqb Ascii.eqb Bool.eqb].
  rewrite !lookup_insert_ne by done. rewrite lookup_insert_eq.
  cbn [default from_option id].
  destruct (float_mul lit_0_01 (default (Num (PyInt 25)) (patient_data !! "BMI_Current")))
    as [bmi |]; cbn [rbind]; [| discriminate].
  destruct (float_mul lit_0_01 (default (Num (PyInt 65)) (patient_data !! "AgePreOp")))
    as [age |]; cbn [rbind]; [| discriminate].
  destruct (float_mul lit_0_2 (default (Num (PyInt 5)) (patient_data !! "Pre-Op Pain")))
    as [preop |]; cbn [rbind]; [| discriminate].
  cbn [float_mul]. destruct (float_of_number w) as [f |]; cbn [rbind]; [| discriminate].
  intros H. injection H as <-. exists bmi, age, preop, f. auto.
Qed.

(** C10: for timepoint T3 and any fixed values of the other features, a
    higher WalkPain value never gives a higher score: if [w1 <= w2] and the
    predictor returns on both records, the score for [w2] is at most the
    score for [w1].  Floats are valid binary64 numbers. *)
Theorem walk_pain_monotone (patient_data : gmap string value)
    (w1 w2 score1 score2 : number) :
  valid_at patient_data "BMI_Current" = true ->
  valid_at patient_data "AgePreOp" = true ->
  valid_at patient_data "Pre-Op Pain" = true ->
  valid_number w1 = true -> valid_number w2 = true ->
  num_le w1 w2 = true ->
  predict_in_demo_mode (<["WalkPain" := Num w1]> patient_data) "T3" = Ok score1 ->
  predict_in_demo_mode (<["WalkPain" := Num w2]> patient_data) "T3" = Ok score2 ->
  num_le score2 score1 = true.
Proof.
  intros Vb Va Vp Vw1 Vw2 Hle H1 H2.
  apply predict_T3_walk in H1 as (bmi & age & preop & f1 & Hb & Ha & Hp & Hf1 & ->).
  apply predict_T3_walk in H2 as (bmi' & age' & preop' & f2 & Hb' & Ha' & Hp' & Hf2 & ->).
  rewrite Hb in Hb'. rewrite Ha in Ha'. rewrite Hp in Hp'.
  injection Hb' as <-. injection Ha' as <-. injection Hp' as <-.
  destruct (float_of_number_mono w1 w2 f1 f2 Vw1 Vw2 Hle Hf1 Hf2) as (Hz & N1 & N2).
  pose proof (float_of_number_valid w1 f1 Vw1 Hf1) as Vf1.
  pose proof (float_of_number_valid w2 f2 Vw2 Hf2) as Vf2.
  assert (valid64 bmi = true) as Vbmi
    by (apply (valid_float_mul lit_0_01 _ _ eq_refl (valid_dict_get _ _ _ Vb) Hb)).
  assert (valid64 age = true) as Vage
    by (apply (valid_float_mul lit_0_01 _ _ eq_refl (valid_dict_get _ _ _ Va) Ha)).
  assert (valid64 preop = true) as Vpre
    by (apply (valid_float_mul lit_0_2 _ _ eq_refl (valid_dict_get _ _ _ Vp) Hp)).
  unfold B64.sub, B64.add, B64.mul. change B64.prec with 53. change B64.emax with 1024.
  unfold lit_0_1.
  assert (bounded 53 1024 7205759403792794 (-56) = true) as Hc by reflexivity.
  destruct (SFmul_pos_cases _ _ f1 Hc Vf1 N1) as (Vg1 & Ng1 & _).
  destruct (SFmul_pos_cases _ _ f2 Hc Vf2 N2) as (Vg2 & Ng2 & _).
  apply clamp_sub_mono; trivial.
  - repeat apply valid_SFadd; trivial.
  - now apply SFmul_pos_mono.
Qed.

Lemma walk_pain_monotone_witness :
  exists score1 score2,
    predict_in_demo_mode (<["WalkPain" := Num (PyInt 3)]> example_record) "T3" = Ok score1 /\
    predict_in_demo_mode (<["WalkPain" := Num (PyFloat (B64.of_Z 9))]> example_record) "T3"
    = Ok score2 /\
    num_le score2 score1 = true.
Proof.
  eexists. eexists.
  split; [vm_compute; reflexivity |]. split; [vm_compute; reflexivity |].
  apply (walk_pain_monotone example_record (PyInt 3) (PyFloat (B64.of_Z 9)));
    vm_compute; reflexivity.
Defined.

(** * Further properties *)

(** ** The record the form collects *)

Lemma foldl_insert_lookup (widget : string -> value) (features : list string)
    (acc : gmap string value) (k : string) :
  foldl (fun patient_data feature => <[feature := widget feature]> patient_data)
        acc features !! k
  = if str_in k features then Some (widget k) else acc !! k.
Proof.
  revert acc. induction features as [| f features IH]; intros acc; simpl; [reflexivity |].
  rewrite IH. unfold str_in. simpl. fold (str_in k features).
  destruct (str_in k features); [rewrite orb_true_r; reflexivity |].
  rewrite orb_false_r.
  destruct (String.eqb_spec k f) as [-> | Hne].
  - rewrite lookup_insert_eq. reflexivity.
  - rewrite lookup_insert_ne by congruence. reflexivity.
Qed.

Lemma str_in_In (x : string) (l : list string) : str_in x l = true <-> In x l.
Proof.
  unfold str_in. rewrite existsb_exists. split.
  - intros [y [Hy Heq]]. apply String.eqb_eq in Heq. subst. exact Hy.
  - intros H. exists x. split; [exact H | apply String.eqb_refl].
Qed.

Lemma filter_nil {A : Type} (p : A -> bool) (l : list A) :
  (forall x, In x l -> p x = false) -> List.filter p l = [].
Proof.
  induction l as [| a l IH]; intros H; simpl; [reflexivity |].
  rewrite (H a) by (left; reflexivity). apply IH. intros x Hx. apply H. right. exact Hx.
Qed.

Lemma collect_complete (widget : string -> value) (features : list string) :
  List.filter (fun f => negb (dict_contains (collect widget features) f)) features = [].
Proof.
  apply filter_nil. intros f Hf. unfold dict_contains, collect.
  rewrite foldl_insert_lookup.
  apply str_in_In in Hf. rewrite Hf. reflexivity.
Qed.

Lemma radio_code (selected : radio) :
  let code := first_word (radio_label selected) in
  upper code = code /\ str_in code ["T3"; "T5"] = true.
Proof. destruct selected; split; reflexivity. Qed.

(** X1: the record the widget loop builds holds, under each of the listed
    features, the value its widget returned, and nothing under any other
    key. *)
Theorem collect_holds_the_widgets (widget : string -> value)
    (required_features : list string) (key : string) :
  collect widget required_features !! key
  = if str_in key required_features then Some (widget key) else None.
Proof.
  unfold collect. rewrite foldl_insert_lookup. rewrite lookup_empty. reflexivity.
Qed.

(** ** The model-backed predictor *)

Lemma predict_with_model_complete (env : environment)
    (patient_data : gmap string value) (timepoint : string) :
  str_in (upper timepoint) ["T3"; "T5"] = true ->
  missing_in patient_data timepoint = [] ->
  predict_with_model env patient_data timepoint
  = let! (model, preprocessor) := load_models env (upper timepoint) in
    let! patient_processed := transform preprocessor (head_size_as_str env patient_data) in
    let! prediction := predict model patient_processed in
    Ok (PyFloat (np_clip prediction 0 8)).
Proof.
  intros Hin Hmiss. unfold predict_with_model. rewrite Hin. cbn [negb].
  destruct (load_models env (upper timepoint)) as [[model preprocessor] | e];
    [| reflexivity].
  cbn [rbind]. unfold missing_in in Hmiss. rewrite Hmiss. reflexivity.
Qed.

(** X2: whichever timepoint is selected and whatever the widgets return,
    the record [main] collects lacks none of the features
    [predict_with_model] requires; called from the page, the predictor is
    the pipeline of loading, preprocessing, predicting and clipping, with
    no missing-feature or timepoint error of its own. *)
Theorem page_record_is_complete (env : environment) (selected : radio)
    (widget : string -> value) :
  let code := first_word (radio_label selected) in
  let patient_data := collect widget (required_features_for code) in
  missing_in patient_data code = [] /\
  predict_with_model env patient_data code
  = let! (model, preprocessor) := load_models env code in
    let! patient_processed := transform preprocessor (head_size_as_str env patient_data) in
    let! prediction := predict model patient_processed in
    Ok (PyFloat (np_clip prediction 0 8)).
Proof.
  intros code patient_data.
  destruct (radio_code selected) as [Hup Hin]. fold code in Hup, Hin.
  assert (Hmiss : missing_in patient_data code = []).
  { unfold missing_in. rewrite Hup. apply collect_complete. }
  split; [exact Hmiss |].
  rewrite predict_with_model_complete by (rewrite ?Hup; assumption).
  rewrite Hup. reflexivity.
Qed.

(** X3: [predict_with_model] never returns a score for a record that lacks
    a required feature of the timepoint, whatever is on disk and whatever
    the artifacts compute. *)
Theorem incomplete_record_never_scored (env : environment)
    (patient_data : gmap string value) (timepoint key : string) (score : number) :
  In key (required_features_for (upper timepoint)) ->
  patient_data !! key = None ->
  predict_with_model env patient_data timepoint <> Ok score.
Proof.
  intros Hreq Hnone Hok.
  assert (Hk : In key (missing_in patient_data timepoint)).
  { apply missing_in_spec. split; assumption. }
  unfold predict_with_model in Hok.
  destruct (negb (str_in (upper timepoint) ["T3"; "T5"])); [discriminate |].
  destruct (load_models env (upper timepoint)) as [[model preprocessor] | e];
    [| discriminate].
  cbn [rbind] in Hok. unfold missing_in in Hk.
  destruct (List.filter _ _) as [| f l]; [destruct Hk |].
  cbn in Hok. discriminate.
Qed.

Lemma incomplete_record_never_scored_witness :
  predict_with_model full_disk example_record "T3" <> Ok (PyFloat (B64.of_Z 3)).
Proof.
  apply (incomplete_record_never_scored full_disk example_record "T3" "LOS").
  - simpl. auto.
  - reflexivity.
Defined.

Lemma head_size_as_str_idem (env : environment) (patient_data : gmap string value) :
  (forall s, str_of_value env (Str s) = s) ->
  head_size_as_str env (head_size_as_str env patient_data)
  = head_size_as_str env patient_data.
Proof.
  intros Hstr. unfold head_size_as_str at 2 3.
  destruct (patient_data !! "HeadSize") as [v |] eqn:Hv.
  - unfold head_size_as_str. rewrite lookup_insert_eq. rewrite Hstr.
    apply insert_insert_eq.
  - unfold head_size_as_str. rewrite Hv. reflexivity.
Qed.

Lemma dict_contains_head_size (env : environment) (patient_data : gmap string value)
    (f : string) :
  dict_contains (head_size_as_str env patient_data) f = dict_contains patient_data f.
Proof.
  unfold dict_contains, head_size_as_str.
  destruct (patient_data !! "HeadSize") as [v |] eqn:Hv; [| reflexivity].
  destruct (String.eqb_spec "HeadSize" f) as [<- | Hne].
  - rewrite lookup_insert_eq, Hv. reflexivity.
  - rewrite lookup_insert_ne by congruence. reflexivity.
Qed.

(** X4: where [str] of a string is the string itself, turning [HeadSize]
    into a string before the call changes nothing: [predict_with_model]
    gives the same score, or raises the same exception, for the record and
    for the record with its [HeadSize] already a string. *)
Theorem head_size_coercion_is_idempotent (env : environment)
    (patient_data : gmap string value) (timepoint : string) :
  (forall s, str_of_value env (Str s) = s) ->
  predict_with_model env (head_size_as_str env patient_data) timepoint
  = predict_with_model env patient_data timepoint.
Proof.
  intros Hstr. unfold predict_with_model.
  destruct (negb (str_in (upper timepoint) ["T3"; "T5"])); [reflexivity |].
  destruct (load_models env (upper timepoint)) as [[model preprocessor] | e];
    [| reflexivity].
  cbn [rbind].
  rewrite (filter_ext (fun f => negb (dict_contains (head_size_as_str env patient_data) f))
                      (fun f => negb (dict_contains patient_data f)))
    by (intros f; rewrite dict_contains_head_size; reflexivity).
  destruct (negb _); [reflexivity |].
  fold (head_size_as_str env (head_size_as_str env patient_data)).
  fold (head_size_as_str env patient_data).
  rewrite head_size_as_str_idem by exact Hstr. reflexivity.
Qed.

Lemma head_size_coercion_is_idempotent_witness :
  predict_with_model full_disk (head_size_as_str full_disk (<["HeadSize" := Num (PyInt 32)]> ∅)) "T5"
  = predict_with_model full_disk (<["HeadSize" := Num (PyInt 32)]> ∅) "T5".
Proof.
  apply (head_size_coercion_is_idempotent full_disk). intros s. reflexivity.
Defined.

(** ** Loading the artifacts *)

Lemma ascii_lower_upper (c : ascii) : ascii_lower (ascii_upper c) = ascii_lower c.
Proof.
  destruct c as [[] [] [] [] [] [] [] []]; reflexivity.
Qed.

Lemma lower_upper (s : string) : lower (upper s) = lower s.
Proof.
  induction s as [| c s IH]; simpl; [reflexivity |].
  rewrite ascii_lower_upper, IH. reflexivity.
Qed.

Lemma ascii_lower_idem (c : ascii) : ascii_lower (ascii_lower c) = ascii_lower c.
Proof.
  destruct c as [[] [] [] [] [] [] [] []]; reflexivity.
Qed.

Lemma lower_idem (s : string) : lower (lower s) = lower s.
Proof.
  induction s as [| c s IH]; simpl; [reflexivity |].
  rewrite ascii_lower_idem, IH. reflexivity.
Qed.

(** X5: for a timepoint of ASCII characters, [load_models] does not depend
    on the case: the upper-case and the lower-case form of the timepoint
    name the same two files and load the same pair, or fail alike. *)
Theorem load_models_ignores_case (env : environment) (timepoint : string) :
  is_ascii timepoint = true ->
  load_models env (upper timepoint) = load_models env timepoint /\
  load_models env (lower timepoint) = load_models env timepoint.
Proof.
  intros _. unfold load_models. rewrite lower_upper, lower_idem. split; reflexivity.
Qed.

Lemma load_models_ignores_case_witness :
  load_models t3_only_disk (upper "t3") = load_models t3_only_disk "t3" /\
  load_models t3_only_disk (lower "t3") = load_models t3_only_disk "t3".
Proof.
  apply (load_models_ignores_case t3_only_disk "t3"). reflexivity.
Defined.

(** X6: the files [check_models_exist] looks for are the files
    [load_models] opens: once the check has passed, [load_models] for an
    accepted timepoint does not raise its [FileNotFoundError] but hands
    both files to [joblib.load], the model first; what it returns or
    raises is what the loader returns or raises. *)
Theorem checked_models_are_loaded (env : environment) (timepoint : string) :
  check_models_exist env = true ->
  str_in (upper timepoint) ["T3"; "T5"] = true ->
  load_models env (upper timepoint)
  = let! model :=
      joblib_load env (os_path_join MODELS_DIR (lower timepoint +:+ "_model.joblib")) in
    let! preprocessor :=
      joblib_load env (os_path_join MODELS_DIR (lower timepoint +:+ "_preprocessor.joblib")) in
    Ok (model, preprocessor).
Proof.
  intros Hcheck Hin. unfold check_models_exist in Hcheck.
  rewrite forallb_forall in Hcheck.
  unfold load_models. rewrite lower_upper.
  assert (Hlow : lower timepoint = "t3" \/ lower timepoint = "t5").
  { apply str_in_T3_T5 in Hin. rewrite <- lower_upper.
    destruct Hin as [-> | ->]; [left | right]; reflexivity. }
  assert (H1 : os_path_exists env
                 (os_path_join MODELS_DIR (lower timepoint +:+ "_model.joblib")) = true).
  { apply Hcheck. destruct Hlow as [-> | ->]; simpl; auto. }
  assert (H2 : os_path_exists env
                 (os_path_join MODELS_DIR (lower timepoint +:+ "_preprocessor.joblib")) = true).
  { apply Hcheck. destruct Hlow as [-> | ->]; simpl; auto. }
  rewrite H1, H2. reflexivity.
Qed.

Lemma checked_models_are_loaded_witness :
  load_models corrupt_disk (upper "t5")
  = let! model :=
      joblib_load corrupt_disk (os_path_join MODELS_DIR (lower "t5" +:+ "_model.joblib")) in
    let! preprocessor :=
      joblib_load corrupt_disk
        (os_path_join MODELS_DIR (lower "t5" +:+ "_preprocessor.joblib")) in
    Ok (model, preprocessor).
Proof.
  apply (checked_models_are_loaded corrupt_disk "t5"); reflexivity.
Defined.

(** X7: [predict_with_model] touches the two files of its own timepoint
    only: two environments that agree on these two paths, and on [str],
    give the same score or raise the same exception, whatever else differs
    on disk. *)
Theorem predict_with_model_own_files (env env' : environment)
    (patient_data : gmap string value) (timepoint : string) :
  let model_path := os_path_join MODELS_DIR (lower timepoint +:+ "_model.joblib") in
  let preprocessor_path :=
    os_path_join MODELS_DIR (lower timepoint +:+ "_preprocessor.joblib") in
  os_path_exists env model_path = os_path_exists env' model_path ->
  os_path_exists env preprocessor_path = os_path_exists env' preprocessor_path ->
  joblib_load env model_path = joblib_load env' model_path ->
  joblib_load env preprocessor_path = joblib_load env' preprocessor_path ->
  (forall v, str_of_value env v = str_of_value env' v) ->
  predict_with_model env patient_data timepoint
  = predict_with_model env' patient_data timepoint.
Proof.
  intros model_path preprocessor_path E1 E2 L1 L2 Hstr.
  unfold predict_with_model, load_models. rewrite lower_upper.
  fold model_path. fold preprocessor_path. rewrite E1, E2, L1, L2.
  destruct (patient_data !! "HeadSize") as [v |]; [rewrite Hstr |]; reflexivity.
Qed.

Lemma predict_with_model_own_files_witness :
  predict_with_model full_disk (collect zero_form T3_IMPORTANT_FEATURES) "T3"
  = predict_with_model t3_only_disk (collect zero_form T3_IMPORTANT_FEATURES) "T3".
Proof.
  apply (predict_with_model_own_files full_disk t3_only_disk); try reflexivity.
Defined.

(** ** The heuristic predictor *)

Lemma In_4 (k a b c d : string) :
  ~ In k [a; b; c; d] -> k <> a /\ k <> b /\ k <> c /\ k <> d.
Proof. simpl. intuition. Qed.

(** X8: the heuristic predictor reads four keys of the record and nothing
    else: BMI_Current, AgePreOp and Pre-Op Pain, with WalkPain for "T3"
    and Approach for any other timepoint.  Setting or removing any other
    key leaves its result, score or exception, unchanged. *)
Theorem demo_mode_reads_four_keys (patient_data : gmap string value)
    (timepoint key : string) (v : value) :
  ~ In key (demo_features timepoint) ->
  predict_in_demo_mode (<[key := v]> patient_data) timepoint
  = predict_in_demo_mode patient_data timepoint /\
  predict_in_demo_mode (delete key patient_data) timepoint
  = predict_in_demo_mode patient_data timepoint.
Proof.
  intros Hnot. unfold demo_features in Hnot. unfold predict_in_demo_mode, dict_get.
  destruct (String.eqb timepoint "T3");
    apply In_4 in Hnot; destruct Hnot as (H1 & H2 & H3 & H4);
    rewrite !lookup_insert_ne by assumption;
    rewrite !lookup_delete_ne by assumption; split; reflexivity.
Qed.

Lemma demo_mode_reads_four_keys_witness :
  predict_in_demo_mode (<["Approach" := Str "Posterior"]> example_record) "T3"
  = predict_in_demo_mode example_record "T3" /\
  predict_in_demo_mode (delete "Approach" example_record) "T3"
  = predict_in_demo_mode example_record "T3".
Proof.
  apply (demo_mode_reads_four_keys example_record "T3" "Approach" (Str "Posterior")).
  simpl. intros H. decompose [or] H; discriminate || assumption.
Defined.

Lemma float_mul_raises (c : spec_float) (v : value) (e : exn) :
  float_mul c v = Raise e -> arithmetic_error e = true /\ numeric v = false.
Proof.
  destruct v as [[z | f] | s]; simpl.
  - unfold float_of_int. destruct (B64.of_Z z); simpl; intros H; inversion H; auto.
  - discriminate.
  - intros H. inversion H. auto.
Qed.

Lemma float_mul_ok (c : spec_float) (v : value) (f : spec_float) :
  float_mul c v = Ok f -> numeric v = true.
Proof.
  destruct v as [n | s]; simpl; [| discriminate].
  destruct (float_of_number n); simpl; [reflexivity | discriminate].
Qed.

(** X9: the heuristic predictor raises no [KeyError] and no [ValueError]:
    it fails only in its multiplications, with a [TypeError] for a string
    or an [OverflowError] for an integer too large for a float, and only
    when one of the values it multiplies is such a value. *)
Theorem demo_mode_failures (patient_data : gmap string value) (timepoint : string)
    (e : exn) :
  predict_in_demo_mode patient_data timepoint = Raise e ->
  arithmetic_error e = true /\
  exists key dflt,
    In (key, dflt) [("BMI_Current", 25); ("AgePreOp", 65); ("Pre-Op Pain", 5);
                    ("WalkPain", 5)] /\
    (key = "WalkPain" -> timepoint = "T3") /\
    numeric (dict_get patient_data key (PyInt dflt)) = false.
Proof.
  unfold predict_in_demo_mode.
  destruct (String.eqb_spec timepoint "T3") as [-> | Hne].
  - destruct (float_mul lit_0_01 (dict_get patient_data "BMI_Current" (PyInt 25)))
      as [b | e1] eqn:Hb; cbn [rbind].
    2:{ intros H; inversion H; subst. apply float_mul_raises in Hb as [He Hn].
        split; [exact He |]. exists "BMI_Current", 25. simpl. auto 10. }
    destruct (float_mul lit_0_01 (dict_get patient_data "AgePreOp" (PyInt 65)))
      as [a | e1] eqn:Ha; cbn [rbind].
    2:{ intros H; inversion H; subst. apply float_mul_raises in Ha as [He Hn].
        split; [exact He |]. exists "AgePreOp", 65. simpl. auto 10. }
    destruct (float_mul lit_0_2 (dict_get patient_data "Pre-Op Pain" (PyInt 5)))
      as [p | e1] eqn:Hp; cbn [rbind].
    2:{ intros H; inversion H; subst. apply float_mul_raises in Hp as [He Hn].
        split; [exact He |]. exists "Pre-Op Pain", 5. simpl. auto 10. }
    destruct (float_mul lit_0_1 (dict_get patient_data "WalkPain" (PyInt 5)))
      as [w | e1] eqn:Hw; cbn [rbind].
    2:{ intros H; inversion H; subst. apply float_mul_raises in Hw as [He Hn].
        split; [exact He |]. exists "WalkPain", 5. simpl. auto 10. }
    discriminate.
  - destruct (float_mul lit_0_008 (dict_get patient_data "BMI_Current" (PyInt 25)))
      as [b | e1] eqn:Hb; cbn [rbind].
    2:{ intros H; inversion H; subst. apply float_mul_raises in Hb as [He Hn].
        split; [exact He |]. exists "BMI_Current", 25. simpl.
        split; [auto 10 | split; [discriminate | exact Hn]]. }
    destruct (float_mul lit_0_005 (dict_get patient_data "AgePreOp" (PyInt 65)))
      as [a | e1] eqn:Ha; cbn [rbind].
    2:{ intros H; inversion H; subst. apply float_mul_raises in Ha as [He Hn].
        split; [exact He |]. exists "AgePreOp", 65. simpl.
        split; [auto 10 | split; [discriminate | exact Hn]]. }
    destruct (float_mul lit_0_15 (dict_get patient_data "Pre-Op Pain" (PyInt 5)))
      as [p | e1] eqn:Hp; cbn [rbind].
    2:{ intros H; inversion H; subst. apply float_mul_raises in Hp as [He Hn].
        split; [exact He |]. exists "Pre-Op Pain", 5. simpl.
        split; [auto 10 | split; [discriminate | exact Hn]]. }
    destruct (eq_str (patient_data !! "Approach") "Posterior"); simpl; discriminate.
Qed.

Lemma demo_mode_failures_witness :
  arithmetic_error (TypeError "can't multiply sequence by non-int of type 'float'") = true /\
  exists key dflt,
    In (key, dflt) [("BMI_Current", 25); ("AgePreOp", 65); ("Pre-Op Pain", 5);
                    ("WalkPain", 5)] /\
    (key = "WalkPain" -> "T3" = "T3") /\
    numeric (dict_get (<["WalkPain" := Str "none"]> ∅) key (PyInt dflt)) = false.
Proof.
  apply (demo_mode_failures (<["WalkPain" := Str "none"]> ∅) "T3").
  reflexivity.
Defined.

(** ** The page *)

Lemma main_pressed (env : environment) (selected : radio) (widget : string -> value) :
  main env selected widget true
  = snd (startup env)
    ++ on_predict env (use_demo_mode env)
         (collect widget (required_features_for (first_word (radio_label selected))))
         (first_word (radio_label selected)).
Proof.
  unfold main, use_demo_mode, required_features_for.
  destruct (startup env) as [demo warnings]. reflexivity.
Qed.

Lemma main_idle (env : environment) (selected : radio) (widget : string -> value) :
  main env selected widget false = snd (startup env).
Proof.
  unfold main. destruct (startup env) as [demo warnings]. reflexivity.
Qed.

Lemma startup_trained (env : environment) :
  use_demo_mode env = false -> snd (startup env) = [].
Proof.
  unfold use_demo_mode, startup.
  destruct (negb (os_path_exists env MODELS_DIR)); simpl; [discriminate |].
  intros ->. reflexivity.
Qed.

Lemma flagged_demo_warnings (events rest : list st_event) :
  (forall ev, In ev events -> exists msg, ev = st_warning msg) ->
  flagged_demo (events ++ rest) = flagged_demo rest.
Proof.
  intros H. unfold flagged_demo. rewrite existsb_app.
  replace (existsb is_demo_notice events) with false; [reflexivity |].
  symmetry. induction events as [| ev events IH]; [reflexivity |].
  simpl. destruct (H ev) as [msg ->]; [left; reflexivity |]. simpl.
  apply IH. intros ev' Hev'. apply H. right. exact Hev'.
Qed.

Lemma shows_error_warnings (events rest : list st_event) :
  (forall ev, In ev events -> exists msg, ev = st_warning msg) ->
  shows_error (events ++ rest) = shows_error rest.
Proof.
  intros H. unfold shows_error. rewrite existsb_app.
  match goal with |- ?a || _ = _ => replace a with false; [reflexivity |] end.
  symmetry. induction events as [| ev events IH]; [reflexivity |].
  simpl. destruct (H ev) as [msg ->]; [left; reflexivity |]. simpl.
  apply IH. intros ev' Hev'. apply H. right. exact Hev'.
Qed.

(** X10: outside demo mode, when both artifacts load and the preprocessor
    and the model accept the collected record, the page shows exactly one
    thing: the clipped output of the model with its interpretation, and no
    warning, notice or error. *)
Theorem trained_page (env : environment) (selected : radio) (widget : string -> value)
    (model preprocessor : artifact) (processed : list spec_float) (raw : spec_float) :
  let code := first_word (radio_label selected) in
  let patient_data := collect widget (required_features_for code) in
  let score := PyFloat (np_clip raw 0 8) in
  use_demo_mode env = false ->
  load_models env code = Ok (model, preprocessor) ->
  transform preprocessor (head_size_as_str env patient_data) = Ok processed ->
  predict model processed = Ok raw ->
  main env selected widget true
  = [st_result score (fst (interpret score)) (snd (interpret score))].
Proof.
  intros code patient_data score Hdemo Hload Htr Hpred.
  rewrite main_pressed, startup_trained by exact Hdemo. rewrite Hdemo.
  fold code. fold patient_data. cbn [app].
  unfold on_predict, choose_prediction.
  destruct (radio_code selected) as [Hup Hin]. fold code in Hup, Hin.
  assert (Hmiss : missing_in patient_data code = []).
  { unfold missing_in. rewrite Hup. apply collect_complete. }
  rewrite predict_with_model_complete by (rewrite ?Hup; assumption).
  rewrite Hup, Hload. cbn [rbind]. rewrite Htr. cbn [rbind]. rewrite Hpred. cbn [rbind].
  fold score. destruct (interpret score). reflexivity.
Qed.

Lemma trained_page_witness :
  main full_disk T5_5_years zero_form true
  = [st_result (PyFloat (np_clip (B64.of_Z 3) 0 8))
       (fst (interpret (PyFloat (np_clip (B64.of_Z 3) 0 8))))
       (snd (interpret (PyFloat (np_clip (B64.of_Z 3) 0 8))))].
Proof.
  apply (trained_page full_disk T5_5_years zero_form constant_artifact constant_artifact
           [B64.of_Z 3] (B64.of_Z 3)); reflexivity.
Defined.

(** X11: outside demo mode, when [predict_with_model] raises, the page
    shows the warning that carries the text of the exception, then the
    demo notice, then the score of the heuristic predictor for the same
    record and timepoint. *)
Theorem fallback_page (env : environment) (selected : radio) (widget : string -> value)
    (e : exn) (score : number) :
  let code := first_word (radio_label selected) in
  let patient_data := collect widget (required_features_for code) in
  use_demo_mode env = false ->
  predict_with_model env patient_data code = Raise e ->
  predict_in_demo_mode patient_data code = Ok score ->
  main env selected widget true
  = [st_warning ("Error using trained model: " +:+ str_exn e +:+
                 ". Falling back to demo mode.");
     demo_notice;
     st_result score (fst (interpret score)) (snd (interpret score))].
Proof.
  intros code patient_data Hdemo Hraise Hok.
  rewrite main_pressed, startup_trained by exact Hdemo. rewrite Hdemo.
  fold code. fold patient_data. cbn [app].
  unfold on_predict, choose_prediction. rewrite Hraise, Hok.
  destruct (interpret score). reflexivity.
Qed.

Lemma fallback_page_witness :
  main corrupt_disk T3_3_years zero_form true
  = [st_warning ("Error using trained model: " +:+ str_exn (OtherException "invalid load key")
                 +:+ ". Falling back to demo mode.");
     demo_notice;
     st_result (PyFloat lit_2_0) (fst (interpret (PyFloat lit_2_0)))
       (snd (interpret (PyFloat lit_2_0)))].
Proof.
  apply (fallback_page corrupt_disk T3_3_years zero_form (OtherException "invalid load key")
           (PyFloat lit_2_0)); vm_compute; reflexivity.
Defined.

Lemma is_demo_notice_demo_notice : is_demo_notice demo_notice = true.
Proof. reflexivity. Qed.

(** X12: where a score comes from can be read off the page.  A score shown
    together with the demo notice is the result of the heuristic predictor
    and lies between 0 and 8; a score shown without the notice is the
    result of [predict_with_model], and the page is not in demo mode. *)
Theorem score_provenance (env : environment) (selected : radio)
    (widget : string -> value) (button : bool) (score : number) :
  let code := first_word (radio_label selected) in
  let patient_data := collect widget (required_features_for code) in
  let page := main env selected widget button in
  shown_score page = Some score ->
  if flagged_demo page
  then predict_in_demo_mode patient_data code = Ok score /\ in_0_8 score = true
  else use_demo_mode env = false /\ predict_with_model env patient_data code = Ok score.
Proof.
  intros code patient_data page. subst page. destruct button.
  2:{ rewrite main_idle. rewrite <- (app_nil_r (snd (startup env))).
      rewrite shown_score_warnings by apply startup_warnings. discriminate. }
  rewrite main_pressed. fold code. fold patient_data.
  rewrite shown_score_warnings, flagged_demo_warnings by apply startup_warnings.
  assert (Hrange : forall s, predict_in_demo_mode patient_data code = Ok s ->
                             in_0_8 s = true).
  { intros s Hs. apply predict_in_demo_mode_clamped in Hs as [p ->].
    apply clamp_0_8_in_range. }
  unfold on_predict, choose_prediction.
  destruct (use_demo_mode env).
  - destruct (predict_in_demo_mode patient_data code) as [s | e] eqn:Hd.
    + destruct (interpret s). cbn. intros H; inversion H; subst. auto.
    + cbn. discriminate.
  - destruct (predict_with_model env patient_data code) as [s | e] eqn:Hm.
    + destruct (interpret s). cbn. intros H; inversion H; subst. auto.
    + destruct (predict_in_demo_mode patient_data code) as [s | e'] eqn:Hd.
      * destruct (interpret s). cbn. intros H; inversion H; subst. auto.
      * cbn. discriminate.
Qed.

Lemma score_provenance_witness :
  predict_in_demo_mode (collect zero_form (required_features_for "T3")) "T3"
  = Ok (PyFloat lit_2_0) /\ in_0_8 (PyFloat lit_2_0) = true.
Proof.
  apply (score_provenance empty_disk T3_3_years zero_form true (PyFloat lit_2_0)).
  reflexivity.
Defined.

Lemma small_int_numeric (lo hi : Z) (v : value) :
  -1000 <= lo -> hi <= 1000 -> int_between lo hi v = true -> numeric v = true.
Proof.
  intros Hlo Hhi. destruct v as [[z | f] | s]; simpl; try discriminate.
  intros H. apply andb_prop in H as [H1 H2].
  apply Z.leb_le in H1, H2.
  unfold float_of_int. rewrite of_Z_round.
  destruct (valid_round_signed (z * 2 ^ bias)) as [_ Hnan].
  destruct (round_signed (z * 2 ^ bias)) eqn:Hr; try reflexivity.
  exfalso.
  pose proof (zval_round_signed_mono (z * 2 ^ bias) (1000 * 2 ^ bias)) as Hup.
  pose proof (zval_round_signed_mono (-1000 * 2 ^ bias) (z * 2 ^ bias)) as Hdown.
  rewrite Hr in Hup, Hdown.
  assert (Hp : 0 < 2 ^ bias) by (apply Z.pow_pos_nonneg; unfold bias; lia).
  assert (H1000 : round_signed (1000 * 2 ^ bias) = B64.of_Z 1000)
    by (rewrite of_Z_round; reflexivity).
  assert (Hm1000 : round_signed (-1000 * 2 ^ bias) = B64.of_Z (-1000))
    by (rewrite of_Z_round; reflexivity).
  rewrite H1000 in Hup. rewrite Hm1000 in Hdown.
  assert (Hz1 : zval (B64.of_Z 1000) < INF).
  { apply (zval_finite_range (B64.of_Z 1000)); reflexivity. }
  assert (Hz2 : - INF < zval (B64.of_Z (-1000))).
  { apply (zval_finite_range (B64.of_Z (-1000))); reflexivity. }
  destruct s; cbn [zval signed] in Hup, Hdown; nia.
Qed.

Lemma form_values_numeric (k : string) (widget : string -> value) :
  In k ["BMI_Current"; "AgePreOp"; "Pre-Op Pain"; "WalkPain"] ->
  widget_returns k (widget k) = true -> numeric (widget k) = true.
Proof.
  intros Hk. simpl in Hk.
  destruct Hk as [<- | [<- | [<- | [<- | []]]]]; unfold widget_returns; simpl.
  - destruct (widget "BMI_Current") as [[z | f] | s]; try discriminate. reflexivity.
  - destruct (widget "AgePreOp") as [[z | f] | s]; try discriminate. reflexivity.
  - apply small_int_numeric; lia.
  - apply small_int_numeric; lia.
Qed.

(** X13: with the values the widgets of the page can return, the
    prediction step never fails: whatever is on disk and whatever the
    artifacts do, the page shows no error box, and once the button is
    pressed it shows a score. *)
Theorem page_always_scores (env : environment) (selected : radio)
    (widget : string -> value) (button : bool) :
  let code := first_word (radio_label selected) in
  (forall feature, In feature (required_features_for code) ->
                   widget_returns feature (widget feature) = true) ->
  shows_error (main env selected widget button) = false /\
  (button = true -> exists score, shown_score (main env selected widget button) = Some score).
Proof.
  intros code Hform. destruct button.
  2:{ rewrite main_idle. rewrite <- (app_nil_r (snd (startup env))).
      rewrite shows_error_warnings by apply startup_warnings.
      split; [reflexivity | discriminate]. }
  rewrite main_pressed. fold code.
  set (patient_data := collect widget (required_features_for code)).
  rewrite shown_score_warnings, shows_error_warnings by apply startup_warnings.
  destruct (predict_in_demo_mode_numeric patient_data code) as [s Hs].
  { intros k v Hk Hv. subst patient_data.
    unfold collect in Hv. rewrite foldl_insert_lookup, lookup_empty in Hv.
    destruct (str_in k (required_features_for code)) eqn:Hin; [| discriminate].
    inversion Hv; subst. apply form_values_numeric; [exact Hk |].
    apply Hform. apply str_in_In. exact Hin. }
  unfold on_predict, choose_prediction. rewrite Hs.
  destruct (use_demo_mode env).
  - destruct (interpret s). cbn. split; [reflexivity | eauto].
  - destruct (predict_with_model env patient_data code) as [s' | e].
    + destruct (interpret s'). cbn. split; [reflexivity | eauto].
    + destruct (interpret s). cbn. split; [reflexivity | eauto].
Qed.

Lemma page_always_scores_witness :
  shows_error (main corrupt_disk T5_5_years initial_form true) = false /\
  (true = true ->
   exists score, shown_score (main corrupt_disk T5_5_years initial_form true) = Some score).
Proof.
  apply (page_always_scores corrupt_disk T5_5_years initial_form true).
  intros feature Hf. simpl in Hf.
  decompose [or] Hf; subst; reflexivity || contradiction.
Defined.

(** ** The interpretation bands *)

Lemma compare_Z_lt (f : spec_float) (a b : Z) :
  B64.compare_Z f a = Some Lt -> a <= b -> B64.compare_Z f b = Some Lt.
Proof.
  destruct f as [s | s | | s m e]; unfold B64.compare_Z; try discriminate.
  - intros H Hb. f_equal. injection H as H. change ((0 ?= a) = Lt) in H.
    change ((0 ?= b) = Lt). rewrite Z.compare_lt_iff in H |- *. lia.
  - destruct s; congruence.
  - intros H Hb. f_equal. injection H as H.
    destruct (e <? 0) eqn:He; rewrite Z.compare_lt_iff in H |- *.
    + apply Z.ltb_lt in He.
      apply Z.lt_le_trans with (1 := H).
      apply Z.mul_le_mono_nonneg_r; [apply Z.pow_nonneg |]; lia.
    + lia.
Qed.

Lemma num_le_int_trans (s : number) (a b : Z) :
  num_le s (PyInt a) = true -> a <= b -> num_le s (PyInt b) = true.
Proof.
  unfold num_le. intros H Hab.
  destruct (num_compare s (PyInt a)) as [[] |] eqn:E; try discriminate.
  - rewrite (num_compare_int_eq _ _ _ E).
    destruct (Z.compare_spec a b); try reflexivity; lia.
  - destruct s as [z | f]; unfold num_compare in *.
    + injection E as E. rewrite Z.compare_lt_iff in E.
      destruct (Z.compare_spec z b); try reflexivity; lia.
    + rewrite (compare_Z_lt _ _ _ E Hab). reflexivity.
Qed.

Lemma num_le_trans_int (a b : number) (k : Z) :
  valid_number a = true -> valid_number b = true ->
  - INF < k * 2 ^ bias < INF ->
  num_le a b = true -> num_le b (PyInt k) = true -> num_le a (PyInt k) = true.
Proof.
  intros Va Vb Hk Hab Hbk.
  destruct a as [x | fa], b as [y | fb].
  - apply num_le_int_trans with y.
    + unfold num_le in *. cbn [num_compare] in *.
      destruct (Z.compare_spec x y); try discriminate; 
        destruct (Z.compare_spec x y); try reflexivity; lia.
    + unfold num_le in Hbk. cbn [num_compare] in Hbk.
      destruct (Z.compare_spec y k); try discriminate; lia.
  - unfold num_le in *. cbn [num_compare] in *.
    destruct (Z.compare_spec x k) as [E | L | G]; try reflexivity. exfalso.
    destruct (B64.compare_Z fb k) as [[] |] eqn:Ek; try discriminate.
    + rewrite (compare_Z_eq _ _ _ Ek) in Hab.
      destruct (Z.compare_spec k x); cbn in Hab; try discriminate; lia.
    + rewrite (compare_Z_lt _ k x Ek) in Hab by lia. cbn in Hab. discriminate.
  - apply num_le_int_trans with y; [exact Hab |].
    unfold num_le in Hbk. cbn [num_compare] in Hbk.
    destruct (Z.compare_spec y k); try discriminate; lia.
  - cbn [valid_number] in Va, Vb.
    change (B64.valid fa) with (valid64 fa) in Va.
    change (B64.valid fb) with (valid64 fb) in Vb.
    unfold num_le in *. cbn [num_compare] in *.
    destruct (SFcompare fa fb) as [c |] eqn:Ec; [| discriminate].
    destruct (SFcompare_not_nan _ _ _ Ec) as [Na Nb].
    rewrite SFcompare_zval in Ec by assumption. injection Ec as <-.
    rewrite compare_Z_nval in Hbk |- * by assumption.
    destruct (Z.compare_spec (zval fa) (zval fb)); try discriminate;
      destruct (Z.compare_spec (zval fb) (k * 2 ^ bias)); try discriminate;
      destruct (Z.compare_spec (zval fa) (k * 2 ^ bias)); try reflexivity; lia.
Qed.

Lemma band_bound (k : Z) : 0 <= k <= 8 -> - INF < k * 2 ^ bias < INF.
Proof.
  intros Hk. destruct eight_below_INF as [H0 H8].
  assert (0 < 2 ^ bias) by (apply Z.pow_pos_nonneg; unfold bias; lia).
  pose proof INF_pos. nia.
Qed.

(** X14: the interpretation follows the order of the scores: of two
    scores, the higher one never gets the milder label. *)
Theorem interpretation_is_monotone (a b : number) :
  valid_number a = true -> valid_number b = true ->
  num_le a b = true ->
  (severity (fst (interpret a)) <= severity (fst (interpret b)))%nat.
Proof.
  intros Va Vb Hab.
  assert (T : forall k, 0 <= k <= 8 ->
                        num_le b (PyInt k) = true -> num_le a (PyInt k) = true).
  { intros k Hk. apply num_le_trans_int; trivial. apply band_bound. exact Hk. }
  unfold interpret.
  destruct (num_le b (PyInt 2)) eqn:B2.
  { rewrite (T 2) by (trivial; lia). cbn. lia. }
  destruct (num_le b (PyInt 4)) eqn:B4.
  { rewrite (T 4) by (trivial; lia). destruct (num_le a (PyInt 2)); cbn; lia. }
  destruct (num_le b (PyInt 6)) eqn:B6.
  { rewrite (T 6) by (trivial; lia).
    destruct (num_le a (PyInt 2)); [cbn; lia |]. destruct (num_le a (PyInt 4)); cbn; lia. }
  destruct (num_le a (PyInt 2)); [cbn; lia |].
  destruct (num_le a (PyInt 4)); [cbn; lia |].
  destruct (num_le a (PyInt 6)); cbn; lia.
Qed.

Lemma interpretation_is_monotone_witness :
  (severity (fst (interpret (PyFloat lit_1_5))) <= severity (fst (interpret (PyInt 5))))%nat.
Proof.
  apply (interpretation_is_monotone (PyFloat lit_1_5) (PyInt 5)); reflexivity.
Defined.

(** ** The clamp at its edges *)

(** X15: [max(0, min(8, prediction))] on every binary64 number: a NaN and
    everything from 8 up, the positive infinity included, give the integer
    8; everything from 0 down gives the integer 0; a number strictly
    between 0 and 8 is returned as it is. *)
Theorem clamp_0_8_edges (prediction : spec_float) :
  B64.valid prediction = true ->
  clamp_0_8 prediction =
    if B64.is_nan prediction then PyInt 8
    else if 8 * 2 ^ bias <=? zval prediction then PyInt 8
    else if zval prediction <=? 0 then PyInt 0
    else PyFloat prediction.
Proof.
  intros Hv. change (valid64 prediction = true) in Hv.
  destruct prediction as [s | s | | s m e] eqn:Hp; try reflexivity;
    rewrite <- Hp in *; cbn [B64.is_nan];
    (assert (Hn : prediction <> S754_nan) by (rewrite Hp; discriminate));
    (replace (B64.is_nan prediction) with false by (rewrite Hp; reflexivity));
    destruct eight_below_INF as [H0 H8];
    unfold clamp_0_8, py_max, py_min, num_gt, num_lt; cbn [num_compare];
    rewrite (compare_Z_nval prediction 8) by assumption;
    (destruct (Z.compare_spec (zval prediction) (8 * 2 ^ bias)) as [E | L | G];
     cbn [num_compare fmap option_fmap option_map CompOpp];
     [ change (8 ?= 0) with Gt; cbn; rewrite (proj2 (Z.leb_le _ _)) by lia; reflexivity
     | rewrite (compare_Z_nval prediction 0) by assumption;
       rewrite (proj2 (Z.leb_gt _ _)) by lia;
       destruct (Z.compare_spec (zval prediction) (0 * 2 ^ bias));
       [ rewrite (proj2 (Z.leb_le _ _)) by lia; reflexivity
       | rewrite (proj2 (Z.leb_le _ _)) by lia; reflexivity
       | rewrite (proj2 (Z.leb_gt _ _)) by lia; reflexivity ]
     | change (8 ?= 0) with Gt; cbn; rewrite (proj2 (Z.leb_le _ _)) by lia; reflexivity ]).
Qed.

Lemma clamp_0_8_edges_witness :
  clamp_0_8 (S754_infinity true) =
    if B64.is_nan (S754_infinity true) then PyInt 8
    else if 8 * 2 ^ bias <=? zval (S754_infinity true) then PyInt 8
    else if zval (S754_infinity true) <=? 0 then PyInt 0
    else PyFloat (S754_infinity true).
Proof.
  apply (clamp_0_8_edges (S754_infinity true)). reflexivity.
Defined.

(** ** Order with a top *)

Lemma le_top_intro (a b : spec_float) :
  a <> S754_nan -> zval a <= zval b -> le_top a b.
Proof. intros Ha Hle. destruct b as [s | [|] | | s m e]; cbn; auto. Qed.

Lemma le_top_refl (a : spec_float) : le_top a a.
Proof.
  destruct a as [s | [|] | | s m e]; cbn; auto; split; try discriminate; lia.
Qed.

Lemma le_top_bottom (r : spec_float) :
  valid64 r = true -> le_top (S754_infinity true) r.
Proof.
  intros Hv. apply zval_range in Hv.
  destruct r as [s | [|] | | s m e]; cbn; auto; split; try discriminate;
    cbn [zval signed] in *; lia.
Qed.

(** Below a number that is not at the top there is no NaN and no positive
    infinity. *)
Lemma le_top_inv (a b : spec_float) :
  valid64 b = true -> le_top a b ->
  b = S754_nan \/ b = S754_infinity false \/
  (a <> S754_nan /\ a <> S754_infinity false /\ b <> S754_nan /\ zval a <= zval b
   /\ zval b < INF).
Proof.
  intros Vb H. pose proof INF_pos as HI.
  destruct b as [s | [|] | | s m e]; auto; right; right; cbn [le_top] in H;
    destruct H as [Ha Hle].
  - repeat split; trivial; try discriminate; cbn [zval] in *; try lia.
    intros ->. cbn [zval signed] in Hle. lia.
  - repeat split; trivial; try discriminate; cbn [zval signed] in *; try lia.
    intros ->. cbn [zval signed] in Hle. lia.
  - pose proof (zval_finite_range (S754_finite s m e) Vb eq_refl) as Hb.
    repeat split; trivial; try discriminate; try lia.
    intros ->. change (zval (S754_infinity false)) with INF in Hle. lia.
Qed.

Lemma le_top_trans (a b c : spec_float) :
  valid64 b = true -> valid64 c = true -> le_top a b -> le_top b c -> le_top a c.
Proof.
  intros Vb Vc Hab Hbc.
  destruct (le_top_inv b c Vc Hbc) as [-> | [-> | (Nb & Pb & Nc & Hle & Hc)]];
    [exact I | exact I |].
  destruct (le_top_inv a b Vb Hab) as [-> | [-> | (Na & Pa & _ & Hle' & _)]];
    [congruence | congruence |].
  apply le_top_intro; [exact Na | lia].
Qed.

Lemma not_finite64 (f : spec_float) :
  finite64 f = false -> f = S754_nan \/ exists s, f = S754_infinity s.
Proof. destruct f; try discriminate; eauto. Qed.

Lemma SFadd_comm (x y : spec_float) : SFadd 53 1024 x y = SFadd 53 1024 y x.
Proof.
  destruct x as [[|] | [|] | | sx mx ex], y as [[|] | [|] | | sy my ey];
    try reflexivity.
  unfold SFadd. rewrite (Z.min_comm ey ex). rewrite Z.add_comm. reflexivity.
Qed.

Lemma SFadd_inf_r (x : spec_float) (s : bool) :
  finite64 x = true -> SFadd 53 1024 x (S754_infinity s) = S754_infinity s.
Proof. destruct x; try discriminate; reflexivity. Qed.

Lemma SFadd_nan_r (x : spec_float) : SFadd 53 1024 x S754_nan = S754_nan.
Proof. destruct x; reflexivity. Qed.

(** Addition keeps the order in its second operand. *)
Lemma SFadd_le_top_r (x a b : spec_float) :
  valid64 x = true -> valid64 a = true -> valid64 b = true ->
  le_top a b -> le_top (SFadd 53 1024 x a) (SFadd 53 1024 x b).
Proof.
  intros Vx Va Vb Hab. pose proof INF_pos as HI.
  destruct (le_top_inv a b Vb Hab) as [-> | [-> | (Na & Pa & Nb & Hle & Hb)]].
  - rewrite SFadd_nan_r. exact I.
  - destruct x as [sx | [|] | | sx mx ex]; exact I.
  - destruct (finite64 x) eqn:Fx.
    + destruct (finite64 b) eqn:Fb.
      * destruct (finite64 a) eqn:Fa.
        -- destruct (SFadd_finite x a Vx Va Fx Fa) as (Za & _ & Nra).
           destruct (SFadd_finite x b Vx Vb Fx Fb) as (Zb & _ & _).
           apply le_top_intro; [exact Nra |]. rewrite Za, Zb.
           apply zval_round_signed_mono. lia.
        -- destruct (not_finite64 a Fa) as [-> | [[|] ->]]; try congruence.
           rewrite SFadd_inf_r by exact Fx. apply le_top_bottom.
           apply valid_SFadd; assumption.
      * destruct (not_finite64 b Fb) as [-> | [[|] ->]]; try congruence.
        -- assert (a = S754_infinity true) as ->
             by (apply zval_bottom; trivial; cbn [zval signed] in *; lia).
           apply le_top_refl.
        -- cbn [zval signed] in Hb. lia.
    + destruct (not_finite64 x Fx) as [-> | [[|] ->]]; [exact I | |].
      * destruct b as [sb | [|] | | sb mb eb]; try congruence; try exact I;
          destruct a as [sa | [|] | | sa ma ea]; try congruence; apply le_top_refl.
      * destruct b as [sb | [|] | | sb mb eb]; exact I.
Qed.

Lemma SFadd_le_top (x1 x2 a1 a2 : spec_float) :
  valid64 x1 = true -> valid64 x2 = true -> valid64 a1 = true -> valid64 a2 = true ->
  le_top x1 x2 -> le_top a1 a2 ->
  le_top (SFadd 53 1024 x1 a1) (SFadd 53 1024 x2 a2).
Proof.
  intros V1 V2 W1 W2 Hx Ha.
  apply le_top_trans with (SFadd 53 1024 x2 a1); try (apply valid_SFadd; assumption).
  - rewrite (SFadd_comm x1 a1), (SFadd_comm x2 a1). apply SFadd_le_top_r; assumption.
  - apply SFadd_le_top_r; assumption.
Qed.

Lemma valid_SFsub (x y : spec_float) :
  valid64 x = true -> valid64 y = true -> valid64 (SFsub 53 1024 x y) = true.
Proof.
  intros Vx Vy. destruct (finite64 x) eqn:Fx, (finite64 y) eqn:Fy.
  - now apply SFsub_finite.
  - destruct x as [sx | sx | | sx mx ex], y as [sy | sy | | sy my ey]; try discriminate;
      reflexivity.
  - destruct x as [sx | sx | | sx mx ex], y as [sy | sy | | sy my ey]; try discriminate;
      reflexivity.
  - destruct x as [sx | sx | | sx mx ex], y as [sy | sy | | sy my ey]; try discriminate;
      try reflexivity; destruct sx, sy; reflexivity.
Qed.

(** Subtraction keeps the order in its first operand. *)
Lemma SFsub_le_top_l (a b y : spec_float) :
  valid64 a = true -> valid64 b = true -> valid64 y = true ->
  le_top a b -> le_top (SFsub 53 1024 a y) (SFsub 53 1024 b y).
Proof.
  intros Va Vb Vy Hab. pose proof INF_pos as HI.
  destruct (le_top_inv a b Vb Hab) as [-> | [-> | (Na & Pa & Nb & Hle & Hb)]].
  - exact I.
  - destruct y as [sy | [|] | | sy my ey]; exact I.
  - destruct (finite64 y) eqn:Fy.
    + destruct (finite64 b) eqn:Fb.
      * destruct (finite64 a) eqn:Fa.
        -- destruct (SFsub_finite a y Va Vy Fa Fy) as (Za & _ & Nra).
           destruct (SFsub_finite b y Vb Vy Fb Fy) as (Zb & _ & _).
           apply le_top_intro; [exact Nra |]. rewrite Za, Zb.
           apply zval_round_signed_mono. lia.
        -- destruct (not_finite64 a Fa) as [-> | [[|] ->]]; try congruence.
           replace (SFsub 53 1024 (S754_infinity true) y) with (S754_infinity true)
             by (destruct y; try discriminate; reflexivity).
           apply le_top_bottom. apply valid_SFsub; assumption.
      * destruct (not_finite64 b Fb) as [-> | [[|] ->]]; try congruence.
        -- assert (a = S754_infinity true) as ->
             by (apply zval_bottom; trivial; cbn [zval signed] in *; lia).
           apply le_top_refl.
        -- cbn [zval signed] in Hb. lia.
    + destruct (not_finite64 y Fy) as [-> | [[|] ->]].
      * destruct b; exact I.
      * destruct b as [sb | [|] | | sb mb eb]; exact I.
      * destruct b as [sb | [|] | | sb mb eb]; try congruence; try exact I;
          destruct a as [sa | [|] | | sa ma ea]; try congruence; apply le_top_refl.
Qed.

(** Multiplication by a positive constant keeps the order. *)
Lemma SFmul_pos_le_top (mc : positive) (ec : Z) (a b : spec_float) :
  bounded 53 1024 mc ec = true ->
  valid64 a = true -> valid64 b = true -> le_top a b ->
  le_top (SFmul 53 1024 (S754_finite false mc ec) a)
         (SFmul 53 1024 (S754_finite false mc ec) b).
Proof.
  intros Hc Va Vb Hab.
  destruct (le_top_inv a b Vb Hab) as [-> | [-> | (Na & Pa & Nb & Hle & Hb)]];
    [exact I | exact I |].
  destruct (SFmul_pos_cases mc ec a Hc Va Na) as (_ & Nra & _).
  apply le_top_intro; [exact Nra |].
  apply SFmul_pos_mono; assumption.
Qed.

(** The clamp keeps the order, and sends the top to 8. *)
Lemma clamp_le_top (a b : spec_float) :
  valid64 a = true -> valid64 b = true -> le_top a b ->
  num_le (clamp_0_8 a) (clamp_0_8 b) = true.
Proof.
  intros Va Vb Hab.
  assert (H8 : num_le (clamp_0_8 a) (PyInt 8) = true).
  { pose proof (clamp_0_8_in_range a) as H. unfold in_0_8 in H.
    apply andb_prop in H. apply H. }
  destruct (le_top_inv a b Vb Hab) as [-> | [-> | (Na & Pa & Nb & Hle & Hb)]];
    [exact H8 | exact H8 |].
  apply clamp_0_8_mono; assumption.
Qed.

Lemma dict_get_insert (patient_data : gmap string value) (key k : string)
    (v dflt : value) :
  dict_get (<[key := v]> patient_data) k dflt
  = if String.eqb key k then v else dict_get patient_data k dflt.
Proof.
  unfold dict_get. destruct (String.eqb_spec key k) as [-> | Hne].
  - rewrite lookup_insert_eq. reflexivity.
  - rewrite lookup_insert_ne by exact Hne. reflexivity.
Qed.

(** A factor of the formula for two records that differ in one key. *)
Lemma factor_le_top (mc : positive) (ec : Z) (patient_data : gmap string value)
    (key k : string) (d : Z) (x1 x2 : number) (f1 f2 : spec_float) :
  bounded 53 1024 mc ec = true ->
  valid_at patient_data k = true ->
  valid_number x1 = true -> valid_number x2 = true -> num_le x1 x2 = true ->
  float_mul (S754_finite false mc ec) (dict_get (<[key := Num x1]> patient_data) k (PyInt d))
  = Ok f1 ->
  float_mul (S754_finite false mc ec) (dict_get (<[key := Num x2]> patient_data) k (PyInt d))
  = Ok f2 ->
  valid64 f1 = true /\ valid64 f2 = true /\ le_top f1 f2.
Proof.
  intros Hc Hk V1 V2 Hle. rewrite !dict_get_insert.
  destruct (String.eqb key k).
  - cbn [float_mul].
    destruct (float_of_number x1) as [g1 |] eqn:G1; cbn [rbind]; [| discriminate].
    destruct (float_of_number x2) as [g2 |] eqn:G2; cbn [rbind]; [| discriminate].
    intros H1 H2. inversion H1; inversion H2; subst. clear H1 H2.
    pose proof (float_of_number_valid _ _ V1 G1) as W1.
    pose proof (float_of_number_valid _ _ V2 G2) as W2.
    destruct (float_of_number_mono _ _ _ _ V1 V2 Hle G1 G2) as (Hz & N1 & N2).
    split; [apply (valid_SFmul (S754_finite false mc ec) g1); [exact Hc | exact W1] |].
    split; [apply (valid_SFmul (S754_finite false mc ec) g2); [exact Hc | exact W2] |].
    apply (SFmul_pos_le_top mc ec g1 g2); trivial. apply le_top_intro; assumption.
  - intros H1 H2. rewrite H1 in H2. inversion H2; subst.
    assert (Vf : valid64 f2 = true).
    { apply valid_float_mul with (2 := valid_dict_get _ _ d Hk) (3 := H1). exact Hc. }
    split; [exact Vf |]. split; [exact Vf |]. apply le_top_refl.
Qed.

Lemma float_mul_insert_ne (c : spec_float) (patient_data : gmap string value)
    (key k : string) (v dflt : value) :
  key <> k ->
  float_mul c (dict_get (<[key := v]> patient_data) k dflt)
  = float_mul c (dict_get patient_data k dflt).
Proof.
  intros Hne. rewrite dict_get_insert.
  destruct (String.eqb_spec key k); [contradiction | reflexivity].
Qed.

Lemma float_sub_valid (x : spec_float) (n : number) (r : spec_float) :
  valid64 x = true -> valid_number n = true -> float_sub x n = Ok r ->
  exists y, float_of_number n = Ok y /\ valid64 y = true /\ r = SFsub 53 1024 x y.
Proof.
  intros Vx Vn. unfold float_sub.
  destruct (float_of_number n) as [y |] eqn:Hy; cbn [rbind]; [| discriminate].
  intros H. inversion H; subst. exists y. split; [reflexivity |].
  split; [apply float_of_number_valid with n; assumption | reflexivity].
Qed.

Lemma Ok_inj {A : Type} (a b : A) : Ok a = Ok b -> a = b.
Proof. congruence. Qed.

Ltac valid_sum := repeat apply valid_SFadd; first [assumption | reflexivity].

(** The heuristic score does not go down when one of its three increasing
    entries goes up. *)
Lemma demo_score_mono (patient_data : gmap string value)
    (timepoint key : string) (x1 x2 score1 score2 : number) :
  In key ["BMI_Current"; "AgePreOp"; "Pre-Op Pain"] ->
  (forall k, In k ["BMI_Current"; "AgePreOp"; "Pre-Op Pain"; "WalkPain"] ->
             valid_at patient_data k = true) ->
  valid_number x1 = true -> valid_number x2 = true ->
  num_le x1 x2 = true ->
  predict_in_demo_mode (<[key := Num x1]> patient_data) timepoint = Ok score1 ->
  predict_in_demo_mode (<[key := Num x2]> patient_data) timepoint = Ok score2 ->
  num_le score1 score2 = true.
Proof.
  intros Hkey Hval V1 V2 Hle.
  assert (Hb := Hval "BMI_Current" ltac:(simpl; auto)).
  assert (Ha := Hval "AgePreOp" ltac:(simpl; auto)).
  assert (Hp := Hval "Pre-Op Pain" ltac:(simpl; auto)).
  assert (Hw := Hval "WalkPain" ltac:(simpl; auto 10)).
  assert (Hkw : key <> "WalkPain") by (simpl in Hkey; intuition (subst; discriminate)).
  assert (Hka : key <> "Approach") by (simpl in Hkey; intuition (subst; discriminate)).
  unfold predict_in_demo_mode.
  destruct (String.eqb timepoint "T3").
  - destruct (float_mul lit_0_01 (dict_get (<[key := Num x1]> patient_data) "BMI_Current" _))
      as [b1 |] eqn:B1; cbn [rbind]; [| discriminate].
    destruct (float_mul lit_0_01 (dict_get (<[key := Num x1]> patient_data) "AgePreOp" _))
      as [a1 |] eqn:A1; cbn [rbind]; [| discriminate].
    destruct (float_mul lit_0_2 (dict_get (<[key := Num x1]> patient_data) "Pre-Op Pain" _))
      as [p1 |] eqn:P1; cbn [rbind]; [| discriminate].
    destruct (float_mul lit_0_1 (dict_get (<[key := Num x1]> patient_data) "WalkPain" _))
      as [w1 |] eqn:W1; cbn [rbind]; [| discriminate].
    destruct (float_mul lit_0_01 (dict_get (<[key := Num x2]> patient_data) "BMI_Current" _))
      as [b2 |] eqn:B2; cbn [rbind]; [| discriminate].
    destruct (float_mul lit_0_01 (dict_get (<[key := Num x2]> patient_data) "AgePreOp" _))
      as [a2 |] eqn:A2; cbn [rbind]; [| discriminate].
    destruct (float_mul lit_0_2 (dict_get (<[key := Num x2]> patient_data) "Pre-Op Pain" _))
      as [p2 |] eqn:P2; cbn [rbind]; [| discriminate].
    destruct (float_mul lit_0_1 (dict_get (<[key := Num x2]> patient_data) "WalkPain" _))
      as [w2 |] eqn:W2; cbn [rbind]; [| discriminate].
    intros H1 H2. apply Ok_inj in H1, H2. subst score1 score2.
    pose proof (fun Hc => factor_le_top _ _ _ _ _ _ _ _ _ _ Hc Hb V1 V2 Hle B1 B2) as FHb.
    specialize (FHb eq_refl). destruct FHb as (Vb1 & Vb2 & Lb).
    pose proof (fun Hc => factor_le_top _ _ _ _ _ _ _ _ _ _ Hc Ha V1 V2 Hle A1 A2) as FHa.
    specialize (FHa eq_refl). destruct FHa as (Va1 & Va2 & La).
    pose proof (fun Hc => factor_le_top _ _ _ _ _ _ _ _ _ _ Hc Hp V1 V2 Hle P1 P2) as FHp.
    specialize (FHp eq_refl). destruct FHp as (Vp1 & Vp2 & Lp).
    rewrite float_mul_insert_ne in W1, W2 by exact Hkw.
    assert (Vw : valid64 w1 = true).
    { apply valid_float_mul with (2 := valid_dict_get _ _ 5 Hw) (3 := W1). reflexivity. }
    rewrite W1 in W2. apply Ok_inj in W2. subst w2.
    unfold B64.sub, B64.add. change B64.prec with 53. change B64.emax with 1024.
    apply clamp_le_top; [apply valid_SFsub; valid_sum | apply valid_SFsub; valid_sum |].
    apply SFsub_le_top_l; [valid_sum | valid_sum | exact Vw |].
    repeat (apply SFadd_le_top; [valid_sum | valid_sum | valid_sum | valid_sum | |]);
      try assumption.
    apply le_top_refl.
  - destruct (float_mul lit_0_008 (dict_get (<[key := Num x1]> patient_data) "BMI_Current" _))
      as [b1 |] eqn:B1; cbn [rbind]; [| discriminate].
    destruct (float_mul lit_0_005 (dict_get (<[key := Num x1]> patient_data) "AgePreOp" _))
      as [a1 |] eqn:A1; cbn [rbind]; [| discriminate].
    destruct (float_mul lit_0_15 (dict_get (<[key := Num x1]> patient_data) "Pre-Op Pain" _))
      as [p1 |] eqn:P1; cbn [rbind]; [| discriminate].
    destruct (float_mul lit_0_008 (dict_get (<[key := Num x2]> patient_data) "BMI_Current" _))
      as [b2 |] eqn:B2; cbn [rbind]; [| discriminate].
    destruct (float_mul lit_0_005 (dict_get (<[key := Num x2]> patient_data) "AgePreOp" _))
      as [a2 |] eqn:A2; cbn [rbind]; [| discriminate].
    destruct (float_mul lit_0_15 (dict_get (<[key := Num x2]> patient_data) "Pre-Op Pain" _))
      as [p2 |] eqn:P2; cbn [rbind]; [| discriminate].
    rewrite !lookup_insert_ne by exact Hka.
    pose proof (fun Hc => factor_le_top _ _ _ _ _ _ _ _ _ _ Hc Hb V1 V2 Hle B1 B2) as FHb.
    specialize (FHb eq_refl). destruct FHb as (Vb1 & Vb2 & Lb).
    pose proof (fun Hc => factor_le_top _ _ _ _ _ _ _ _ _ _ Hc Ha V1 V2 Hle A1 A2) as FHa.
    specialize (FHa eq_refl). destruct FHa as (Va1 & Va2 & La).
    pose proof (fun Hc => factor_le_top _ _ _ _ _ _ _ _ _ _ Hc Hp V1 V2 Hle P1 P2) as FHp.
    specialize (FHp eq_refl). destruct FHp as (Vp1 & Vp2 & Lp).
    set (approach_factor :=
           if eq_str (patient_data !! "Approach") "Posterior" then PyFloat lit_0_5
           else PyInt 0).
    assert (Vaf : valid_number approach_factor = true)
      by (subst approach_factor; destruct (eq_str _ _); reflexivity).
    unfold B64.add. change B64.prec with 53. change B64.emax with 1024.
    destruct (float_sub (SFadd 53 1024 (SFadd 53 1024 (SFadd 53 1024 lit_1_5 b1) a1) p1)
                        approach_factor) as [r1 |] eqn:R1; cbn [rbind]; [| discriminate].
    destruct (float_sub (SFadd 53 1024 (SFadd 53 1024 (SFadd 53 1024 lit_1_5 b2) a2) p2)
                        approach_factor) as [r2 |] eqn:R2; cbn [rbind]; [| discriminate].
    intros H1 H2. apply Ok_inj in H1, H2. subst score1 score2.
    apply float_sub_valid in R1 as (y1 & Y1 & Vy1 & ->); [| valid_sum | exact Vaf].
    apply float_sub_valid in R2 as (y2 & Y2 & Vy2 & ->); [| valid_sum | exact Vaf].
    rewrite Y1 in Y2. apply Ok_inj in Y2. subst y2.
    apply clamp_le_top; [apply valid_SFsub; valid_sum | apply valid_SFsub; valid_sum |].
    apply SFsub_le_top_l; [valid_sum | valid_sum | exact Vy1 |].
    repeat (apply SFadd_le_top; [valid_sum | valid_sum | valid_sum | valid_sum | |]);
      try assumption.
    apply le_top_refl.
Qed.

(** X16: the heuristic score never goes down when BMI_Current, AgePreOp or
    Pre-Op Pain goes up and the rest of the record stays as it is, for
    either formula and for every value a record can hold, the infinities
    and NaN among the other entries included. *)
Theorem demo_score_nondecreasing (patient_data : gmap string value)
    (timepoint key : string) (x1 x2 score1 score2 : number) :
  In key ["BMI_Current"; "AgePreOp"; "Pre-Op Pain"] ->
  (forall k, In k ["BMI_Current"; "AgePreOp"; "Pre-Op Pain"; "WalkPain"] ->
             valid_at patient_data k = true) ->
  valid_number x1 = true -> valid_number x2 = true ->
  num_le x1 x2 = true ->
  predict_in_demo_mode (<[key := Num x1]> patient_data) timepoint = Ok score1 ->
  predict_in_demo_mode (<[key := Num x2]> patient_data) timepoint = Ok score2 ->
  num_le score1 score2 = true.
Proof.
  intros Hkey Hval V1 V2 Hle H1 H2.
  apply (demo_score_mono patient_data timepoint key x1 x2 score1 score2); assumption.
Qed.

Lemma demo_score_nondecreasing_witness :
  num_le (PyFloat lit_2_0) (PyFloat (B64.literal 22 10)) = true.
Proof.
  apply (demo_score_nondecreasing (collect zero_form T3_IMPORTANT_FEATURES) "T3"
           "Pre-Op Pain" (PyInt 0) (PyFloat (B64.of_Z 1))).
  - simpl. auto.
  - intros k Hk. simpl in Hk. decompose [or] Hk; subst; reflexivity || contradiction.
  - reflexivity.
  - reflexivity.
  - reflexivity.
  - vm_compute. reflexivity.
  - vm_compute. reflexivity.
Defined.

(** X17: for the five-year formula, the approach "Posterior" never gives
    a higher score than any other approach, or none, on the same record. *)
Theorem posterior_never_raises_score (patient_data : gmap string value)
    (timepoint : string) (score1 score2 : number) :
  timepoint <> "T3" ->
  (forall k, In k ["BMI_Current"; "AgePreOp"; "Pre-Op Pain"] ->
             valid_at patient_data k = true) ->
  predict_in_demo_mode (<["Approach" := Str "Posterior"]> patient_data) timepoint
  = Ok score1 ->
  predict_in_demo_mode patient_data timepoint = Ok score2 ->
  num_le score1 score2 = true.
Proof.
  intros Htp Hval.
  assert (Hb := Hval "BMI_Current" ltac:(simpl; auto)).
  assert (Ha := Hval "AgePreOp" ltac:(simpl; auto)).
  assert (Hp := Hval "Pre-Op Pain" ltac:(simpl; auto)).
  unfold predict_in_demo_mode.
  destruct (String.eqb_spec timepoint "T3") as [E | _]; [contradiction |].
  rewrite !float_mul_insert_ne by discriminate. rewrite lookup_insert_eq.
  destruct (float_mul lit_0_008 (dict_get patient_data "BMI_Current" _))
    as [b |] eqn:B; cbn [rbind]; [| discriminate].
  destruct (float_mul lit_0_005 (dict_get patient_data "AgePreOp" _))
    as [a |] eqn:A; cbn [rbind]; [| discriminate].
  destruct (float_mul lit_0_15 (dict_get patient_data "Pre-Op Pain" _))
    as [p |] eqn:P; cbn [rbind]; [| discriminate].
  assert (Vb : valid64 b = true).
  { apply valid_float_mul with (2 := valid_dict_get _ _ 25 Hb) (3 := B). reflexivity. }
  assert (Va : valid64 a = true).
  { apply valid_float_mul with (2 := valid_dict_get _ _ 65 Ha) (3 := A). reflexivity. }
  assert (Vp : valid64 p = true).
  { apply valid_float_mul with (2 := valid_dict_get _ _ 5 Hp) (3 := P). reflexivity. }
  change (eq_str (Some (Str "Posterior")) "Posterior") with true. cbv iota.
  unfold B64.add. change B64.prec with 53. change B64.emax with 1024.
  set (sum := SFadd 53 1024 (SFadd 53 1024 (SFadd 53 1024 lit_1_5 b) a) p).
  assert (Vs : valid64 sum = true) by (subst sum; valid_sum).
  change (float_sub sum (PyFloat lit_0_5)) with (Ok (SFsub 53 1024 sum lit_0_5)).
  cbn [rbind]. intros H1. apply Ok_inj in H1. subst score1.
  destruct (eq_str (patient_data !! "Approach") "Posterior").
  - change (float_sub sum (PyFloat lit_0_5)) with (Ok (SFsub 53 1024 sum lit_0_5)).
    cbn [rbind]. intros H2. apply Ok_inj in H2. subst score2.
    apply clamp_sub_mono; try reflexivity; try discriminate. exact Vs.
  - change (float_sub sum (PyInt 0)) with (Ok (SFsub 53 1024 sum (S754_zero false))).
    cbn [rbind]. intros H2. apply Ok_inj in H2. subst score2.
    apply clamp_sub_mono; try reflexivity; try discriminate. exact Vs.
Qed.

Lemma posterior_never_raises_score_witness :
  num_le (PyFloat (B64.literal 2275 1000)) (PyFloat (B64.literal 2775 1000)) = true.
Proof.
  apply (posterior_never_raises_score example_record "T5").
  - discriminate.
  - intros k Hk. simpl in Hk. decompose [or] Hk; subst; reflexivity || contradiction.
  - vm_compute. reflexivity.
  - vm_compute. reflexivity.
Defined.

Lemma SFsub_nan_r (x : spec_float) : SFsub 53 1024 x S754_nan = S754_nan.
Proof. destruct x; reflexivity. Qed.

Lemma float_mul_nan (c : spec_float) (patient_data : gmap string value)
    (key : string) (dflt : value) (f : spec_float) :
  patient_data !! key = Some (Num (PyFloat S754_nan)) ->
  float_mul c (dict_get patient_data key dflt) = Ok f -> f = S754_nan.
Proof.
  intros Hk. unfold dict_get. rewrite Hk. cbn. intros H. apply Ok_inj in H. subst f.
  destruct c; reflexivity.
Qed.

(** X18: a NaN under BMI_Current, AgePreOp or Pre-Op Pain, or under
    WalkPain for "T3", is not an error: whenever the heuristic predictor
    returns on such a record, it returns the integer 8, the top of the
    scale. *)
Theorem demo_mode_nan_scores_8 (patient_data : gmap string value)
    (timepoint key : string) (score : number) :
  In key ["BMI_Current"; "AgePreOp"; "Pre-Op Pain"] \/
  (key = "WalkPain" /\ timepoint = "T3") ->
  patient_data !! key = Some (Num (PyFloat S754_nan)) ->
  predict_in_demo_mode patient_data timepoint = Ok score ->
  score = PyInt 8.
Proof.
  intros Hkey Hnan. unfold predict_in_demo_mode.
  destruct (String.eqb_spec timepoint "T3") as [E | NE].
  - destruct (float_mul lit_0_01 (dict_get patient_data "BMI_Current" _))
      as [b |] eqn:B; cbn [rbind]; [| discriminate].
    destruct (float_mul lit_0_01 (dict_get patient_data "AgePreOp" _))
      as [a |] eqn:A; cbn [rbind]; [| discriminate].
    destruct (float_mul lit_0_2 (dict_get patient_data "Pre-Op Pain" _))
      as [p |] eqn:P; cbn [rbind]; [| discriminate].
    destruct (float_mul lit_0_1 (dict_get patient_data "WalkPain" _))
      as [w |] eqn:W; cbn [rbind]; [| discriminate].
    intros H. apply Ok_inj in H. subst score.
    unfold B64.sub, B64.add. change B64.prec with 53. change B64.emax with 1024.
    destruct Hkey as [[<- | [<- | [<- | []]]] | [-> _]].
    + apply float_mul_nan in B; [| exact Hnan]. subst b.
      rewrite SFadd_nan_r. reflexivity.
    + apply float_mul_nan in A; [| exact Hnan]. subst a.
      rewrite SFadd_nan_r. reflexivity.
    + apply float_mul_nan in P; [| exact Hnan]. subst p.
      rewrite SFadd_nan_r. reflexivity.
    + apply float_mul_nan in W; [| exact Hnan]. subst w.
      rewrite SFsub_nan_r. reflexivity.
  - destruct (float_mul lit_0_008 (dict_get patient_data "BMI_Current" _))
      as [b |] eqn:B; cbn [rbind]; [| discriminate].
    destruct (float_mul lit_0_005 (dict_get patient_data "AgePreOp" _))
      as [a |] eqn:A; cbn [rbind]; [| discriminate].
    destruct (float_mul lit_0_15 (dict_get patient_data "Pre-Op Pain" _))
      as [p |] eqn:P; cbn [rbind]; [| discriminate].
    unfold B64.add. change B64.prec with 53. change B64.emax with 1024.
    assert (Hsum : SFadd 53 1024 (SFadd 53 1024 (SFadd 53 1024 lit_1_5 b) a) p = S754_nan).
    { destruct Hkey as [[<- | [<- | [<- | []]]] | [_ E]]; [| | | contradiction].
      - apply float_mul_nan in B; [| exact Hnan]. subst b.
        rewrite SFadd_nan_r. reflexivity.
      - apply float_mul_nan in A; [| exact Hnan]. subst a.
        rewrite SFadd_nan_r. reflexivity.
      - apply float_mul_nan in P; [| exact Hnan]. subst p.
        rewrite SFadd_nan_r. reflexivity. }
    rewrite Hsum. unfold float_sub.
    destruct (float_of_number _); cbn [rbind]; [| discriminate].
    intros H. apply Ok_inj in H. subst score. reflexivity.
Qed.

Lemma demo_mode_nan_scores_8_witness :
  predict_in_demo_mode (<["AgePreOp" := Num (PyFloat S754_nan)]> example_record) "T5"
  = Ok (PyInt 8) /\ PyInt 8 = PyInt 8.
Proof.
  split; [vm_compute; reflexivity |].
  apply (demo_mode_nan_scores_8 (<["AgePreOp" := Num (PyFloat S754_nan)]> example_record)
           "T5" "AgePreOp" (PyInt 8)).
  - left. simpl. auto.
  - reflexivity.
  - vm_compute. reflexivity.
Defined.

(** * The defaults of the heuristic predictor *)

Lemma predict_in_demo_mode_else (patient_data : gmap string value) (timepoint : string) :
  timepoint <> "T3" ->
  predict_in_demo_mode patient_data timepoint = predict_in_demo_mode patient_data "T5".
Proof.
  intros Hne. unfold predict_in_demo_mode.
  destruct (String.eqb_spec timepoint "T3"); [contradiction | reflexivity].
Qed.

Lemma valid_at_empty (key : string) : valid_at ∅ key = true.
Proof. unfold valid_at. rewrite lookup_empty. reflexivity. Qed.

Lemma num_le_int (x y : Z) : x <= y -> num_le (PyInt x) (PyInt y) = true.
Proof.
  intros H. unfold num_le. cbn [num_compare].
  destruct (Z.compare_spec x y); try reflexivity; lia.
Qed.

(** The T3 score does not go up when WalkPain goes up. *)
Lemma walk_score_antitone (patient_data : gmap string value)
    (w1 w2 score1 score2 : number) :
  valid_at patient_data "BMI_Current" = true ->
  valid_at patient_data "AgePreOp" = true ->
  valid_at patient_data "Pre-Op Pain" = true ->
  valid_number w1 = true -> valid_number w2 = true ->
  num_le w1 w2 = true ->
  predict_in_demo_mode (<["WalkPain" := Num w1]> patient_data) "T3" = Ok score1 ->
  predict_in_demo_mode (<["WalkPain" := Num w2]> patient_data) "T3" = Ok score2 ->
  num_le score2 score1 = true.
Proof.
  intros Vb Va Vp Vw1 Vw2 Hle H1 H2.
  apply predict_T3_walk in H1 as (bmi & age & preop & f1 & Hb & Ha & Hp & Hf1 & ->).
  apply predict_T3_walk in H2 as (bmi' & age' & preop' & f2 & Hb' & Ha' & Hp' & Hf2 & ->).
  rewrite Hb in Hb'. rewrite Ha in Ha'. rewrite Hp in Hp'.
  apply Ok_inj in Hb', Ha', Hp'. subst bmi' age' preop'.
  destruct (float_of_number_mono w1 w2 f1 f2 Vw1 Vw2 Hle Hf1 Hf2) as (Hz & N1 & N2).
  pose proof (float_of_number_valid w1 f1 Vw1 Hf1) as Vf1.
  pose proof (float_of_number_valid w2 f2 Vw2 Hf2) as Vf2.
  assert (Vbmi : valid64 bmi = true).
  { apply valid_float_mul with (2 := valid_dict_get _ _ 25 Vb) (3 := Hb). reflexivity. }
  assert (Vage : valid64 age = true).
  { apply valid_float_mul with (2 := valid_dict_get _ _ 65 Va) (3 := Ha). reflexivity. }
  assert (Vpre : valid64 preop = true).
  { apply valid_float_mul with (2 := valid_dict_get _ _ 5 Vp) (3 := Hp). reflexivity. }
  unfold B64.sub, B64.add, B64.mul. change B64.prec with 53. change B64.emax with 1024.
  unfold lit_0_1.
  assert (Hc : bounded 53 1024 7205759403792794 (-56) = true) by reflexivity.
  destruct (SFmul_pos_cases _ _ f1 Hc Vf1 N1) as (Vg1 & Ng1 & _).
  destruct (SFmul_pos_cases _ _ f2 Hc Vf2 N2) as (Vg2 & Ng2 & _).
  apply clamp_sub_mono; trivial; [valid_sum |].
  apply SFmul_pos_mono; assumption.
Qed.

(** An integer whose score is the score of [d], between two neighbours
    with other scores, is [d]: the case of an entry the score grows with. *)
Lemma pinned_by_growth (timepoint key : string) (d : Z) (lo mid hi : number) :
  In key ["BMI_Current"; "AgePreOp"; "Pre-Op Pain"] ->
  predict_in_demo_mode (<[key := Num (PyInt (d - 1))]> ∅) timepoint = Ok lo ->
  predict_in_demo_mode (<[key := Num (PyInt d)]> ∅) timepoint = Ok mid ->
  predict_in_demo_mode (<[key := Num (PyInt (d + 1))]> ∅) timepoint = Ok hi ->
  num_le mid lo = false -> num_le hi mid = false ->
  forall z, predict_in_demo_mode (<[key := Num (PyInt z)]> ∅) timepoint = Ok mid -> z = d.
Proof.
  intros Hkey Hlo Hmid Hhi Hbelow Habove z Hz.
  destruct (Z.lt_trichotomy z d) as [L | [E | G]]; [exfalso | exact E | exfalso].
  - assert (H : num_le mid lo = true).
    { apply (demo_score_mono ∅ timepoint key (PyInt z) (PyInt (d - 1))); trivial;
        try (intros k _; apply valid_at_empty). apply num_le_int. lia. }
    congruence.
  - assert (H : num_le hi mid = true).
    { apply (demo_score_mono ∅ timepoint key (PyInt (d + 1)) (PyInt z)); trivial;
        try (intros k _; apply valid_at_empty). apply num_le_int. lia. }
    congruence.
Qed.

(** The same for WalkPain, with which the T3 score falls. *)
Lemma pinned_by_fall (d : Z) (lo mid hi : number) :
  predict_in_demo_mode (<["WalkPain" := Num (PyInt (d - 1))]> ∅) "T3" = Ok lo ->
  predict_in_demo_mode (<["WalkPain" := Num (PyInt d)]> ∅) "T3" = Ok mid ->
  predict_in_demo_mode (<["WalkPain" := Num (PyInt (d + 1))]> ∅) "T3" = Ok hi ->
  num_le lo mid = false -> num_le mid hi = false ->
  forall z, predict_in_demo_mode (<["WalkPain" := Num (PyInt z)]> ∅) "T3" = Ok mid -> z = d.
Proof.
  intros Hlo Hmid Hhi Hbelow Habove z Hz.
  destruct (Z.lt_trichotomy z d) as [L | [E | G]]; [exfalso | exact E | exfalso].
  - assert (H : num_le lo mid = true).
    { apply (walk_score_antitone ∅ (PyInt z) (PyInt (d - 1))); trivial;
        try apply valid_at_empty. apply num_le_int. lia. }
    congruence.
  - assert (H : num_le mid hi = true).
    { apply (walk_score_antitone ∅ (PyInt (d + 1)) (PyInt z)); trivial;
        try apply valid_at_empty. apply num_le_int. lia. }
    congruence.
Qed.

Ltac pin_growth H :=
  match type of H with
  | predict_in_demo_mode (<[?k := _]> _) ?tp = _ => eapply (pinned_by_growth tp k)
  end;
  [ simpl; auto
  | vm_compute; reflexivity | vm_compute; reflexivity | vm_compute; reflexivity
  | vm_compute; reflexivity | vm_compute; reflexivity
  | rewrite H; vm_compute; reflexivity ].

(** C6: [predict_in_demo_mode] reads absent keys as BMI_Current 25,
    AgePreOp 65, Pre-Op Pain 5 and WalkPain 5.  Its result on a record
    equals its result on the record with these defaults written in; on the
    empty record it is the score of the four defaults, 3.4 for "T3" and
    2.775 otherwise.  The defaults are these numbers and no others: an
    integer written under one of the keys of the empty record gives the
    score of the empty record if and only if it is the default of the key
    (WalkPain is read for "T3" only).  The predictor returns a score
    whenever the values present under the four keys are numeric, in
    particular on the empty record, and removing any key from a record on
    which it returns a score never makes it fail. *)
Theorem demo_mode_defaults (patient_data : gmap string value) (timepoint : string) :
  predict_in_demo_mode patient_data timepoint
  = predict_in_demo_mode (with_defaults patient_data) timepoint /\
  ((forall k v, In k ["BMI_Current"; "AgePreOp"; "Pre-Op Pain"; "WalkPain"] ->
                patient_data !! k = Some v -> numeric v = true) ->
   exists score, predict_in_demo_mode patient_data timepoint = Ok score) /\
  (exists score, predict_in_demo_mode ∅ timepoint = Ok score) /\
  (forall k score,
     predict_in_demo_mode patient_data timepoint = Ok score ->
     exists score', predict_in_demo_mode (delete k patient_data) timepoint = Ok score') /\
  predict_in_demo_mode ∅ timepoint
  = Ok (PyFloat (if String.eqb timepoint "T3" then B64.literal 34 10
                 else B64.literal 2775 1000)) /\
  (forall key dflt z,
     In (key, dflt) [("BMI_Current", 25); ("AgePreOp", 65); ("Pre-Op Pain", 5)] \/
     ((key, dflt) = ("WalkPain", 5) /\ timepoint = "T3") ->
     predict_in_demo_mode (<[key := Num (PyInt z)]> ∅) timepoint
     = predict_in_demo_mode ∅ timepoint <-> z = dflt).
Proof.
  split; [| split; [| split; [| split; [| split]]]].
  - unfold predict_in_demo_mode, dict_get, with_defaults.
    rewrite !lookup_fill_default. simpl.
    destruct (patient_data !! "BMI_Current"), (patient_data !! "AgePreOp"),
      (patient_data !! "Pre-Op Pain"), (patient_data !! "WalkPain"); reflexivity.
  - apply predict_in_demo_mode_numeric.
  - apply predict_in_demo_mode_numeric. intros k v _ H.
    rewrite lookup_empty in H. discriminate.
  - intros k score H.
    assert (returns (predict_in_demo_mode patient_data timepoint) = true) as Hr
      by now rewrite H.
    apply returns_true. rewrite predict_in_demo_mode_returns in Hr |- *.
    rewrite !andb_true_iff in Hr. destruct Hr as [[[H1 H2] H3] H4].
    rewrite !numeric_default_get by (reflexivity || assumption). simpl.
    destruct (String.eqb timepoint "T3"); [| reflexivity].
    now apply numeric_default_get.
  - destruct (String.eqb_spec timepoint "T3") as [-> | Hne].
    + vm_compute. reflexivity.
    + rewrite predict_in_demo_mode_else by exact Hne. vm_compute. reflexivity.
  - intros key dflt z Hkey.
    assert (Hcase : (timepoint = "T3" \/ (timepoint <> "T3" /\ (key, dflt) <> ("WalkPain", 5)))).
    { destruct (String.eqb_spec timepoint "T3") as [-> | Hne]; [left; reflexivity |].
      right. split; [exact Hne |]. destruct Hkey as [Hin | [_ E]]; [| contradiction].
      simpl in Hin. intros E. rewrite E in Hin.
      decompose [or] Hin; discriminate || contradiction. }
    destruct Hcase as [-> | [Hne Hnw]].
    + destruct Hkey as [Hin | [E _]].
      * simpl in Hin. destruct Hin as [E | [E | [E | []]]]; inversion E; subst key dflt;
          (split; [intros H; pin_growth H | intros ->; vm_compute; reflexivity]).
      * inversion E; subst key dflt.
        split; [| intros ->; vm_compute; reflexivity].
        intros H. eapply pinned_by_fall;
          [ vm_compute; reflexivity | vm_compute; reflexivity | vm_compute; reflexivity
          | vm_compute; reflexivity | vm_compute; reflexivity
          | rewrite H; vm_compute; reflexivity ].
    + rewrite !(predict_in_demo_mode_else _ timepoint) by exact Hne.
      destruct Hkey as [Hin | [E _]]; [| contradiction].
      simpl in Hin. destruct Hin as [E | [E | [E | []]]]; inversion E; subst key dflt;
        (split; [intros H; pin_growth H | intros ->; vm_compute; reflexivity]).
Qed.

Lemma demo_mode_defaults_witness :
  (exists score, predict_in_demo_mode (<["Approach" := Str "Other"]> ∅) "T5" = Ok score) /\
  (exists score', predict_in_demo_mode (delete "WalkPain" example_record) "T3" = Ok score') /\
  (predict_in_demo_mode (<["WalkPain" := Num (PyInt 5)]> ∅) "T3"
   = predict_in_demo_mode ∅ "T3" <-> 5 = 5).
Proof.
  split; [| split].
  - apply (proj1 (proj2 (demo_mode_defaults (<["Approach" := Str "Other"]> ∅) "T5"))).
    intros k v Hk H. simpl in Hk.
    destruct Hk as [<- | [<- | [<- | [<- | []]]]]; vm_compute in H; discriminate H.
  - apply (proj1 (proj2 (proj2 (proj2 (demo_mode_defaults example_record "T3"))))
             "WalkPain" (PyFloat (B64.literal 34 10))).
    vm_compute. reflexivity.
  - apply (proj2 (proj2 (proj2 (proj2 (proj2 (demo_mode_defaults ∅ "T3")))))
             "WalkPain" 5 5).
    right. split; reflexivity.
Defined.
